(** * weather_app_node: a shallow embedding of [src/app.js]

    The program is one class, [WeatherApp], running on Node.js.  Its methods
    are embedded as functions over an explicit session state (the fields of
    [this], the two local files and the console), in a small monad that keeps
    the effects performed before an exception is thrown.

    The constructor, [setupApiKey] and [run] with its menu come after the
    methods, in the module [Menu]; what is typed at the prompts is given to
    them as a script of answers.

    ECMAScript built-ins with a short, closed definition ([String.prototype.trim],
    [Array.prototype.includes], [indexOf], [splice], [slice], [Math.min],
    [Math.max], [Number.prototype.toFixed], ToBoolean, property order of
    ordinary objects) are written out.  The large host services ([JSON],
    [Intl] date formatting, [Number::toString]) are interfaces. *)

From Stdlib Require Import ZArith NArith QArith Qpower Qround Qabs Lqa List Bool Lia String Ascii.
From Stdlib Require Import Floats.SpecFloat.
Import ListNotations.

Set Implicit Arguments.

(* ===================================================================== *)
(** * ECMAScript data *)
(* ===================================================================== *)

Module JS.

(** ** Strings

    An ECMAScript string is a finite sequence of 16-bit code units. *)

Definition jsstring := list N.

Definition unit_eqb (a b : N) : bool := N.eqb a b.

Fixpoint str_eqb (a b : jsstring) : bool :=
  match a, b with
  | [], [] => true
  | x :: a', y :: b' => unit_eqb x y && str_eqb a' b'
  | _, _ => false
  end.

(** Source text is UTF-8; string literals of the program are decoded to code
    units the way the engine does when it loads the file. *)

Definition cont (b : N) : N := N.land b 63.

Fixpoint utf8_points (bs : list N) : list N :=
  match bs with
  | [] => []
  | b0 :: r0 =>
    if (b0 <? 128)%N then b0 :: utf8_points r0
    else
      match r0 with
      | [] => []
      | b1 :: r1 =>
        if (b0 <? 224)%N then (N.land b0 31 * 64 + cont b1)%N :: utf8_points r1
        else
          match r1 with
          | [] => []
          | b2 :: r2 =>
            if (b0 <? 240)%N
            then (N.land b0 15 * 4096 + cont b1 * 64 + cont b2)%N :: utf8_points r2
            else
              match r2 with
              | [] => []
              | b3 :: r3 =>
                (N.land b0 7 * 262144 + cont b1 * 4096 + cont b2 * 64 + cont b3)%N
                  :: utf8_points r3
              end
          end
      end
  end.

Definition utf16_units (cp : N) : list N :=
  if (cp <? 65536)%N then [cp]
  else let c := (cp - 65536)%N in [(55296 + c / 1024)%N; (56320 + c mod 1024)%N].

Definition u16 (s : string) : jsstring :=
  flat_map utf16_units (utf8_points (map N_of_ascii (list_ascii_of_string s))).

(** [WhiteSpace] and [LineTerminator] code points, the set that
    [String.prototype.trim] strips (all of them are single code units). *)

Definition white_space_units : list N :=
  [ 9; 10; 11; 12; 13; 32; 160; 5760;
    8192; 8193; 8194; 8195; 8196; 8197; 8198; 8199; 8200; 8201; 8202;
    8232; 8233; 8239; 8287; 12288; 65279 ]%N.

Definition is_white_space (u : N) : bool := existsb (N.eqb u) white_space_units.

Fixpoint trimStart (s : jsstring) : jsstring :=
  match s with
  | [] => []
  | u :: r => if is_white_space u then trimStart r else s
  end.

Definition trimEnd (s : jsstring) : jsstring := rev (trimStart (rev s)).

Definition trim (s : jsstring) : jsstring := trimEnd (trimStart s).

(** The double quote and the line feed, which the literals below cannot
    hold. *)
Definition dquote : jsstring := [34%N].
Definition nl : jsstring := [10%N].

(** [s.startsWith(p)] *)
Fixpoint startsWith (p s : jsstring) : bool :=
  match p, s with
  | [], _ => true
  | a :: p', b :: s' => unit_eqb a b && startsWith p' s'
  | _ :: _, [] => false
  end.

(** ToBoolean of a string: the empty string is the only falsy one. *)
Definition string_truthy (s : jsstring) : bool :=
  match s with [] => false | _ :: _ => true end.

(** Decimal digits of a natural number, most significant first. *)
Fixpoint uint_units (d : Decimal.uint) : jsstring :=
  match d with
  | Decimal.Nil => []
  | Decimal.D0 d => 48%N :: uint_units d
  | Decimal.D1 d => 49%N :: uint_units d
  | Decimal.D2 d => 50%N :: uint_units d
  | Decimal.D3 d => 51%N :: uint_units d
  | Decimal.D4 d => 52%N :: uint_units d
  | Decimal.D5 d => 53%N :: uint_units d
  | Decimal.D6 d => 54%N :: uint_units d
  | Decimal.D7 d => 55%N :: uint_units d
  | Decimal.D8 d => 56%N :: uint_units d
  | Decimal.D9 d => 57%N :: uint_units d
  end.

Definition decimal (n : N) : jsstring := uint_units (N.to_uint n).

(** ** Arrays of strings *)

(** [Array.prototype.includes]: SameValueZero, which on strings is equality
    of the code unit sequences. *)
Definition includes (a : list jsstring) (x : jsstring) : bool :=
  existsb (str_eqb x) a.

(** [Array.prototype.indexOf]: strict equality, first match, [-1] if none. *)
Fixpoint indexOf_from (i : Z) (a : list jsstring) (x : jsstring) : Z :=
  match a with
  | [] => (-1)%Z
  | y :: a' => if str_eqb y x then i else indexOf_from (i + 1)%Z a' x
  end.

Definition indexOf (a : list jsstring) (x : jsstring) : Z := indexOf_from 0%Z a x.

(** [a.splice(start, 1)] for [0 <= start]: the array after the call. *)
Definition splice1 (a : list jsstring) (start : Z) : list jsstring :=
  firstn (Z.to_nat start) a ++ skipn (S (Z.to_nat start)) a.

(** [a.push(x)]: the array after the call. *)
Definition push {A} (a : list A) (x : A) : list A := a ++ [x].

(** [a.slice(0, n)]. *)
Definition slice0 {A} (a : list A) (n : nat) : list A := firstn n a.

(** ** Numbers

    A Number is an IEEE 754 binary64 value ([prec = 53], [emax = 1024]). *)

Definition number := spec_float.

Definition NaN : number := S754_nan.
Definition pos_infinity : number := S754_infinity false.
Definition neg_infinity : number := S754_infinity true.

(** The Number of an integer literal. *)
Definition num (z : Z) : number := binary_normalize 53 1024 z 0 false.

Definition Number_multiply (x y : number) : number := SFmul 53 1024 x y.
Definition Number_divide (x y : number) : number := SFdiv 53 1024 x y.

Definition isNaN (x : number) : bool :=
  match x with S754_nan => true | _ => false end.

Definition is_finite (x : number) : bool :=
  match x with S754_zero _ | S754_finite _ _ _ => true | _ => false end.

Definition is_neg_zero (x : number) : bool :=
  match x with S754_zero true => true | _ => false end.

Definition is_pos_zero (x : number) : bool :=
  match x with S754_zero false => true | _ => false end.

(** The mathematical value of a finite Number. *)
Definition R_ (x : number) : Q :=
  match x with
  | S754_finite s m e => inject_Z (cond_Zopp s (Zpos m)) * (2 # 1) ^ e
  | _ => 0
  end.

Definition Qltb (a b : Q) : bool := negb (Qle_bool b a).

(** The sign of a finite Number, as a factor. *)
Definition sign_of (s : bool) : Q := if s then -1 else 1.

(** Where the rational [N / D] lies from the integer [m], in the terms in
    which the rounding of a Number keeps it: it is [m], or it is below,
    at, or above the middle of [m] and [m + 1]. *)
Definition located (m : Z) (l : location) (N D : Z) : Prop :=
  match l with
  | loc_Exact => (N = m * D)%Z
  | loc_Inexact Lt => (m * D < N /\ 2 * N < (2 * m + 1) * D)%Z
  | loc_Inexact Eq => (2 * N = (2 * m + 1) * D)%Z
  | loc_Inexact Gt => ((2 * m + 1) * D < 2 * N /\ N < (m + 1) * D)%Z
  end.

(** [x < y] on Numbers ([Number::lessThan], with undefined read as false). *)
Definition lessThan (x y : number) : bool :=
  match x, y with
  | S754_nan, _ | _, S754_nan => false
  | S754_infinity sx, S754_infinity sy => sx && negb sy
  | S754_infinity sx, _ => sx
  | _, S754_infinity sy => negb sy
  | _, _ => Qltb (R_ x) (R_ y)
  end.

(** [x <= y] for Numbers that are not [NaN]: [y < x] is false. *)
Definition not_above (x y : number) : Prop := lessThan y x = false.

(** ToBoolean of a Number: [+0], [-0] and [NaN] are falsy. *)
Definition number_truthy (x : number) : bool :=
  match x with
  | S754_zero _ | S754_nan => false
  | _ => true
  end.

(** [Math.min(...args)]: start from [+Infinity]; a [NaN] argument gives
    [NaN]; [-0] is below [+0]. *)
Fixpoint Math_min_from (lowest : number) (args : list number) : number :=
  match args with
  | [] => lowest
  | x :: rest =>
    if isNaN x then NaN
    else
      let lowest := if is_neg_zero x && is_pos_zero lowest then x else lowest in
      let lowest := if lessThan x lowest then x else lowest in
      Math_min_from lowest rest
  end.

Definition Math_min (args : list number) : number := Math_min_from pos_infinity args.

(** [Math.max(...args)]: start from [-Infinity]; [+0] is above [-0]. *)
Fixpoint Math_max_from (highest : number) (args : list number) : number :=
  match args with
  | [] => highest
  | x :: rest =>
    if isNaN x then NaN
    else
      let highest := if is_pos_zero x && is_neg_zero highest then x else highest in
      let highest := if lessThan highest x then x else highest in
      Math_max_from highest rest
  end.

Definition Math_max (args : list number) : number := Math_max_from neg_infinity args.

(** [Number::toString] (shortest round-trip decimal) is a host service. *)
Class NumberToString := Number_toString : number -> jsstring.

(** [x.toFixed(1)].  For a finite [|x| < 10^21] the digits are those of the
    integer [n] for which [n / 10 - |x|] is as close to zero as possible,
    the larger [n] when there are two. *)
Definition tenths (a : Q) : Z := Qfloor (a * (10 # 1) + (1 # 2)).

Definition fixed1 (n : Z) : jsstring :=
  decimal (Z.to_N (n / 10)) ++ u16 "." ++ decimal (Z.to_N (n mod 10)).

Definition toFixed1 `{NumberToString} (x : number) : jsstring :=
  if negb (is_finite x) then Number_toString x
  else
    let s := if Qltb (R_ x) 0 then u16 "-" else [] in
    let a := Qabs (R_ x) in
    if Qle_bool ((10 # 1) ^ 21) a
    then s ++ Number_toString (SFabs x)
    else s ++ fixed1 (tenths a).

(** ** Exceptions and completions *)

Inductive exn : Type :=
| Error (message : jsstring)      (* [new Error(message)] *)
| TypeError
| SyntaxError
| SystemError.                    (* an [fs] failure: ENOENT, EISDIR, ... *)

Inductive completion (A : Type) : Type :=
| Normal (a : A)
| Throw (e : exn).

Arguments Normal {A} a.
Arguments Throw {A} e.

(** ** Ordinary objects used as string-keyed maps

    The own properties are kept in the order [Object.values] enumerates
    them: array-index keys in ascending numeric order, then the other
    string keys in creation order. *)

Definition is_digit (u : N) : bool := (48 <=? u)%N && (u <=? 57)%N.

Definition digits_value (s : jsstring) : N :=
  fold_left (fun acc u => (acc * 10 + (u - 48))%N) s 0%N.

(** The canonical numeric strings of the integers [0 .. 2^32 - 2]. *)
Definition array_index (k : jsstring) : option N :=
  match k with
  | [] => None
  | d :: r =>
    if forallb is_digit k
       && (negb (N.eqb d 48) || match r with [] => true | _ => false end)
       && (digits_value k <? 4294967295)%N
    then Some (digits_value k)
    else None
  end.

(** Names every ordinary object inherits from [Object.prototype]; each of
    them reads as a truthy value (a function, or the prototype itself). *)
Definition object_prototype_names : list jsstring :=
  map u16
    [ "constructor"; "__defineGetter__"; "__defineSetter__"; "hasOwnProperty";
      "__lookupGetter__"; "__lookupSetter__"; "isPrototypeOf";
      "propertyIsEnumerable"; "toString"; "valueOf"; "__proto__";
      "toLocaleString" ]%string.

Definition inherited (k : jsstring) : bool :=
  existsb (str_eqb k) object_prototype_names.

(** A key that is neither an array index nor the name of something
    inherited: with such keys an object is a map in insertion order. *)
Definition plain_key (k : jsstring) : bool :=
  match array_index k with
  | Some _ => false
  | None => negb (inherited k)
  end.

Section Objects.
Variable V : Type.

Definition object := list (jsstring * V).

Inductive property : Type :=
| Own (v : V)
| Inherited
| Absent.

Fixpoint own (o : object) (k : jsstring) : option V :=
  match o with
  | [] => None
  | (k', v) :: o' => if str_eqb k' k then Some v else own o' k
  end.

(** [o[k]] *)
Definition Get (o : object) (k : jsstring) : property :=
  match own o k with
  | Some v => Own v
  | None => if inherited k then Inherited else Absent
  end.

(** Creation of the own property [k], which [o] does not have yet. *)
Fixpoint insert_index (i : N) (k : jsstring) (v : V) (o : object) : object :=
  match o with
  | [] => [(k, v)]
  | (k', v') :: o' =>
    match array_index k' with
    | Some j => if (j <? i)%N then (k', v') :: insert_index i k v o'
                else (k, v) :: o
    | None => (k, v) :: o
    end
  end.

Definition create (o : object) (k : jsstring) (v : V) : object :=
  match array_index k with
  | Some i => insert_index i k v o
  | None => o ++ [(k, v)]
  end.

(** In-place mutation of the value held by the own property [k]. *)
Fixpoint mutate (o : object) (k : jsstring) (f : V -> V) : object :=
  match o with
  | [] => []
  | (k', v) :: o' =>
    if str_eqb k' k then (k', f v) :: o' else (k', v) :: mutate o' k f
  end.

(** [Object.keys(o)] and [Object.values(o)] *)
Definition keys (o : object) : list jsstring := map fst o.
Definition values (o : object) : list V := map snd o.

End Objects.

Arguments Own {V} v.
Arguments Inherited {V}.
Arguments Absent {V}.

End JS.

Import JS.

(* ===================================================================== *)
(** * The Node.js services the program calls *)
(* ===================================================================== *)

Module Node.

(** ** JSON *)

#[local] Unset Elimination Schemes.
Inductive json : Type :=
| JNull
| JBool (b : bool)
| JNumber (n : number)
| JString (s : jsstring)
| JArray (items : list json)
| JObject (fields : list (jsstring * json)).
#[local] Set Elimination Schemes.

(** What an expression may evaluate to where the program reads parsed data. *)
Inductive value : Type :=
| Undefined
| J (j : json).

(** [JSON.parse(text)] ([None]: a SyntaxError is thrown) and
    [JSON.stringify(v, null, 2)]. *)
Class JSON := {
  JSON_parse : jsstring -> option json;
  JSON_stringify2 : json -> jsstring
}.

(** The array of strings as a JSON value. *)
Definition strings (l : list jsstring) : json := JArray (map JString l).

(** ** Dates

    [new Date(t).toLocaleDateString('ja-JP')] and
    [new Date(t).toLocaleTimeString('ja-JP')] for a time value [t] in
    milliseconds, in the time zone of the process. *)
Class DateFormat := {
  toLocaleDateString_jaJP : number -> jsstring;
  toLocaleTimeString_jaJP : number -> jsstring
}.

(** ** Files

    A path names a file, a directory, or nothing.  Of the ways in which
    [fs.writeFileSync] can fail, the one that is here is a path that is a
    directory; a property that depends on a write says so, as a write that
    goes through or as a write that throws. *)

Inductive node : Type :=
| File (content : jsstring)
| Directory.

Definition filesystem := jsstring -> option node.

Definition fs_existsSync (fs : filesystem) (path : jsstring) : bool :=
  match fs path with Some _ => true | None => false end.

Definition fs_readFileSync (fs : filesystem) (path : jsstring) : completion jsstring :=
  match fs path with
  | Some (File content) => Normal content
  | _ => Throw SystemError
  end.

Definition fs_writeFileSync (fs : filesystem) (path data : jsstring)
  : completion filesystem :=
  match fs path with
  | Some Directory => Throw SystemError
  | _ => Normal (fun p => if str_eqb p path then Some (File data) else fs p)
  end.

(** ** axios

    [axios.get] fulfils with the response when its status is in [200, 300)
    (the default [validateStatus]) and rejects otherwise; the rejection
    carries the response when there was one. *)

Record Request : Type := {
  url : jsstring;
  q : jsstring;
  appid : value;
  units : jsstring;
  lang : jsstring
}.

Record Response (D : Type) : Type := {
  status : Z;
  data : D
}.

Inductive Upstream (D : Type) : Type :=
| NoResponse                      (* network error, timeout *)
| HttpResponse (r : Response D).

Inductive AxiosOutcome (D : Type) : Type :=
| Fulfilled (r : Response D)
| Rejected (error_response : option (Response D)).

Arguments NoResponse {D}.
Arguments HttpResponse {D} r.
Arguments Fulfilled {D} r.
Arguments Rejected {D} error_response.

Definition axios_get {D} (up : Upstream D) : AxiosOutcome D :=
  match up with
  | NoResponse => Rejected None
  | HttpResponse r =>
    if (200 <=? status r)%Z && (status r <? 300)%Z then Fulfilled r
    else Rejected (Some r)
  end.

(** [error.response?.status === code] *)
Definition response_status_is {D} (error_response : option (Response D)) (code : Z)
  : bool :=
  match error_response with
  | Some r => (status r =? code)%Z
  | None => false
  end.

End Node.

Import Node.

(* ===================================================================== *)
(** * class WeatherApp *)
(* ===================================================================== *)

Module WeatherApp.

(** ** The session: the fields of [this] and the world around it *)

Record Session : Type := {
  apiKey : value;
  favoriteCities : list jsstring;
  fs : filesystem;
  console : list jsstring          (* the arguments of [console.log], oldest first *)
}.

Definition baseUrl : jsstring := u16 "https://api.openweathermap.org/data/2.5".
Definition configFile : jsstring := u16 "weather_config.json".

(** A method body: it runs from a session, ends in a completion and leaves a
    session; what was done before a throw stays done. *)
Definition M (A : Type) : Type := Session -> completion A * Session.

Definition ret {A} (a : A) : M A := fun st => (Normal a, st).

Definition throw {A} (e : exn) : M A := fun st => (Throw e, st).

Definition bind {A B} (c : M A) (k : A -> M B) : M B :=
  fun st =>
    match c st with
    | (Normal a, st') => k a st'
    | (Throw e, st') => (Throw e, st')
    end.

Definition try_catch {A} (body : M A) (handler : exn -> M A) : M A :=
  fun st =>
    match body st with
    | (Normal a, st') => (Normal a, st')
    | (Throw e, st') => handler e st'
    end.

Declare Scope js_scope.
Delimit Scope js_scope with js.
Notation "x <- c ;; k" := (bind c (fun x => k))
  (at level 61, c at next level, right associativity) : js_scope.
Notation "c ;; k" := (bind c (fun _ => k))
  (at level 61, right associativity) : js_scope.
Local Open Scope js_scope.

Definition lift {A} (c : completion A) : M A := fun st => (c, st).

(** The session after [console.log(line)], after an assignment to
    [this.favoriteCities], and with another file system. *)
Definition logged (st : Session) (line : jsstring) : Session :=
  {| apiKey := apiKey st; favoriteCities := favoriteCities st; fs := fs st;
     console := console st ++ [line] |}.

Definition with_favoriteCities (st : Session) (l : list jsstring) : Session :=
  {| apiKey := apiKey st; favoriteCities := l; fs := fs st;
     console := console st |}.

Definition with_fs (st : Session) (fs' : filesystem) : Session :=
  {| apiKey := apiKey st; favoriteCities := favoriteCities st; fs := fs';
     console := console st |}.

Definition logged_all (st : Session) (lines : list jsstring) : Session :=
  fold_left logged lines st.

Definition console_log (line : jsstring) : M unit :=
  fun st => (Normal tt, logged st line).

Definition existsSync (path : jsstring) : M bool :=
  fun st => (Normal (fs_existsSync (fs st) path), st).

Definition readFileSync (path : jsstring) : M jsstring :=
  fun st => (fs_readFileSync (fs st) path, st).

Definition writeFileSync (path data : jsstring) : M unit :=
  fun st =>
    match fs_writeFileSync (fs st) path data with
    | Normal fs' => (Normal tt, with_fs st fs')
    | Throw e => (Throw e, st)
    end.

Definition get_favoriteCities : M (list jsstring) :=
  fun st => (Normal (favoriteCities st), st).

Definition set_favoriteCities (l : list jsstring) : M unit :=
  fun st => (Normal tt, with_favoriteCities st l).

Definition get_apiKey : M value := fun st => (Normal (apiKey st), st).

Definition parse `{JSON} (text : jsstring) : M json :=
  match JSON_parse text with
  | Some v => ret v
  | None => throw SyntaxError
  end.

(** [config.apiKey]: reading a property of [null] throws; an object gives
    its own property; any other JSON value has no such property. *)
Fixpoint field (fields : list (jsstring * json)) (k : jsstring) : value :=
  match fields with
  | [] => Undefined
  | (k', v) :: rest => if str_eqb k' k then J v else field rest k
  end.

Definition config_apiKey (config : json) : M value :=
  match config with
  | JNull => throw TypeError
  | JObject fields => ret (field fields (u16 "apiKey"))
  | _ => ret Undefined
  end.

Definition rule : jsstring := u16 "━━━━━━━━━━━━━━━━━━━━━━━━━━━━━━━━".

(** ** Credential store *)

Definition configPath : jsstring := u16 "weather_config.json".
Definition notice_no_config : jsstring := u16 "設定ファイルが見つかりません。".

Definition loadApiKey `{JSON} : M value :=
  r <- try_catch
         (present <- existsSync configPath ;;
          if present then
            text <- readFileSync configPath ;;
            config <- parse text ;;
            key <- config_apiKey config ;;
            ret (Some key)
          else ret None)
         (fun _ => console_log notice_no_config ;; ret None) ;;
  match r with
  | Some key => ret key
  | None => ret (J JNull)
  end.

(** ** Favorites store *)

(** Both methods name the file by the same literal. *)
Definition favoritesFile : jsstring := u16 "favorite_cities.json".
Definition notice_favorites_unreadable : jsstring :=
  u16 "お気に入り都市ファイルの読み込みに失敗しました。".

Definition loadFavoriteCities `{JSON} : M json :=
  r <- try_catch
         (present <- existsSync favoritesFile ;;
          if present then
            text <- readFileSync favoritesFile ;;
            v <- parse text ;;
            ret (Some v)
          else ret None)
         (fun _ => console_log notice_favorites_unreadable ;; ret None) ;;
  match r with
  | Some v => ret v
  | None => ret (JArray [])
  end.

Definition saveFavoriteCities `{JSON} : M unit :=
  l <- get_favoriteCities ;;
  writeFileSync favoritesFile (JSON_stringify2 (strings l)).

(** The four notices of the favorites store. *)
Definition notice_added (city : jsstring) : jsstring :=
  u16 "✅ " ++ dquote ++ city ++ dquote ++ u16 " をお気に入りに追加しました。".
Definition notice_already_present (city : jsstring) : jsstring :=
  dquote ++ city ++ dquote ++ u16 " は既にお気に入りに登録されています。".
Definition notice_removed (city : jsstring) : jsstring :=
  u16 "✅ " ++ dquote ++ city ++ dquote ++ u16 " をお気に入りから削除しました。".
Definition notice_not_found (city : jsstring) : jsstring :=
  dquote ++ city ++ dquote ++ u16 " はお気に入りに登録されていません。".

Definition addFavoriteCity `{JSON} (city : jsstring) : M unit :=
  l <- get_favoriteCities ;;
  if negb (includes l city) then
    set_favoriteCities (push l city) ;;
    saveFavoriteCities ;;
    console_log (notice_added city)
  else
    console_log (notice_already_present city).

Definition removeFavoriteCity `{JSON} (city : jsstring) : M unit :=
  l <- get_favoriteCities ;;
  let index := indexOf l city in
  if (-1 <? index)%Z then
    set_favoriteCities (splice1 l index) ;;
    saveFavoriteCities ;;
    console_log (notice_removed city)
  else
    console_log (notice_not_found city).

Fixpoint log_numbered (i : N) (l : list jsstring) : M unit :=
  match l with
  | [] => ret tt
  | city :: rest =>
    console_log (decimal (i + 1) ++ u16 ". " ++ city) ;;
    log_numbered (i + 1) rest
  end.

Definition displayFavoriteCities : M unit :=
  l <- get_favoriteCities ;;
  match l with
  | [] => console_log (u16 "お気に入りの都市はありません。")
  | _ :: _ =>
    console_log (nl ++ u16 "⭐ お気に入りの都市:") ;;
    log_numbered 0 l ;;
    console_log []
  end.

(** The two menu handlers; [answer] is what [readline.question] returned. *)
Definition handleAddFavorite `{JSON} (answer : jsstring) : M unit :=
  let city := answer in
  if string_truthy (trim city) then addFavoriteCity (trim city)
  else ret tt.

Definition handleRemoveFavorite `{JSON} (answer : jsstring) : M unit :=
  displayFavoriteCities ;;
  l <- get_favoriteCities ;;
  match l with
  | [] => ret tt
  | _ :: _ =>
    let city := answer in
    if string_truthy (trim city) then removeFavoriteCity (trim city)
    else ret tt
  end.

(** ** Weather client

    [net] is the upstream service: what comes back for a request. *)

Definition msg_city_not_found : jsstring :=
  u16 "都市が見つかりません。都市名を確認してください。".
Definition msg_invalid_credential : jsstring :=
  u16 "APIキーが無効です。設定を確認してください。".
Definition msg_weather_failed : jsstring := u16 "天気情報の取得に失敗しました。".
Definition msg_forecast_failed : jsstring := u16 "天気予報の取得に失敗しました。".

(** The failures the client raises, under the names of the specification. *)
Definition CityNotFound : exn := Error msg_city_not_found.
Definition InvalidCredential : exn := Error msg_invalid_credential.
Definition FetchFailed_weather : exn := Error msg_weather_failed.
Definition FetchFailed_forecast : exn := Error msg_forecast_failed.

Definition request (endpoint city : jsstring) : M Request :=
  key <- get_apiKey ;;
  ret {| url := baseUrl ++ endpoint; q := city; appid := key;
         units := u16 "metric"; lang := u16 "ja" |}.

(** The two requests the client sends, and a response that [axios]
    takes for a success. *)
Definition weather_request (st : Session) (city : jsstring) : Request :=
  {| url := baseUrl ++ u16 "/weather"; q := city; appid := apiKey st;
     units := u16 "metric"; lang := u16 "ja" |}.

Definition forecast_request (st : Session) (city : jsstring) : Request :=
  {| url := baseUrl ++ u16 "/forecast"; q := city; appid := apiKey st;
     units := u16 "metric"; lang := u16 "ja" |}.

Definition success {D} (r : Response D) : Prop := (200 <= status r < 300)%Z.

Definition getCurrentWeather {D} (net : Request -> Upstream D) (city : jsstring)
  : M D :=
  req <- request (u16 "/weather") city ;;
  match axios_get (net req) with
  | Fulfilled response => ret (data response)
  | Rejected error_response =>
    if response_status_is error_response 404 then
      throw (Error msg_city_not_found)
    else if response_status_is error_response 401 then
      throw (Error msg_invalid_credential)
    else
      throw (Error msg_weather_failed)
  end.

Definition getForecast {D} (net : Request -> Upstream D) (city : jsstring) : M D :=
  req <- request (u16 "/forecast") city ;;
  match axios_get (net req) with
  | Fulfilled response => ret (data response)
  | Rejected _ => throw (Error msg_forecast_failed)
  end.

(** ** Presenter *)

(** The fields of a current-weather body that the program reads. *)
Record CurrentWeather : Type := {
  cw_name : jsstring;
  cw_sys_country : jsstring;
  cw_sys_sunrise : number;
  cw_sys_sunset : number;
  cw_main_temp : number;
  cw_main_feels_like : number;
  cw_main_humidity : number;
  cw_main_pressure : number;
  cw_weather0_description : jsstring;
  cw_wind_speed : number;
  cw_visibility : option number     (* [None]: the field is not there *)
}.

Definition visibility_label : jsstring := u16 "👁️  視界: ".

Definition is_visibility_line (line : jsstring) : bool :=
  startsWith visibility_label line.

Definition displayCurrentWeather `{NumberToString} `{DateFormat}
  (data : CurrentWeather) : M unit :=
  console_log (nl ++ u16 "🌍 現在の天気情報") ;;
  console_log rule ;;
  console_log (u16 "📍 都市: " ++ cw_name data ++ u16 ", " ++ cw_sys_country data) ;;
  console_log (u16 "🌡️  気温: " ++ Number_toString (cw_main_temp data)
               ++ u16 "°C (体感温度: " ++ Number_toString (cw_main_feels_like data)
               ++ u16 "°C)") ;;
  console_log (u16 "☁️  天気: " ++ cw_weather0_description data) ;;
  console_log (u16 "💧 湿度: " ++ Number_toString (cw_main_humidity data) ++ u16 "%") ;;
  console_log (u16 "🌪️  風速: " ++ Number_toString (cw_wind_speed data) ++ u16 " m/s") ;;
  console_log (u16 "📊 気圧: " ++ Number_toString (cw_main_pressure data) ++ u16 " hPa") ;;
  (match cw_visibility data with
   | Some visibility =>
     if number_truthy visibility then
       console_log (visibility_label
                    ++ toFixed1 (Number_divide visibility (num 1000)) ++ u16 " km")
     else ret tt
   | None => ret tt
   end) ;;
  let sunrise := Number_multiply (cw_sys_sunrise data) (num 1000) in
  let sunset := Number_multiply (cw_sys_sunset data) (num 1000) in
  console_log (u16 "🌅 日の出: " ++ toLocaleTimeString_jaJP sunrise) ;;
  console_log (u16 "🌇 日の入: " ++ toLocaleTimeString_jaJP sunset) ;;
  console_log (rule ++ nl).

(** One element of [data.list] of a forecast body. *)
Record ForecastItem : Type := {
  fi_dt : number;
  fi_main_temp : number;
  fi_main_humidity : number;
  fi_weather0_description : jsstring;
  fi_wind_speed : number
}.

(** The part of a forecast body that the program reads: [data.list]. *)
Record Forecast : Type := {
  data_list : list ForecastItem
}.

Record DailyForecast : Type := {
  date : jsstring;
  temps : list number;
  weather : jsstring;
  humidity : number;
  windSpeed : number
}.

Definition push_temp (t : number) (d : DailyForecast) : DailyForecast :=
  {| date := date d; temps := push (temps d) t; weather := weather d;
     humidity := humidity d; windSpeed := windSpeed d |}.

Definition dateKey_of `{DateFormat} (item : ForecastItem) : jsstring :=
  toLocaleDateString_jaJP (Number_multiply (fi_dt item) (num 1000)).

(** The body of [data.list.forEach(item => ...)].  When [dateKey] names
    something inherited from [Object.prototype] the test sees a truthy
    value, no bucket is made, and [.temps.push] fails on [undefined]. *)
Definition group_item `{DateFormat} (dailyForecasts : object DailyForecast)
  (item : ForecastItem) : completion (object DailyForecast) :=
  let dateKey := dateKey_of item in
  match Get dailyForecasts dateKey with
  | Absent =>
    let created :=
      create dailyForecasts dateKey
        {| date := dateKey; temps := [];
           weather := fi_weather0_description item;
           humidity := fi_main_humidity item;
           windSpeed := fi_wind_speed item |} in
    Normal (mutate created dateKey (push_temp (fi_main_temp item)))
  | Own _ => Normal (mutate dailyForecasts dateKey (push_temp (fi_main_temp item)))
  | Inherited => Throw TypeError
  end.

Fixpoint forEach {S A} (f : S -> A -> completion S) (s : S) (l : list A)
  : completion S :=
  match l with
  | [] => Normal s
  | x :: rest =>
    match f s x with
    | Normal s' => forEach f s' rest
    | Throw e => Throw e
    end
  end.

(** [dailyForecasts] after the first loop. *)
Definition group_by_day `{DateFormat} (data_list : list ForecastItem)
  : completion (object DailyForecast) :=
  forEach group_item [] data_list.

(** What is presented: [Object.values(dailyForecasts).slice(0, 5)]. *)
Definition presented (dailyForecasts : object DailyForecast) : list DailyForecast :=
  slice0 (values dailyForecasts) 5.

(** The grouping in the words of the specification: the date keys in the
    order in which they are first seen, and for a key the samples of that
    day, in the order of the input. *)
Fixpoint first_seen (ks : list jsstring) : list jsstring :=
  match ks with
  | [] => []
  | k :: rest => k :: filter (fun k' => negb (str_eqb k' k)) (first_seen rest)
  end.

Definition samples `{DateFormat} (data_list : list ForecastItem) (k : jsstring)
  : list ForecastItem :=
  filter (fun item => str_eqb (dateKey_of item) k) data_list.

(** The bucket of day [k] whose first sample is [first] and whose further
    samples are [later]. *)
Definition bucket (k : jsstring) (first : ForecastItem) (later : list ForecastItem)
  : DailyForecast :=
  {| date := k;
     temps := fi_main_temp first :: map fi_main_temp later;
     weather := fi_weather0_description first;
     humidity := fi_main_humidity first;
     windSpeed := fi_wind_speed first |}.

Definition temperature_line `{NumberToString} (forecast : DailyForecast) : jsstring :=
  let minTemp := Math_min (temps forecast) in
  let maxTemp := Math_max (temps forecast) in
  u16 "   🌡️  " ++ toFixed1 minTemp ++ u16 "°C - " ++ toFixed1 maxTemp ++ u16 "°C".

Definition log_forecast `{NumberToString} (forecast : DailyForecast) : M unit :=
  console_log (u16 "📆 " ++ date forecast) ;;
  console_log (temperature_line forecast) ;;
  console_log (u16 "   ☁️  " ++ weather forecast) ;;
  console_log (u16 "   💧 湿度: " ++ Number_toString (humidity forecast) ++ u16 "%") ;;
  console_log (u16 "   🌪️  風速: " ++ Number_toString (windSpeed forecast) ++ u16 " m/s") ;;
  console_log [].

(** The six lines of one block. *)
Definition forecast_block `{NumberToString} (forecast : DailyForecast)
  : list jsstring :=
  [ u16 "📆 " ++ date forecast;
    temperature_line forecast;
    u16 "   ☁️  " ++ weather forecast;
    u16 "   💧 湿度: " ++ Number_toString (humidity forecast) ++ u16 "%";
    u16 "   🌪️  風速: " ++ Number_toString (windSpeed forecast) ++ u16 " m/s";
    [] ].

Fixpoint log_forecasts `{NumberToString} (l : list DailyForecast) : M unit :=
  match l with
  | [] => ret tt
  | forecast :: rest => log_forecast forecast ;; log_forecasts rest
  end.

Definition displayForecast `{NumberToString} `{DateFormat}
  (data : Forecast) : M unit :=
  console_log (nl ++ u16 "📅 5日間天気予報") ;;
  console_log rule ;;
  dailyForecasts <- lift (group_by_day (data_list data)) ;;
  log_forecasts (presented dailyForecasts) ;;
  console_log (rule ++ nl).

(** ** Menu handlers for the two fetches

    [answer] is what [readline.question] returned. *)

Definition getCityInput (answer : jsstring) : M jsstring :=
  displayFavoriteCities ;;
  let city := answer in
  ret (trim city).

Definition handleCurrentWeather `{NumberToString} `{DateFormat}
  (net : Request -> Upstream CurrentWeather) (answer : jsstring) : M unit :=
  city <- getCityInput answer ;;
  if negb (string_truthy city) then ret tt
  else
    console_log (u16 "🔄 天気情報を取得中...") ;;
    weather <- getCurrentWeather net city ;;
    displayCurrentWeather weather.

Definition handleForecast `{NumberToString} `{DateFormat}
  (net : Request -> Upstream Forecast) (answer : jsstring) : M unit :=
  city <- getCityInput answer ;;
  if negb (string_truthy city) then ret tt
  else
    console_log (u16 "🔄 天気予報を取得中...") ;;
    forecast <- getForecast net city ;;
    displayForecast forecast.

End WeatherApp.

(* ===================================================================== *)
(** * A reference host

    One implementation of the three host interfaces, used to run the
    methods on concrete inputs: exact decimal printing of Numbers, the
    proleptic Gregorian calendar in UTC, and a JSON reader and writer. *)
(* ===================================================================== *)

Module Reference.

(** ** Number::toString

    Integers are printed as ECMAScript prints them below [10^21]; other
    finite values are printed with all their decimals (a binary64 value has
    finitely many), which reads back as the same Number. *)

Fixpoint strip_zeros (rev_digits : jsstring) : jsstring :=
  match rev_digits with
  | 48%N :: r => strip_zeros r
  | _ => rev_digits
  end.

Definition pad_left (width : nat) (s : jsstring) : jsstring :=
  repeat 48%N (width - List.length s) ++ s.

Definition magnitude (m : positive) (e : Z) : jsstring :=
  match e with
  | Zneg k =>
    let d := (2 ^ Npos k)%N in
    let int_part := (Npos m / d)%N in
    let frac := ((Npos m mod d) * 5 ^ Npos k)%N in
    let digits := rev (strip_zeros (rev (pad_left (Pos.to_nat k) (decimal frac)))) in
    match digits with
    | [] => decimal int_part
    | _ => decimal int_part ++ u16 "." ++ digits
    end
  | _ => decimal (Npos m * 2 ^ Z.to_N e)
  end.

Definition number_toString (x : number) : jsstring :=
  match x with
  | S754_nan => u16 "NaN"
  | S754_infinity false => u16 "Infinity"
  | S754_infinity true => u16 "-Infinity"
  | S754_zero _ => u16 "0"
  | S754_finite s m e => (if s then u16 "-" else []) ++ magnitude m e
  end.

#[export] Instance reference_NumberToString : NumberToString := number_toString.

(** ** Dates *)

Definition ms_per_day : Z := 86400000.

(** The time value of [new Date(t)]: [None] is the invalid date. *)
Definition time_value (t : number) : option Z :=
  if is_finite t then
    let ms := Z.quot (Qnum (R_ t)) (Zpos (Qden (R_ t))) in
    if (Z.abs ms <=? 100000000 * ms_per_day)%Z then Some ms else None
  else None.

(** Year, month and day of a day number counted from 1970-01-01. *)
Definition civil_from_days (days : Z) : Z * Z * Z :=
  let z := (days + 719468)%Z in
  let era := (z / 146097)%Z in
  let doe := (z - era * 146097)%Z in
  let yoe := ((doe - doe / 1460 + doe / 36524 - doe / 146096) / 365)%Z in
  let doy := (doe - (365 * yoe + yoe / 4 - yoe / 100))%Z in
  let mp := ((5 * doy + 2) / 153)%Z in
  let d := (doy - (153 * mp + 2) / 5 + 1)%Z in
  let m := (if mp <? 10 then mp + 3 else mp - 9)%Z in
  let y := (yoe + era * 400 + (if m <=? 2 then 1 else 0))%Z in
  (y, m, d).

Definition signed_decimal (z : Z) : jsstring :=
  (if (z <? 0)%Z then u16 "-" else []) ++ decimal (Z.abs_N z).

Definition two_digits (z : Z) : jsstring := pad_left 2 (decimal (Z.to_N z)).

Definition invalid_date : jsstring := u16 "Invalid Date".

Definition date_string (t : number) : jsstring :=
  match time_value t with
  | None => invalid_date
  | Some ms =>
    let '(y, m, d) := civil_from_days (ms / ms_per_day) in
    signed_decimal y ++ u16 "/" ++ (decimal (Z.to_N m) ++ u16 "/" ++ decimal (Z.to_N d))
  end.

Definition time_string (t : number) : jsstring :=
  match time_value t with
  | None => invalid_date
  | Some ms =>
    let s := ((ms mod ms_per_day) / 1000)%Z in
    decimal (Z.to_N (s / 3600)) ++ u16 ":" ++ two_digits ((s / 60) mod 60)
      ++ u16 ":" ++ two_digits (s mod 60)
  end.

#[export] Instance reference_DateFormat : DateFormat := {|
  toLocaleDateString_jaJP := date_string;
  toLocaleTimeString_jaJP := time_string
|}.

(** ** JSON *)

Definition is_high_surrogate (u : N) : bool := (55296 <=? u)%N && (u <=? 56319)%N.
Definition is_low_surrogate (u : N) : bool := (56320 <=? u)%N && (u <=? 57343)%N.

Definition hex_digit (d : N) : N := if (d <? 10)%N then (48 + d)%N else (87 + d)%N.

Definition unicode_escape (u : N) : jsstring :=
  [ 92; 117; hex_digit (u / 4096); hex_digit ((u / 256) mod 16);
    hex_digit ((u / 16) mod 16); hex_digit (u mod 16) ]%N.

Definition escape_unit (u : N) : jsstring :=
  if (u =? 8)%N then [92; 98]%N
  else if (u =? 9)%N then [92; 116]%N
  else if (u =? 10)%N then [92; 110]%N
  else if (u =? 12)%N then [92; 102]%N
  else if (u =? 13)%N then [92; 114]%N
  else if (u =? 34)%N then [92; 34]%N
  else if (u =? 92)%N then [92; 92]%N
  else if (u <? 32)%N then unicode_escape u
  else [u].

(** The characters between the quotes: surrogate pairs stay as they are,
    a lone surrogate is escaped. *)
Fixpoint quote_units (s : jsstring) : jsstring :=
  match s with
  | [] => []
  | u :: r =>
    if is_high_surrogate u then
      match r with
      | v :: r' =>
        if is_low_surrogate v then u :: v :: quote_units r'
        else unicode_escape u ++ quote_units r
      | [] => unicode_escape u
      end
    else if is_low_surrogate u then unicode_escape u ++ quote_units r
    else escape_unit u ++ quote_units r
  end.

Definition quote (s : jsstring) : jsstring := 34%N :: quote_units s ++ [34%N].

Definition gap : jsstring := [32; 32]%N.

(** [join sep [a; b; c]] is [a ++ sep ++ b ++ sep ++ c]. *)
Definition join (separator : jsstring) (parts : list jsstring) : jsstring :=
  match parts with
  | [] => []
  | first :: rest => first ++ flat_map (fun part => separator ++ part) rest
  end.

Fixpoint stringify (indent : jsstring) (v : json) : jsstring :=
  let inner := indent ++ gap in
  let separator := u16 "," ++ nl ++ inner in
  match v with
  | JNull => u16 "null"
  | JBool true => u16 "true"
  | JBool false => u16 "false"
  | JNumber n => if is_finite n then number_toString n else u16 "null"
  | JString s => quote s
  | JArray [] => u16 "[]"
  | JArray items =>
    u16 "[" ++ nl ++ inner ++ join separator (map (stringify inner) items)
      ++ nl ++ indent ++ u16 "]"
  | JObject [] => u16 "{}"
  | JObject fields =>
    u16 "{" ++ nl ++ inner
      ++ join separator
           (map (fun member =>
                   quote (fst member) ++ u16 ": " ++ stringify inner (snd member))
              fields)
      ++ nl ++ indent ++ u16 "}"
  end.

(** What follows the first element of an array of strings: for each
    further element a comma, the line feed, the indentation and the
    element. *)
Definition element_tail (l : list jsstring) : jsstring :=
  flat_map (fun part => (44 :: 10 :: 32 :: 32 :: part)%N) (map quote l).

Definition is_json_space (u : N) : bool :=
  (u =? 32)%N || (u =? 9)%N || (u =? 10)%N || (u =? 13)%N.

Fixpoint skip_space (t : jsstring) : jsstring :=
  match t with
  | [] => []
  | u :: r => if is_json_space u then skip_space r else t
  end.

Definition hex_value (h : N) : option N :=
  if is_digit h then Some (h - 48)%N
  else if (97 <=? h)%N && (h <=? 102)%N then Some (h - 87)%N
  else if (65 <=? h)%N && (h <=? 70)%N then Some (h - 55)%N
  else None.

Definition hex4_value (a b c d : N) : option N :=
  match hex_value a, hex_value b, hex_value c, hex_value d with
  | Some a, Some b, Some c, Some d => Some (a * 4096 + b * 256 + c * 16 + d)%N
  | _, _, _, _ => None
  end.

Definition simple_escape (e : N) : option N :=
  if (e =? 34)%N then Some 34%N
  else if (e =? 92)%N then Some 92%N
  else if (e =? 47)%N then Some 47%N
  else if (e =? 98)%N then Some 8%N
  else if (e =? 102)%N then Some 12%N
  else if (e =? 110)%N then Some 10%N
  else if (e =? 114)%N then Some 13%N
  else if (e =? 116)%N then Some 9%N
  else None.

(** The characters of a string literal after its opening quote, up to and
    including the closing one; [acc] holds what was read, last first. *)
Fixpoint read_chars (t acc : jsstring) : option (jsstring * jsstring) :=
  match t with
  | [] => None
  | u :: r =>
    if (u =? 34)%N then Some (rev acc, r)
    else if (u =? 92)%N then
      match r with
      | [] => None
      | e :: r1 =>
        if (e =? 117)%N then
          match r1 with
          | a :: b :: c :: d :: r2 =>
            match hex4_value a b c d with
            | Some x => read_chars r2 (x :: acc)
            | None => None
            end
          | _ => None
          end
        else
          match simple_escape e with
          | Some x => read_chars r1 (x :: acc)
          | None => None
          end
      end
    else if (u <? 32)%N then None
    else read_chars r (u :: acc)
  end.

Fixpoint read_digits (t : jsstring) : jsstring * jsstring :=
  match t with
  | [] => ([], [])
  | u :: r =>
    if is_digit u then let '(ds, rest) := read_digits r in (u :: ds, rest)
    else ([], t)
  end.

(** The Number nearest to [(-1)^s * m * 10^e10]. *)
Definition decimal_to_number (s : bool) (m : N) (e10 : Z) : number :=
  match m with
  | N0 => S754_zero s
  | Npos p =>
    match e10 with
    | Z0 => binary_round 53 1024 s p 0
    | Zpos k => binary_round 53 1024 s (p * 10 ^ k) 0
    | Zneg k => SFdiv 53 1024 (S754_finite s p 0) (S754_finite false (10 ^ k) 0)
    end
  end.

(** A JSON number: [-? int frac? exp?]. *)
Definition read_number (t : jsstring) : option (number * jsstring) :=
  let '(negative, t1) :=
    match t with
    | 45%N :: r => (true, r)
    | _ => (false, t)
    end in
  let '(int_digits, t2) := read_digits t1 in
  match int_digits with
  | [] => None
  | d :: more =>
    if (d =? 48)%N && negb (match more with [] => true | _ => false end) then None
    else
      let frac :=
        match t2 with
        | 46%N :: r =>
          let '(ds, rest) := read_digits r in
          match ds with [] => None | _ => Some (ds, rest) end
        | _ => Some ([], t2)
        end in
      match frac with
      | None => None
      | Some (frac_digits, t3) =>
        let exponent :=
          match t3 with
          | e :: r =>
            if (e =? 101)%N || (e =? 69)%N then
              let '(minus, r1) :=
                match r with
                | 45%N :: r' => (true, r')
                | 43%N :: r' => (false, r')
                | _ => (false, r)
                end in
              let '(ds, rest) := read_digits r1 in
              match ds with
              | [] => None
              | _ =>
                let v := Z.of_N (digits_value ds) in
                Some ((if minus then - v else v)%Z, rest)
              end
            else Some (0%Z, t3)
          | [] => Some (0%Z, t3)
          end in
        match exponent with
        | None => None
        | Some (e10, t4) =>
          Some (decimal_to_number negative (digits_value (int_digits ++ frac_digits))
                  (e10 - Z.of_nat (List.length frac_digits)), t4)
        end
      end
  end.

Fixpoint strip_prefix (p t : jsstring) : option jsstring :=
  match p, t with
  | [], _ => Some t
  | a :: p', b :: t' => if (a =? b)%N then strip_prefix p' t' else None
  | _ :: _, [] => None
  end.

(** A later member replaces an earlier one of the same name. *)
Fixpoint set_field (fields : list (jsstring * json)) (k : jsstring) (v : json)
  : list (jsstring * json) :=
  match fields with
  | [] => [(k, v)]
  | (k', v') :: rest =>
    if str_eqb k' k then (k', v) :: rest else (k', v') :: set_field rest k v
  end.

(** The reader.  [fuel] bounds the number of values and members read; the
    length of the text is always enough. *)
Fixpoint read_value (fuel : nat) (t : jsstring) : option (json * jsstring) :=
  match fuel with
  | O => None
  | S fuel' =>
    match skip_space t with
    | [] => None
    | u :: r =>
      if (u =? 34)%N then
        match read_chars r [] with
        | Some (s, rest) => Some (JString s, rest)
        | None => None
        end
      else if (u =? 91)%N then
        match skip_space r with
        | 93%N :: rest => Some (JArray [], rest)
        | _ => read_elements fuel' r []
        end
      else if (u =? 123)%N then
        match skip_space r with
        | 125%N :: rest => Some (JObject [], rest)
        | _ => read_members fuel' r []
        end
      else
        match strip_prefix (u16 "null") (u :: r) with
        | Some rest => Some (JNull, rest)
        | None =>
          match strip_prefix (u16 "true") (u :: r) with
          | Some rest => Some (JBool true, rest)
          | None =>
            match strip_prefix (u16 "false") (u :: r) with
            | Some rest => Some (JBool false, rest)
            | None =>
              match read_number (u :: r) with
              | Some (n, rest) => Some (JNumber n, rest)
              | None => None
              end
            end
          end
        end
    end
  end

with read_elements (fuel : nat) (t : jsstring) (acc : list json)
  : option (json * jsstring) :=
  match fuel with
  | O => None
  | S fuel' =>
    match read_value fuel' t with
    | None => None
    | Some (v, rest) =>
      match skip_space rest with
      | u :: rest' =>
        if (u =? 44)%N then read_elements fuel' rest' (v :: acc)
        else if (u =? 93)%N then Some (JArray (rev (v :: acc)), rest')
        else None
      | [] => None
      end
    end
  end

with read_members (fuel : nat) (t : jsstring) (acc : list (jsstring * json))
  : option (json * jsstring) :=
  match fuel with
  | O => None
  | S fuel' =>
    match skip_space t with
    | 34%N :: r =>
      match read_chars r [] with
      | None => None
      | Some (k, r1) =>
        match skip_space r1 with
        | 58%N :: r2 =>
          match read_value fuel' r2 with
          | None => None
          | Some (v, rest) =>
            match skip_space rest with
            | u :: rest' =>
              if (u =? 44)%N then read_members fuel' rest' (set_field acc k v)
              else if (u =? 125)%N then Some (JObject (set_field acc k v), rest')
              else None
            | [] => None
            end
          end
        | _ => None
        end
      end
    | _ => None
    end
  end.

Definition parse_text (text : jsstring) : option json :=
  match read_value (S (List.length text)) text with
  | Some (v, rest) =>
    match skip_space rest with
    | [] => Some v
    | _ :: _ => None
    end
  | None => None
  end.

#[export] Instance reference_JSON : JSON := {|
  JSON_parse := parse_text;
  JSON_stringify2 := stringify []
|}.

End Reference.

(* ===================================================================== *)
(** * Sessions and bodies to run the methods on *)
(* ===================================================================== *)

Module Examples.
Import WeatherApp.

Definition no_files : filesystem := fun _ => None.

(** Favorites ["Tokyo", "London"], nothing on disk yet. *)
Definition two_cities : Session := {|
  apiKey := J (JString (u16 "0123456789abcdef"));
  favoriteCities := [u16 "Tokyo"; u16 "London"];
  fs := no_files;
  console := []
|}.

(** The same session with a configuration file that is not JSON. *)
Definition broken_config : Session := {|
  apiKey := Undefined;
  favoriteCities := [];
  fs := fun path =>
          if str_eqb path configPath then Some (File (u16 "{ apiKey: ")) else None;
  console := []
|}.

Definition sample (dt temp : Z) : ForecastItem := {|
  fi_dt := num dt;
  fi_main_temp := num temp;
  fi_main_humidity := num 40;
  fi_weather0_description := u16 "clear sky";
  fi_wind_speed := num 3
|}.

(** 2024-01-15 00:00 and 03:00, then 2024-01-16 00:00 (UTC). *)
Definition three_samples : list ForecastItem :=
  [sample 1705276800 10; sample 1705287600 20; sample 1705363200 5].

(** Two samples of 2024-01-15 whose temperatures are 10.46 and 20.27. *)
Definition hundredths (dt h : Z) : ForecastItem := {|
  fi_dt := num dt;
  fi_main_temp := Number_divide (num h) (num 100);
  fi_main_humidity := num 40;
  fi_weather0_description := u16 "clear sky";
  fi_wind_speed := num 3
|}.

Definition two_fractions : list ForecastItem :=
  [hundredths 1705276800 1046; hundredths 1705287600 2027].

(** One sample a day for seven days from 2024-01-15. *)
Definition seven_days : list ForecastItem :=
  map (fun i => sample (1705276800 + 86400 * i) i) [0; 1; 2; 3; 4; 5; 6]%Z.

Definition report (visibility : option number) : CurrentWeather := {|
  cw_name := u16 "Tokyo";
  cw_sys_country := u16 "JP";
  cw_sys_sunrise := num 1705268940;
  cw_sys_sunset := num 1705305180;
  cw_main_temp := num 21;
  cw_main_feels_like := num 20;
  cw_main_humidity := num 40;
  cw_main_pressure := num 1012;
  cw_weather0_description := u16 "clear sky";
  cw_wind_speed := num 3;
  cw_visibility := visibility
|}.

(** An upstream that answers every request with the given status. *)
Definition answers (code : Z) : Request -> Upstream unit :=
  fun _ => HttpResponse {| status := code; data := tt |}.

End Examples.


(* ===================================================================== *)
(** * class WeatherApp: start-up, credential set-up and the menu *)
(* ===================================================================== *)

Module Menu.
Import WeatherApp.
Local Open Scope js_scope.

(** The favorites file holds the list that is in memory. *)
Definition persisted `{JSON} (st : Session) : Prop :=
  fs st favoritesFile = Some (File (JSON_stringify2 (strings (favoriteCities st)))).

(** No city is in the list twice. *)
Definition duplicate_free (st : Session) : Prop := NoDup (favoriteCities st).

(** A method body keeps a property of the session, however it completes. *)
Definition keeps {A} (P : Session -> Prop) (c : M A) : Prop :=
  forall st, P st -> P (snd (c st)).

(** The temperatures that the buckets of [dailyForecasts] hold, counted. *)
Definition sample_count (dailyForecasts : object DailyForecast) : nat :=
  list_sum (map (fun forecast => List.length (temps forecast)) (values dailyForecasts)).

(** The lines of the numbered listing, counting from [i + 1]. *)
Fixpoint numbered (i : N) (l : list jsstring) : list jsstring :=
  match l with
  | [] => []
  | city :: rest => (decimal (i + 1) ++ u16 ". " ++ city) :: numbered (i + 1) rest
  end.

(** What [displayFavoriteCities] logs for a list. *)
Definition listing (l : list jsstring) : list jsstring :=
  match l with
  | [] => [u16 "お気に入りの都市はありません。"]
  | _ :: _ => [nl ++ u16 "⭐ お気に入りの都市:"] ++ numbered 0 l ++ [[]]
  end.

(** ToBoolean of what [this.apiKey] may hold. *)
Definition value_truthy (v : value) : bool :=
  match v with
  | Undefined => false
  | J JNull => false
  | J (JBool b) => b
  | J (JNumber n) => number_truthy n
  | J (JString s) => string_truthy s
  | J (JArray _) => true
  | J (JObject _) => true
  end.

Definition with_apiKey (st : Session) (key : value) : Session :=
  {| apiKey := key; favoriteCities := favoriteCities st; fs := fs st;
     console := console st |}.

Definition set_apiKey (key : value) : M unit :=
  fun st => (Normal tt, with_apiKey st key).

(** ** The constructor

    [new WeatherApp()] on a file system and a console.  The class goes on to
    use [this.favoriteCities] as an array of strings; a favorites file whose
    JSON is anything else is outside this embedding ([None]). *)

Fixpoint as_strings_items (items : list json) : option (list jsstring) :=
  match items with
  | [] => Some []
  | JString s :: rest =>
    match as_strings_items rest with
    | Some l => Some (s :: l)
    | None => None
    end
  | _ :: _ => None
  end.

Definition as_strings (v : json) : option (list jsstring) :=
  match v with
  | JArray items => as_strings_items items
  | _ => None
  end.

Definition blank (files : filesystem) (out : list jsstring) : Session :=
  {| apiKey := Undefined; favoriteCities := []; fs := files; console := out |}.

Definition constructor `{JSON} (files : filesystem) (out : list jsstring)
  : option Session :=
  match loadApiKey (blank files out) with
  | (Normal key, st1) =>
    match loadFavoriteCities (with_apiKey st1 key) with
    | (Normal loaded, st2) =>
      match as_strings loaded with
      | Some l => Some (with_favoriteCities st2 l)
      | None => None
      end
    | (Throw _, _) => None
    end
  | (Throw _, _) => None
  end.

(** ** setupApiKey

    [answer] is what [readline.question] returned and [now] is
    [new Date().toISOString()] at that moment. *)

Definition setup_intro : list jsstring :=
  [ u16 "🌤️  OpenWeatherMap API設定";
    u16 "APIキーを取得するには: https://openweathermap.org/api";
    u16 "無料アカウントでも使用できます。" ].

Fixpoint log_all (lines : list jsstring) : M unit :=
  match lines with
  | [] => ret tt
  | line :: rest => console_log line ;; log_all rest
  end.

Definition config_of (apiKey now : jsstring) : json :=
  JObject [(u16 "apiKey", JString apiKey); (u16 "setupDate", JString now)].

Definition notice_key_saved : jsstring := u16 "✅ APIキーが保存されました！".

Definition setupApiKey `{JSON} (answer now : jsstring) : M unit :=
  log_all setup_intro ;;
  let apiKey := answer in
  let config := config_of apiKey now in
  writeFileSync configFile (JSON_stringify2 config) ;;
  set_apiKey (J (JString apiKey)) ;;
  console_log notice_key_saved.

(** ** run *)

(** An answer typed at a prompt, with the instant at which it is read. *)
Record Answer : Type := {
  text : jsstring;
  instant : jsstring
}.

(** How [run] ends: it returns (command 7), it is rejected, or the answers
    run out and the process waits in [readline.question]. *)
Inductive rejection : Type :=
| Thrown (e : exn)
| ReferenceError (identifier : jsstring).

Inductive ending : Type :=
| Returned
| Rejected (reason : rejection)
| AwaitingInput.

(** [error.message]: the text given to [new Error], or the text the engine
    gives to its own errors. *)
Class EngineMessages := engine_message : exn -> jsstring.

Definition message `{EngineMessages} (e : exn) : jsstring :=
  match e with
  | Error m => m
  | _ => engine_message e
  end.

Definition welcome : jsstring := u16 "🌤️  天気予報アプリへようこそ！".

Definition menu : list jsstring :=
  [ nl ++ u16 "--- メニュー ---";
    u16 "1. 現在の天気を取得";
    u16 "2. 5日間天気予報を取得";
    u16 "3. お気に入り都市を表示";
    u16 "4. お気に入り都市を追加";
    u16 "5. お気に入り都市を削除";
    u16 "6. API設定を変更";
    u16 "7. 終了" ].

Definition farewell : jsstring :=
  u16 "アプリケーションを終了します。お疲れ様でした！".
Definition notice_invalid_choice : jsstring :=
  u16 "無効な選択です。1-7の数字を入力してください。".

(** [try { ... } catch (error) { console.log(`❌ エラー: ${error.message}`) }] *)
Definition reporting `{EngineMessages} (command : M unit) : M unit :=
  try_catch command (fun error => console_log (u16 "❌ エラー: " ++ message error)).

(** The first step of [run]: the welcome line and, when [this.apiKey] is
    falsy, [setupApiKey] on the first answer.  It gives the answers left, or
    how [run] ends there. *)
Definition start `{JSON} (script : list Answer) : M (ending + list Answer) :=
  console_log welcome ;;
  key <- get_apiKey ;;
  if negb (value_truthy key) then
    match script with
    | [] => log_all setup_intro ;; ret (inl AwaitingInput)
    | a :: rest =>
      try_catch (setupApiKey (text a) (instant a) ;; ret (inr rest))
                (fun e => ret (inl (Rejected (Thrown e))))
    end
  else ret (inr script).

Section Loop.
Context `{JSON} `{NumberToString} `{DateFormat} `{EngineMessages}.
Variable net_weather : Request -> Upstream CurrentWeather.
Variable net_forecast : Request -> Upstream Forecast.

(** The body of [while (true)] as it is in the file without the stray
    identifier, on the answers that are left. *)
Fixpoint menu_loop (script : list Answer) : M ending :=
  log_all menu ;;
  match script with
  | [] => ret AwaitingInput
  | choice :: rest =>
    if str_eqb (text choice) (u16 "1") then
      match rest with
      | [] => displayFavoriteCities ;; ret AwaitingInput
      | a :: rest' =>
        reporting (handleCurrentWeather net_weather (text a)) ;; menu_loop rest'
      end
    else if str_eqb (text choice) (u16 "2") then
      match rest with
      | [] => displayFavoriteCities ;; ret AwaitingInput
      | a :: rest' =>
        reporting (handleForecast net_forecast (text a)) ;; menu_loop rest'
      end
    else if str_eqb (text choice) (u16 "3") then
      reporting displayFavoriteCities ;; menu_loop rest
    else if str_eqb (text choice) (u16 "4") then
      match rest with
      | [] => ret AwaitingInput
      | a :: rest' => reporting (handleAddFavorite (text a)) ;; menu_loop rest'
      end
    else if str_eqb (text choice) (u16 "5") then
      l <- get_favoriteCities ;;
      match l with
      | [] =>
        (* nothing is asked when there is no favorite *)
        reporting (handleRemoveFavorite []) ;; menu_loop rest
      | _ :: _ =>
        match rest with
        | [] => displayFavoriteCities ;; ret AwaitingInput
        | a :: rest' => reporting (handleRemoveFavorite (text a)) ;; menu_loop rest'
        end
      end
    else if str_eqb (text choice) (u16 "6") then
      match rest with
      | [] => log_all setup_intro ;; ret AwaitingInput
      | a :: rest' => reporting (setupApiKey (text a) (instant a)) ;; menu_loop rest'
      end
    else if str_eqb (text choice) (u16 "7") then
      console_log farewell ;; ret Returned
    else
      console_log notice_invalid_choice ;; menu_loop rest
  end.

(** [run] of [src/app.js]: after the eighth line of the menu the statement
    [x] is evaluated, and [x] is not defined. *)
Definition run (script : list Answer) : M ending :=
  started <- start script ;;
  match started with
  | inl ended => ret ended
  | inr _ => log_all menu ;; ret (Rejected (ReferenceError (u16 "x")))
  end.

(** [run] of the documented copy of the file, which has no such statement. *)
Definition run_documented (script : list Answer) : M ending :=
  started <- start script ;;
  match started with
  | inl ended => ret ended
  | inr rest => menu_loop rest
  end.

(** How the loop may end on [script] from [st]: it completes, with command
    7 or out of answers; it returns only on an answer "7", after the
    farewell; and a list without duplicates is without duplicates at the
    end. *)
Definition loop_outcome (script : list Answer) (st : Session)
  (r : completion ending * Session) : Prop :=
  exists e st',
    r = (Normal e, st')
    /\ (e = Returned \/ e = AwaitingInput)
    /\ (e = Returned ->
        (exists a, In a script /\ text a = u16 "7")
        /\ exists before, console st' = before ++ [farewell])
    /\ (duplicate_free st -> duplicate_free st').

End Loop.

End Menu.

(* ===================================================================== *)
(** * Further sessions and scripts for the reference host *)
(* ===================================================================== *)

Module Scenarios.
Import WeatherApp Menu Reference Examples.

Definition some_key : jsstring := u16 "0123456789abcdef".
Definition some_instant : jsstring := u16 "2024-01-15T00:00:00.000Z".

(** Favorites ["Tokyo", "London"], and the file that holds them. *)
Definition saved_favorites : filesystem :=
  fun path =>
    if str_eqb path favoritesFile
    then Some (File (JSON_stringify2 (strings [u16 "Tokyo"; u16 "London"])))
    else None.

Definition synced : Session := {|
  apiKey := J (JString some_key);
  favoriteCities := [u16 "Tokyo"; u16 "London"];
  fs := saved_favorites;
  console := []
|}.

(** The same with the configuration file that [setupApiKey] writes. *)
Definition configured : Session := {|
  apiKey := J (JString some_key);
  favoriteCities := [u16 "Tokyo"; u16 "London"];
  fs := fun path =>
          if str_eqb path configFile
          then Some (File (JSON_stringify2 (config_of some_key some_instant)))
          else saved_favorites path;
  console := []
|}.

(** Every path is a directory: no file can be written. *)
Definition read_only : Session := {|
  apiKey := J JNull;
  favoriteCities := [u16 "Tokyo"; u16 "London"];
  fs := fun _ => Some Directory;
  console := []
|}.

Definition typed (s : string) : Answer :=
  {| text := u16 s; instant := some_instant |}.

(** Add " Osaka ", remove "Tokyo", ask for the weather of "Paris", leave. *)
Definition session_script : list Answer :=
  [typed "4"; typed " Osaka "; typed "5"; typed "Tokyo"; typed "1";
   typed "Paris"; typed "7"].

(** An upstream that never answers. *)
Definition offline {D} : Request -> Upstream D := fun _ => NoResponse.

(** The texts an engine gives to its own errors, abridged. *)
#[export] Instance reference_EngineMessages : EngineMessages :=
  fun e =>
    match e with
    | Error m => m
    | TypeError => u16 "Cannot read properties of undefined"
    | SyntaxError => u16 "Unexpected token"
    | SystemError => u16 "EISDIR: illegal operation on a directory"
    end.

End Scenarios.
Import WeatherApp.
Local Open Scope js_scope.
Unset Implicit Arguments.

(* ===================================================================== *)
(** * Strings and arrays *)
(* ===================================================================== *)

Lemma str_eqb_eq (a b : jsstring) : str_eqb a b = true <-> a = b.
Proof.
  revert b; induction a as [|x a IH]; intros [|y b]; simpl; split;
    try congruence; try reflexivity.
  - rewrite andb_true_iff. intros [Hx Hab].
    apply N.eqb_eq in Hx. apply IH in Hab. congruence.
  - intros E. inversion E; subst. rewrite andb_true_iff. split.
    + apply N.eqb_refl.
    + now apply IH.
Qed.

Lemma str_eqb_refl (a : jsstring) : str_eqb a a = true.
Proof. now apply str_eqb_eq. Qed.

Lemma str_eqb_neq (a b : jsstring) : str_eqb a b = false <-> a <> b.
Proof.
  split.
  - intros E H. apply str_eqb_eq in H. congruence.
  - intros H. destruct (str_eqb a b) eqn:E; [|reflexivity].
    apply str_eqb_eq in E. contradiction.
Qed.

Lemma includes_In (l : list jsstring) (x : jsstring) :
  includes l x = true <-> In x l.
Proof.
  unfold includes. rewrite existsb_exists. split.
  - intros [y [Hy E]]. apply str_eqb_eq in E. now subst.
  - intros H. exists x. split; [assumption | apply str_eqb_refl].
Qed.

Lemma includes_not_In (l : list jsstring) (x : jsstring) :
  includes l x = false <-> ~ In x l.
Proof.
  rewrite <- includes_In. destruct (includes l x); split; congruence.
Qed.

Lemma indexOf_from_absent (i : Z) (l : list jsstring) (x : jsstring) :
  ~ In x l -> indexOf_from i l x = (-1)%Z.
Proof.
  revert i; induction l as [|y l IH]; intros i H; simpl; [reflexivity|].
  destruct (str_eqb y x) eqn:E.
  - apply str_eqb_eq in E. subst. exfalso. apply H. now left.
  - apply IH. intros Hin. apply H. now right.
Qed.

Lemma indexOf_from_present (i : Z) (l : list jsstring) (x : jsstring) :
  In x l ->
  exists l1 l2, l = l1 ++ x :: l2 /\ ~ In x l1
                /\ indexOf_from i l x = (i + Z.of_nat (List.length l1))%Z.
Proof.
  revert i; induction l as [|y l IH]; intros i H; [contradiction|].
  simpl. destruct (str_eqb y x) eqn:E.
  - apply str_eqb_eq in E. subst. exists [], l. simpl.
    repeat split; [tauto | lia].
  - apply str_eqb_neq in E. destruct H as [H|H]; [congruence|].
    destruct (IH (i + 1)%Z H) as [l1 [l2 [El [Hn Ei]]]].
    exists (y :: l1), l2. subst l. repeat split.
    + simpl. intros [F|F]; [congruence | contradiction].
    + rewrite Ei. simpl List.length. lia.
Qed.

Lemma splice1_at (l1 l2 : list jsstring) (x : jsstring) :
  splice1 (l1 ++ x :: l2) (Z.of_nat (List.length l1)) = l1 ++ l2.
Proof.
  unfold splice1. rewrite Nat2Z.id.
  induction l1 as [|y l1 IH]; simpl; [reflexivity|].
  simpl in IH. now rewrite IH.
Qed.

Lemma NoDup_push (l : list jsstring) (x : jsstring) :
  NoDup l -> ~ In x l -> NoDup (push l x).
Proof.
  unfold push. induction l as [|y l IH]; simpl; intros Hnd Hx.
  - constructor; [tauto | constructor].
  - inversion Hnd; subst. constructor.
    + rewrite in_app_iff. simpl. intros [F|[F|[]]]; [contradiction|].
      apply Hx. now left.
    + apply IH; [assumption|]. intros F. apply Hx. now right.
Qed.

Lemma count_occ_NoDup_In (l : list jsstring) (x : jsstring) :
  NoDup l -> In x l -> count_occ (list_eq_dec N.eq_dec) l x = 1%nat.
Proof.
  intros Hnd Hin. apply NoDup_count_occ with (decA := list_eq_dec N.eq_dec) (x := x) in Hnd.
  apply (count_occ_In (list_eq_dec N.eq_dec)) in Hin. lia.
Qed.

(** ** trim *)

Lemma trimStart_head (s r : jsstring) (u : N) :
  trimStart s = u :: r -> is_white_space u = false.
Proof.
  induction s as [|v s IH]; simpl; [discriminate|].
  destruct (is_white_space v) eqn:E; [assumption|].
  intros H. inversion H; subst. assumption.
Qed.

Lemma trimStart_nil (s : jsstring) :
  trimStart s = [] <-> forallb is_white_space s = true.
Proof.
  induction s as [|v s IH]; simpl; [tauto|].
  destruct (is_white_space v); simpl; [assumption|].
  split; discriminate.
Qed.

Lemma trimStart_suffix (s : jsstring) : exists p, s = p ++ trimStart s.
Proof.
  induction s as [|v s [p IH]]; simpl.
  - now exists [].
  - destruct (is_white_space v).
    + exists (v :: p). simpl. now f_equal.
    + now exists [].
Qed.

Lemma trimEnd_prefix (s : jsstring) : exists p, s = trimEnd s ++ p.
Proof.
  unfold trimEnd. destruct (trimStart_suffix (rev s)) as [p Hp].
  exists (rev p). rewrite <- rev_app_distr, <- Hp. symmetry. apply rev_involutive.
Qed.

Lemma trimEnd_last (s r : jsstring) (u : N) :
  trimEnd s = r ++ [u] -> is_white_space u = false.
Proof.
  unfold trimEnd. intros H.
  apply (f_equal (@rev N)) in H. rewrite rev_involutive, rev_app_distr in H.
  simpl in H. now apply trimStart_head in H.
Qed.

Lemma trim_head (s r : jsstring) (u : N) :
  trim s = u :: r -> is_white_space u = false.
Proof.
  unfold trim. intros H.
  destruct (trimEnd_prefix (trimStart s)) as [p Hp].
  rewrite H in Hp. simpl in Hp. now apply trimStart_head in Hp.
Qed.

Lemma trim_last (s r : jsstring) (u : N) :
  trim s = r ++ [u] -> is_white_space u = false.
Proof. unfold trim. apply trimEnd_last. Qed.

Lemma forallb_rev (f : N -> bool) (s : jsstring) :
  forallb f (rev s) = forallb f s.
Proof.
  induction s as [|v s IH]; simpl; [reflexivity|].
  rewrite forallb_app, IH. simpl. rewrite andb_true_r. apply andb_comm.
Qed.

Lemma trim_nil (s : jsstring) :
  trim s = [] <-> forallb is_white_space s = true.
Proof.
  unfold trim, trimEnd. split.
  - intros H. apply (f_equal (@rev N)) in H. rewrite rev_involutive in H.
    simpl in H. apply trimStart_nil in H. rewrite forallb_rev in H.
    destruct (trimStart s) as [|u r] eqn:E.
    + now apply trimStart_nil.
    + apply trimStart_head in E. simpl in H. rewrite E in H. discriminate.
  - intros H. apply trimStart_nil in H. rewrite H. reflexivity.
Qed.

Lemma string_truthy_false (s : jsstring) : string_truthy s = false <-> s = [].
Proof. destruct s; simpl; split; congruence. Qed.

(* ===================================================================== *)
(** * Favorites store *)
(* ===================================================================== *)

Section Favorites.
Context `{JSON}.

Lemma saveFavoriteCities_fields (st : Session) :
  favoriteCities (snd (saveFavoriteCities st)) = favoriteCities st
  /\ console (snd (saveFavoriteCities st)) = console st.
Proof.
  unfold saveFavoriteCities, bind, get_favoriteCities, writeFileSync. simpl.
  destruct (fs_writeFileSync _ _ _); simpl; tauto.
Qed.

Lemma add_absent (st : Session) (city : jsstring) :
  ~ In city (favoriteCities st) ->
  addFavoriteCity city st
  = (saveFavoriteCities ;; console_log (notice_added city))
      (with_favoriteCities st (favoriteCities st ++ [city])).
Proof.
  intros Hn. apply includes_not_In in Hn.
  unfold addFavoriteCity, bind at 1. unfold get_favoriteCities at 1.
  rewrite Hn. reflexivity.
Qed.

Lemma add_present (st : Session) (city : jsstring) :
  In city (favoriteCities st) ->
  addFavoriteCity city st = (Normal tt, logged st (notice_already_present city)).
Proof.
  intros Hin. apply includes_In in Hin.
  unfold addFavoriteCity, bind, get_favoriteCities. rewrite Hin. reflexivity.
Qed.

Lemma favorites_after_add (st : Session) (city : jsstring) :
  favoriteCities (snd (addFavoriteCity city st))
  = if includes (favoriteCities st) city then favoriteCities st
    else favoriteCities st ++ [city].
Proof.
  destruct (includes (favoriteCities st) city) eqn:E.
  - apply includes_In in E. now rewrite add_present.
  - apply includes_not_In in E. rewrite add_absent by assumption.
    unfold bind. destruct (saveFavoriteCities _) as [[[]|e] st'] eqn:Es; simpl.
    + change st' with (snd (Normal tt, st')). rewrite <- Es.
      now rewrite (proj1 (saveFavoriteCities_fields _)).
    + change st' with (snd (@Throw unit e, st')). rewrite <- Es.
      now rewrite (proj1 (saveFavoriteCities_fields _)).
Qed.

Lemma remove_absent (st : Session) (city : jsstring) :
  ~ In city (favoriteCities st) ->
  removeFavoriteCity city st = (Normal tt, logged st (notice_not_found city)).
Proof.
  intros Hn. unfold removeFavoriteCity, bind, get_favoriteCities, indexOf.
  now rewrite indexOf_from_absent.
Qed.

Lemma remove_present (st : Session) (city : jsstring) :
  In city (favoriteCities st) ->
  exists l1 l2,
    favoriteCities st = l1 ++ city :: l2 /\ ~ In city l1
    /\ removeFavoriteCity city st
       = (saveFavoriteCities ;; console_log (notice_removed city))
           (with_favoriteCities st (l1 ++ l2)).
Proof.
  intros Hin.
  destruct (indexOf_from_present 0 _ _ Hin) as [l1 [l2 [El [Hn Ei]]]].
  exists l1, l2. repeat split; try assumption.
  unfold removeFavoriteCity, bind at 1. unfold get_favoriteCities at 1.
  unfold indexOf. rewrite Ei.
  replace (-1 <? 0 + Z.of_nat (List.length l1))%Z with true
    by (symmetry; apply Z.ltb_lt; lia).
  rewrite El. simpl Z.add. rewrite splice1_at. reflexivity.
Qed.

Lemma favorites_after_remove (st : Session) (city : jsstring) :
  In city (favoriteCities st) ->
  exists l1 l2,
    favoriteCities st = l1 ++ city :: l2 /\ ~ In city l1
    /\ favoriteCities (snd (removeFavoriteCity city st)) = l1 ++ l2.
Proof.
  intros Hin. destruct (remove_present st city Hin) as [l1 [l2 [El [Hn Er]]]].
  exists l1, l2. repeat split; try assumption.
  rewrite Er. unfold bind.
  destruct (saveFavoriteCities _) as [[[]|e] st'] eqn:Es; simpl.
  - change st' with (snd (Normal tt, st')). rewrite <- Es.
    now rewrite (proj1 (saveFavoriteCities_fields _)).
  - change st' with (snd (@Throw unit e, st')). rewrite <- Es.
    now rewrite (proj1 (saveFavoriteCities_fields _)).
Qed.

(** What [saveFavoriteCities] leaves in the file when the write goes
    through. *)
Lemma save_writes (st : Session) :
  fs st favoritesFile <> Some Directory ->
  saveFavoriteCities st
  = (Normal tt,
     with_fs st (fun p => if str_eqb p favoritesFile
                          then Some (File (JSON_stringify2 (strings (favoriteCities st))))
                          else fs st p)).
Proof.
  intros Hd. unfold saveFavoriteCities, bind, get_favoriteCities, writeFileSync,
    fs_writeFileSync.
  destruct (fs st favoritesFile) as [[c|]|]; try reflexivity. congruence.
Qed.

Lemma save_fails (st : Session) :
  fs st favoritesFile = Some Directory ->
  saveFavoriteCities st = (Throw SystemError, st).
Proof.
  intros Hd. unfold saveFavoriteCities, bind, get_favoriteCities, writeFileSync,
    fs_writeFileSync.
  now rewrite Hd.
Qed.

End Favorites.

(** C3: on a duplicate-free favorites list, [addFavoriteCity] and
    [removeFavoriteCity] leave a duplicate-free list.  The test of
    [addFavoriteCity] is membership of the very code-unit sequence it is
    given (no case folding, no trimming): when the city is not a member it
    is appended at the end, the elements before it unchanged; when it is a
    member the list is left as it is.  Either way the city then occurs
    exactly once, and adding it a second time changes nothing. *)
Theorem favorites_duplicate_free `{JSON} (st : Session) (city : jsstring) :
  NoDup (favoriteCities st) ->
  let added := snd (addFavoriteCity city st) in
  let removed := snd (removeFavoriteCity city st) in
  NoDup (favoriteCities added)
  /\ NoDup (favoriteCities removed)
  /\ (~ In city (favoriteCities st) ->
      favoriteCities added = favoriteCities st ++ [city])
  /\ (In city (favoriteCities st) -> favoriteCities added = favoriteCities st)
  /\ count_occ (list_eq_dec N.eq_dec) (favoriteCities added) city = 1%nat
  /\ favoriteCities (snd (addFavoriteCity city added)) = favoriteCities added.
Proof.
  intros Hnd added removed.
  assert (Hadd : favoriteCities added
                 = if includes (favoriteCities st) city then favoriteCities st
                   else favoriteCities st ++ [city])
    by apply favorites_after_add.
  assert (Hin : In city (favoriteCities added)).
  { rewrite Hadd. destruct (includes (favoriteCities st) city) eqn:E.
    - now apply includes_In.
    - apply in_or_app. right. now left. }
  assert (Hnd' : NoDup (favoriteCities added)).
  { rewrite Hadd. destruct (includes (favoriteCities st) city) eqn:E.
    - assumption.
    - apply includes_not_In in E. now apply NoDup_push. }
  repeat split.
  - assumption.
  - destruct (in_dec (list_eq_dec N.eq_dec) city (favoriteCities st)) as [Hc|Hc].
    + destruct (favorites_after_remove st city Hc) as [l1 [l2 [El [_ Er]]]].
      subst removed. rewrite Er. rewrite El in Hnd.
      now apply NoDup_remove_1 in Hnd.
    + subst removed. now rewrite remove_absent.
  - intros Hc. apply includes_not_In in Hc. now rewrite Hc in Hadd.
  - intros Hc. apply includes_In in Hc. now rewrite Hc in Hadd.
  - now apply count_occ_NoDup_In.
  - rewrite favorites_after_add. apply includes_In in Hin. now rewrite Hin.
Qed.

(** C4: removing a city that is not in the list (exact match) only logs
    the not-registered notice: the completion is normal, the in-memory list
    and the file system are those of before, nothing is written.  Removing
    a city that is in the list deletes its first occurrence and then runs
    [saveFavoriteCities] on the shortened list; when the write goes through
    the backing file holds that list. *)
Theorem remove_not_found_or_removed `{JSON} (st : Session) (city : jsstring) :
  (~ In city (favoriteCities st) ->
   removeFavoriteCity city st = (Normal tt, logged st (notice_not_found city))
   /\ favoriteCities (snd (removeFavoriteCity city st)) = favoriteCities st
   /\ fs (snd (removeFavoriteCity city st)) = fs st)
  /\ (In city (favoriteCities st) ->
      exists l1 l2,
        favoriteCities st = l1 ++ city :: l2 /\ ~ In city l1
        /\ removeFavoriteCity city st
           = (saveFavoriteCities ;; console_log (notice_removed city))
               (with_favoriteCities st (l1 ++ l2))
        /\ favoriteCities (snd (removeFavoriteCity city st)) = l1 ++ l2
        /\ (fs st favoritesFile <> Some Directory ->
            fst (removeFavoriteCity city st) = Normal tt
            /\ fs (snd (removeFavoriteCity city st)) favoritesFile
               = Some (File (JSON_stringify2 (strings (l1 ++ l2)))))).
Proof.
  split.
  - intros Hn. rewrite (remove_absent st city Hn). simpl. tauto.
  - intros Hin. destruct (remove_present st city Hin) as [l1 [l2 [El [Hn Er]]]].
    exists l1, l2. repeat split; try assumption.
    + destruct (favorites_after_remove st city Hin) as [k1 [k2 [Ek [Hk Efav]]]].
      rewrite Efav. rewrite El in Ek.
      assert (k1 = l1 /\ k2 = l2) as [-> ->]; [|reflexivity].
      clear - Ek Hn Hk. revert k1 Ek Hk. induction l1 as [|a l1 IH]; intros [|b k1] Ek Hk.
      * simpl in Ek. inversion Ek. tauto.
      * simpl in Ek. inversion Ek; subst. exfalso. apply Hk. now left.
      * simpl in Ek. inversion Ek; subst. exfalso. apply Hn. now left.
      * simpl in Ek. inversion Ek; subst.
        destruct (IH (fun F => Hn (or_intror F)) k1 H1 (fun F => Hk (or_intror F)))
          as [-> ->]. tauto.
    + rewrite Er. unfold bind. rewrite save_writes by assumption. reflexivity.
    + rewrite Er. unfold bind. rewrite save_writes by assumption.
      unfold console_log, logged, with_fs. cbn [snd fs].
      now rewrite str_eqb_refl.
Qed.

(** C10: [handleAddFavorite] does nothing at all when the answer is empty
    or made of white space only; otherwise it is [addFavoriteCity] applied
    to the trimmed answer.  Hence a city that the handler puts into the
    list is the trimmed answer, is not empty, and neither starts nor ends
    with a white-space code unit. *)
Theorem handleAddFavorite_trims `{JSON} (st : Session) (answer : jsstring) :
  (forallb is_white_space answer = true ->
   handleAddFavorite answer st = (Normal tt, st))
  /\ (forallb is_white_space answer = false ->
      handleAddFavorite answer st = addFavoriteCity (trim answer) st)
  /\ (forall city,
        In city (favoriteCities (snd (handleAddFavorite answer st))) ->
        ~ In city (favoriteCities st) ->
        city = trim answer /\ city <> []
        /\ (forall u r, city = u :: r -> is_white_space u = false)
        /\ (forall r u, city = r ++ [u] -> is_white_space u = false)).
Proof.
  assert (Hws : forallb is_white_space answer = true ->
                handleAddFavorite answer st = (Normal tt, st)).
  { intros Hw. apply trim_nil in Hw. unfold handleAddFavorite. now rewrite Hw. }
  assert (Hnw : forallb is_white_space answer = false ->
                handleAddFavorite answer st = addFavoriteCity (trim answer) st).
  { intros Hw. unfold handleAddFavorite.
    destruct (trim answer) as [|u r] eqn:E; [|reflexivity].
    apply trim_nil in E. congruence. }
  repeat split; try assumption.
  all: intros; destruct (forallb is_white_space answer) eqn:Hw.
  all: try (rewrite (Hws eq_refl) in *; simpl in *; contradiction).
  all: rewrite (Hnw eq_refl), favorites_after_add in *.
  all: destruct (includes (favoriteCities st) (trim answer)); try contradiction.
  all: match goal with
       | Hi : In _ (_ ++ [_]) |- _ =>
         apply in_app_or in Hi; destruct Hi as [Hi|[Hi|[]]]; [contradiction|]
       end.
  - congruence.
  - subst city. intros E. apply trim_nil in E. congruence.
  - subst city. eapply trim_head. eassumption.
  - subst city. eapply trim_last. eassumption.
Qed.


(* ===================================================================== *)
(** * Weather client *)
(* ===================================================================== *)

Lemma messages_distinct :
  msg_city_not_found <> msg_invalid_credential
  /\ msg_city_not_found <> msg_weather_failed
  /\ msg_invalid_credential <> msg_weather_failed
  /\ msg_forecast_failed <> msg_city_not_found
  /\ msg_forecast_failed <> msg_invalid_credential.
Proof. repeat split; vm_compute; discriminate. Qed.

Lemma throw_error_inj {A} (m1 m2 : jsstring) :
  @Throw A (Error m1) = Throw (Error m2) -> m1 = m2.
Proof. intros E. now injection E. Qed.

Lemma error_inj (m1 m2 : jsstring) : Error m1 = Error m2 -> m1 = m2.
Proof. intros E. now injection E. Qed.

Lemma axios_get_cases {D} (up : Upstream D) :
  (up = NoResponse /\ axios_get up = Rejected None)
  \/ (exists r, up = HttpResponse r /\ success r /\ axios_get up = Fulfilled r)
  \/ (exists r, up = HttpResponse r /\ ~ success r /\ axios_get up = Rejected (Some r)).
Proof.
  destruct up as [|r]; [now left|right]. unfold axios_get, success.
  destruct (Z.leb_spec 200 (status r)); destruct (Z.ltb_spec (status r) 300); simpl.
  - left. exists r. repeat split; assumption.
  - right. exists r. repeat split. lia.
  - right. exists r. repeat split. lia.
  - right. exists r. repeat split. lia.
Qed.

Lemma getCurrentWeather_run {D} (net : Request -> Upstream D) (city : jsstring)
  (st : Session) :
  getCurrentWeather net city st
  = match axios_get (net (weather_request st city)) with
    | Fulfilled response => (Normal (data response), st)
    | Rejected error_response =>
      if response_status_is error_response 404 then (Throw CityNotFound, st)
      else if response_status_is error_response 401 then (Throw InvalidCredential, st)
      else (Throw FetchFailed_weather, st)
    end.
Proof.
  unfold getCurrentWeather, bind, request, get_apiKey, ret. simpl.
  fold (weather_request st city).
  destruct (axios_get _) as [r|er]; [reflexivity|].
  destruct (response_status_is er 404); [reflexivity|].
  destruct (response_status_is er 401); reflexivity.
Qed.

Lemma getForecast_run {D} (net : Request -> Upstream D) (city : jsstring)
  (st : Session) :
  getForecast net city st
  = match axios_get (net (forecast_request st city)) with
    | Fulfilled response => (Normal (data response), st)
    | Rejected _ => (Throw FetchFailed_forecast, st)
    end.
Proof.
  unfold getForecast, bind, request, get_apiKey, ret. simpl.
  fold (forecast_request st city).
  destruct (axios_get _) as [r|er]; reflexivity.
Qed.

(** An upstream that is known leaves one response to talk about. *)
Ltac same_response Eu :=
  match goal with
  | E : ?u = HttpResponse ?r' |- _ =>
    rewrite Eu in E; first [ discriminate E | injection E as <- ]
  end.

(** C5: [getCurrentWeather] throws CityNotFound exactly when the upstream
    answered with status 404, InvalidCredential exactly when it answered
    with status 401, and FetchFailed exactly on every other failure (no
    answer at all, or an answer whose status is neither a success, nor 404,
    nor 401, such as 500).  It returns exactly when the upstream answered
    with a success status, and then returns the body of that answer. *)
Theorem getCurrentWeather_outcomes {D} (net : Request -> Upstream D)
  (city : jsstring) (st : Session) :
  let upstream := net (weather_request st city) in
  let outcome := fst (getCurrentWeather net city st) in
  (outcome = Throw CityNotFound
   <-> exists r, upstream = HttpResponse r /\ status r = 404%Z)
  /\ (outcome = Throw InvalidCredential
      <-> exists r, upstream = HttpResponse r /\ status r = 401%Z)
  /\ (outcome = Throw FetchFailed_weather
      <-> upstream = NoResponse
          \/ exists r, upstream = HttpResponse r /\ ~ success r
                       /\ status r <> 404%Z /\ status r <> 401%Z)
  /\ (forall body,
        outcome = Normal body
        <-> exists r, upstream = HttpResponse r /\ success r /\ data r = body)
  /\ (forall r, upstream = HttpResponse r -> status r = 500%Z ->
                outcome = Throw FetchFailed_weather).
Proof.
  intros upstream outcome. subst outcome. rewrite getCurrentWeather_run.
  fold upstream.
  destruct messages_distinct as [D1 [D2 [D3 _]]].
  assert (N1 : @Throw D CityNotFound <> Throw InvalidCredential)
    by (intros E; apply throw_error_inj in E; exact (D1 E)).
  assert (N2 : @Throw D CityNotFound <> Throw FetchFailed_weather)
    by (intros E; apply throw_error_inj in E; exact (D2 E)).
  assert (N3 : @Throw D InvalidCredential <> Throw FetchFailed_weather)
    by (intros E; apply throw_error_inj in E; exact (D3 E)).
  clear D1 D2 D3.
  generalize dependent CityNotFound. generalize dependent InvalidCredential.
  generalize dependent FetchFailed_weather. intros e3 e2 N3 e1 N1 N2.
  destruct (axios_get_cases upstream) as [[Eu Ea]|[[r [Eu [Hs Ea]]]|[r [Eu [Hs Ea]]]]];
    rewrite Ea; cbn [response_status_is fst].
  - (* no response *)
    split; [|split; [|split; [|split]]].
    + split; [intros E; congruence | intros [r [E _]]; congruence].
    + split; [intros E; congruence | intros [r [E _]]; congruence].
    + split; [now left | reflexivity].
    + intros body. split; [discriminate | intros [r [E _]]; congruence].
    + intros r E. congruence.
  - (* success *)
    split; [|split; [|split; [|split]]].
    + split; [discriminate | intros [r' [E Hc]]; same_response Eu;
                             unfold success in Hs; lia].
    + split; [discriminate | intros [r' [E Hc]]; same_response Eu;
                             unfold success in Hs; lia].
    + split; [discriminate|].
      intros [E|[r' [E [Hc _]]]]; [congruence|]. same_response Eu. contradiction.
    + intros body. split.
      * intros E. injection E as <-. exists r. tauto.
      * intros [r' [E [_ Hb]]]. same_response Eu. now subst body.
    + intros r' E Hc. same_response Eu. unfold success in Hs. lia.
  - (* a response that is not a success *)
    destruct (Z.eqb_spec (status r) 404) as [E4|E4];
      [|destruct (Z.eqb_spec (status r) 401) as [E1|E1]].
    all: split; [|split; [|split; [|split]]].
    all: try (intros body); try split.
    all: try (intros _; exists r; tauto).
    all: try (intros [r' [E Hc]]; same_response Eu; first [ lia | tauto ]).
    all: try (intros [E|[r' [E Hc]]]; [congruence|]; same_response Eu; tauto).
    all: try (intros r' E Hc; same_response Eu;
              first [ reflexivity | unfold success in Hs; lia ]).
    all: try (intros _; right; exists r; tauto).
    all: cbn [fst]; try (intros E; first [ discriminate E | congruence ]).
Qed.

(** C6: [getForecast] returns exactly when the upstream answered with a
    success status.  In every other case (no answer, or any other status,
    404 and 401 included) it throws one and the same FetchFailed error: no
    status is told apart, where [getCurrentWeather] has two errors of their
    own for 404 and 401. *)
Theorem getForecast_outcomes {D} (net : Request -> Upstream D)
  (city : jsstring) (st : Session) :
  let upstream := net (forecast_request st city) in
  let outcome := fst (getForecast net city st) in
  (forall body,
     outcome = Normal body
     <-> exists r, upstream = HttpResponse r /\ success r /\ data r = body)
  /\ (outcome = Throw FetchFailed_forecast
      <-> upstream = NoResponse
          \/ exists r, upstream = HttpResponse r /\ ~ success r)
  /\ (forall e, outcome = Throw e -> e = FetchFailed_forecast)
  /\ (forall r, upstream = HttpResponse r ->
                status r = 404%Z \/ status r = 401%Z ->
                outcome = Throw FetchFailed_forecast)
  /\ FetchFailed_forecast <> CityNotFound
  /\ FetchFailed_forecast <> InvalidCredential.
Proof.
  intros upstream outcome. subst outcome. rewrite getForecast_run. fold upstream.
  destruct messages_distinct as [_ [_ [_ [D4 D5]]]].
  assert (N1 : FetchFailed_forecast <> CityNotFound)
    by (intros E; apply error_inj in E; exact (D4 E)).
  assert (N2 : FetchFailed_forecast <> InvalidCredential)
    by (intros E; apply error_inj in E; exact (D5 E)).
  clear D4 D5.
  generalize dependent FetchFailed_forecast. intros e1 N1 N2.
  generalize dependent CityNotFound. intros e2 N1.
  generalize dependent InvalidCredential. intros e3 N2.
  destruct (axios_get_cases upstream) as [[Eu Ea]|[[r [Eu [Hs Ea]]]|[r [Eu [Hs Ea]]]]];
    rewrite Ea; cbn [fst].
  - (* no response *)
    split; [|split; [|split; [|split; [|split]]]]; try assumption.
    + intros body. split; [discriminate | intros [r [E _]]; congruence].
    + split; [now left | reflexivity].
    + intros e E. now injection E.
    + intros r E. congruence.
  - (* success *)
    split; [|split; [|split; [|split; [|split]]]]; try assumption.
    + intros body. split.
      * intros E. injection E as <-. exists r. tauto.
      * intros [r' [E [_ Hb]]]. same_response Eu. now subst body.
    + split; [discriminate|].
      intros [E|[r' [E Hc]]]; [congruence|]. same_response Eu. contradiction.
    + intros e E. discriminate E.
    + intros r' E Hc. same_response Eu. unfold success in Hs. lia.
  - (* a response that is not a success *)
    split; [|split; [|split; [|split; [|split]]]]; try assumption.
    + intros body. split; [discriminate|].
      intros [r' [E [Hc _]]]. same_response Eu. contradiction.
    + split; [|reflexivity]. intros _. right. exists r. tauto.
    + intros e E. now injection E.
    + reflexivity.
Qed.

(* ===================================================================== *)
(** * Credential store *)
(* ===================================================================== *)

Section Stores.
Context `{JSON}.

(** [loadApiKey], case by case on what is at [weather_config.json]. *)
Lemma loadApiKey_run (st : Session) :
  loadApiKey st
  = match fs st configPath with
    | None => (Normal (J JNull), st)
    | Some Directory => (Normal (J JNull), logged st notice_no_config)
    | Some (File text) =>
      match JSON_parse text with
      | None => (Normal (J JNull), logged st notice_no_config)
      | Some JNull => (Normal (J JNull), logged st notice_no_config)
      | Some (JObject fields) => (Normal (field fields (u16 "apiKey")), st)
      | Some _ => (Normal Undefined, st)
      end
    end.
Proof.
  unfold loadApiKey, bind, try_catch, existsSync, readFileSync, fs_existsSync,
    fs_readFileSync, parse.
  destruct (fs st configPath) as [[text|]|] eqn:E; rewrite ?E; try reflexivity.
  destruct (JSON_parse text) as [[]|]; reflexivity.
Qed.

Lemma loadFavoriteCities_run (st : Session) :
  loadFavoriteCities st
  = match fs st favoritesFile with
    | None => (Normal (JArray []), st)
    | Some Directory => (Normal (JArray []), logged st notice_favorites_unreadable)
    | Some (File text) =>
      match JSON_parse text with
      | None => (Normal (JArray []), logged st notice_favorites_unreadable)
      | Some v => (Normal v, st)
      end
    end.
Proof.
  unfold loadFavoriteCities, bind, try_catch, existsSync, readFileSync,
    fs_existsSync, fs_readFileSync, parse.
  destruct (fs st favoritesFile) as [[text|]|] eqn:E; rewrite ?E; try reflexivity.
  destruct (JSON_parse text) as [v|]; reflexivity.
Qed.

End Stores.

(** C7: [loadApiKey] always completes normally.  When there is no file at
    [weather_config.json] the result is [null] and nothing is logged; when
    the file is there and its content is not JSON the result is [null] and
    the diagnostic is logged.  (A path that cannot be read as a file gives
    [null] as well.) *)
Theorem loadApiKey_never_raises `{JSON} (st : Session) :
  (exists key, fst (loadApiKey st) = Normal key)
  /\ (fs st configPath = None -> loadApiKey st = (Normal (J JNull), st))
  /\ (forall text,
        fs st configPath = Some (File text) -> JSON_parse text = None ->
        loadApiKey st = (Normal (J JNull), logged st notice_no_config))
  /\ (fs st configPath = Some Directory ->
      loadApiKey st = (Normal (J JNull), logged st notice_no_config)).
Proof.
  rewrite loadApiKey_run. repeat split.
  - destruct (fs st configPath) as [[text|]|]; simpl; eauto.
    destruct (JSON_parse text) as [[]|]; simpl; eauto.
  - intros E. now rewrite E.
  - intros text E P. now rewrite E, P.
  - intros E. now rewrite E.
Qed.

(* ===================================================================== *)
(** * Favorites file *)
(* ===================================================================== *)

Lemma strings_inj (l l' : list jsstring) : strings l = strings l' -> l = l'.
Proof.
  unfold strings. intros E. inversion E as [E']. clear E.
  revert l' E'. induction l as [|x l IH]; intros [|y l'] E; simpl in E;
    try discriminate; [reflexivity|].
  inversion E. f_equal. now apply IH.
Qed.

(** C8: for a JSON implementation that reads back the arrays of strings it
    writes, a [saveFavoriteCities] that completes is undone by
    [loadFavoriteCities] through the backing file.  The file then holds the
    text written for the list, and a load from any session on the files the
    save has left, whatever that session has in memory, gives the array of
    the very strings of the saved list, in the same order, and logs
    nothing. *)
Theorem save_then_load `{JSON} (st st' : Session) :
  (forall l, JSON_parse (JSON_stringify2 (strings l)) = Some (strings l)) ->
  saveFavoriteCities st = (Normal tt, st') ->
  fs st' favoritesFile = Some (File (JSON_stringify2 (strings (favoriteCities st))))
  /\ (forall reader : Session,
        fs reader = fs st' ->
        loadFavoriteCities reader = (Normal (strings (favoriteCities st)), reader))
  /\ (forall l, strings l = strings (favoriteCities st) -> l = favoriteCities st).
Proof.
  intros Hjson Hsave.
  assert (Efile : fs st' favoritesFile
                  = Some (File (JSON_stringify2 (strings (favoriteCities st))))).
  { destruct (fs st favoritesFile) as [[text|]|] eqn:Ef.
    2: { rewrite save_fails in Hsave by assumption. discriminate. }
    all: rewrite save_writes in Hsave by congruence.
    all: inversion Hsave as [Hst]; clear Hsave.
    all: unfold with_fs; cbn [fs]; now rewrite str_eqb_refl. }
  split; [exact Efile|]. split; [|intros l E; now apply strings_inj].
  intros reader Efs. rewrite loadFavoriteCities_run, Efs, Efile, Hjson. reflexivity.
Qed.

(* ===================================================================== *)
(** * Numbers: the division

    [Number::divide] on finite operands is [SFdiv] of the standard library:
    an integer division of the mantissas, then a rounding to nearest, ties
    to even.  What follows shows that the result is within half a unit in
    the last place of the exact quotient. *)
(* ===================================================================== *)

Section Shifts.
Local Open Scope Z_scope.

Lemma located_bounds (m : Z) (l : location) (N D : Z) :
  0 < D -> located m l N D -> m * D <= N < (m + 1) * D.
Proof. destruct l as [|[]]; unfold located; intros; lia. Qed.

Lemma loc_of_record_of (m : Z) (l : location) :
  loc_of_shr_record (shr_record_of_loc m l) = l
  /\ shr_m (shr_record_of_loc m l) = m.
Proof. destruct l as [|[]]; split; reflexivity. Qed.

Lemma shr_1_located (mrs : shr_record) (N D : Z) :
  0 <= shr_m mrs -> 0 < D ->
  located (shr_m mrs) (loc_of_shr_record mrs) N D ->
  located (shr_m (shr_1 mrs)) (loc_of_shr_record (shr_1 mrs)) N (2 * D)
  /\ shr_m (shr_1 mrs) = shr_m mrs / 2.
Proof.
  destruct mrs as [m r s]. cbn [shr_m]. intros Hm HD H.
  destruct m as [|p|p]; [| |lia].
  - split; [|reflexivity].
    destruct r, s; cbn [shr_1 orb shr_m loc_of_shr_record located] in *; lia.
  - destruct p as [p|p|].
    + split.
      * destruct r, s; cbn [shr_1 orb shr_m loc_of_shr_record located] in *;
          rewrite (Pos2Z.inj_xI p) in H; lia.
      * cbn [shr_1 orb shr_m]. rewrite (Pos2Z.inj_xI p).
        apply (Z.div_unique _ _ _ 1); lia.
    + split.
      * destruct r, s; cbn [shr_1 orb shr_m loc_of_shr_record located] in *;
          rewrite (Pos2Z.inj_xO p) in H; lia.
      * cbn [shr_1 orb shr_m]. rewrite (Pos2Z.inj_xO p).
        apply (Z.div_unique _ _ _ 0); lia.
    + split; [|reflexivity].
      destruct r, s; cbn [shr_1 orb shr_m loc_of_shr_record located] in *; lia.
Qed.

Lemma iter_pos_shr_located (p : positive) :
  forall (mrs : shr_record) (N D : Z),
    0 <= shr_m mrs -> 0 < D ->
    located (shr_m mrs) (loc_of_shr_record mrs) N D ->
    located (shr_m (iter_pos shr_1 p mrs)) (loc_of_shr_record (iter_pos shr_1 p mrs))
      N (2 ^ Zpos p * D)
    /\ shr_m (iter_pos shr_1 p mrs) = shr_m mrs / 2 ^ Zpos p.
Proof.
  assert (Hstep : forall mrs N D,
            0 <= shr_m mrs -> 0 < D ->
            located (shr_m mrs) (loc_of_shr_record mrs) N D ->
            0 <= shr_m (shr_1 mrs)).
  { intros mrs N D Hm HD H. destruct (shr_1_located mrs N D Hm HD H) as [_ ->].
    apply Z.div_pos; lia. }
  induction p as [p IH|p IH|]; intros mrs N D Hm HD H; cbn [iter_pos].
  - destruct (shr_1_located mrs N D Hm HD H) as [H1 E1].
    assert (Hm1 : 0 <= shr_m (shr_1 mrs)) by (rewrite E1; apply Z.div_pos; lia).
    destruct (IH _ N (2 * D) Hm1 ltac:(lia) H1) as [H2 E2].
    assert (P2 : 0 < 2 ^ Zpos p) by (apply Z.pow_pos_nonneg; lia).
    assert (Hm2 : 0 <= shr_m (iter_pos shr_1 p (shr_1 mrs)))
      by (rewrite E2; apply Z.div_pos; lia).
    destruct (IH _ N (2 ^ Zpos p * (2 * D)) Hm2 ltac:(nia) H2) as [H3 E3].
    assert (E : 2 ^ Zpos p~1 = 2 ^ Zpos p * (2 ^ Zpos p * 2)).
    { rewrite (Pos2Z.inj_xI p). rewrite Z.pow_add_r by lia. rewrite Z.pow_twice_r.
      change (2 ^ 1) with 2. ring. }
    rewrite E. split.
    + replace (2 ^ Zpos p * (2 ^ Zpos p * 2) * D)
        with (2 ^ Zpos p * (2 ^ Zpos p * (2 * D))) by ring. exact H3.
    + rewrite E3, E2, E1. rewrite !Z.div_div by lia. f_equal. ring.
  - destruct (IH _ N D Hm HD H) as [H2 E2].
    assert (P2 : 0 < 2 ^ Zpos p) by (apply Z.pow_pos_nonneg; lia).
    assert (Hm2 : 0 <= shr_m (iter_pos shr_1 p mrs))
      by (rewrite E2; apply Z.div_pos; lia).
    destruct (IH _ N (2 ^ Zpos p * D) Hm2 ltac:(nia) H2) as [H3 E3].
    assert (E : 2 ^ Zpos p~0 = 2 ^ Zpos p * 2 ^ Zpos p).
    { rewrite (Pos2Z.inj_xO p), Z.pow_twice_r. reflexivity. }
    rewrite E. split.
    + replace (2 ^ Zpos p * 2 ^ Zpos p * D)
        with (2 ^ Zpos p * (2 ^ Zpos p * D)) by ring. exact H3.
    + rewrite E3, E2. rewrite !Z.div_div by lia. reflexivity.
  - change (2 ^ 1) with 2. now apply shr_1_located.
Qed.

Lemma digits2_pos_size (p : positive) : digits2_pos p = Pos.size p.
Proof. induction p as [p IH|p IH|]; simpl; now rewrite ?IH. Qed.

Lemma Zdigits2_log2 (m : Z) : 0 < m -> Zdigits2 m = Z.log2 m + 1.
Proof.
  destruct m as [|p|p]; try lia. intros _. cbn [Zdigits2].
  rewrite digits2_pos_size. destruct p as [p|p|]; cbn [Z.log2 Pos.size]; lia.
Qed.

Lemma Zdigits2_bounds (m : Z) :
  0 < m -> 2 ^ (Zdigits2 m - 1) <= m < 2 ^ Zdigits2 m.
Proof.
  intros Hm. rewrite (Zdigits2_log2 m Hm).
  replace (Z.log2 m + 1 - 1) with (Z.log2 m) by lia.
  replace (Z.log2 m + 1) with (Z.succ (Z.log2 m)) by lia.
  now apply Z.log2_spec.
Qed.

Lemma Zdigits2_nonneg (m : Z) : 0 <= Zdigits2 m.
Proof. destruct m; cbn [Zdigits2]; lia. Qed.

Lemma Zdigits2_le (a b : Z) : 0 <= a <= b -> Zdigits2 a <= Zdigits2 b.
Proof.
  intros [Ha Hab]. destruct (Z.eq_dec a 0) as [->|Hn].
  - apply Zdigits2_nonneg.
  - rewrite !Zdigits2_log2 by lia. pose proof (Z.log2_le_mono a b Hab). lia.
Qed.

Lemma Zdigits2_shift (m n : Z) :
  0 < m -> 0 <= n -> Zdigits2 (m / 2 ^ n) <= Z.max 0 (Zdigits2 m - n).
Proof.
  intros Hm Hn.
  assert (Hq : 0 <= m / 2 ^ n) by (apply Z.div_pos; [lia | apply Z.pow_pos_nonneg; lia]).
  destruct (Z.eq_dec (m / 2 ^ n) 0) as [->|Hz]; [cbn [Zdigits2]; lia|].
  rewrite (Zdigits2_log2 (m / 2 ^ n)) by lia. rewrite (Zdigits2_log2 m Hm).
  assert (Hp : 0 < 2 ^ n) by (apply Z.pow_pos_nonneg; lia).
  assert (Hge : 2 ^ n <= m).
  { destruct (Z_lt_le_dec m (2 ^ n)) as [Hlt|Hge]; [|exact Hge].
    rewrite Z.div_small in Hz by lia. congruence. }
  assert (Hl : n <= Z.log2 m).
  { apply Z.log2_le_mono in Hge. rewrite Z.log2_pow2 in Hge by lia. exact Hge. }
  rewrite <- Z.shiftr_div_pow2 by lia.
  rewrite Z.log2_shiftr by lia. lia.
Qed.

(** Digits grow by at most one from [m] to [m + 1], and only to an even
    number. *)
Lemma Zdigits2_succ (m : Z) :
  0 <= m ->
  Zdigits2 (m + 1) = Zdigits2 m
  \/ (Zdigits2 (m + 1) = Zdigits2 m + 1 /\ (m = 0 \/ Z.even (m + 1) = true)).
Proof.
  intros Hm. destruct (Z.eq_dec m 0) as [->|Hn]; [right; split; [reflexivity | now left]|].
  rewrite (Zdigits2_log2 m), (Zdigits2_log2 (m + 1)) by lia.
  destruct (Z.log2_succ_or m) as [E|E]; unfold Z.succ in E.
  - right. split; [lia|]. right.
    destruct (Z.even (m + 1)) eqn:Ev; [reflexivity|]. exfalso.
    (* m + 1 odd: m = 2 k with k >= 1, and the logarithms agree *)
    assert (Hodd : Z.odd (m + 1) = true) by (rewrite <- Z.negb_even, Ev; reflexivity).
    apply Z.odd_spec in Hodd. destruct Hodd as [k Hk].
    assert (Hk0 : 0 < k) by lia.
    assert (Em : m = 2 * k) by lia. subst m.
    rewrite Z.log2_succ_double, Z.log2_double in E by lia. lia.
  - left. lia.
Qed.

Lemma round_nearest_even_spec (m : Z) (l : location) (N D : Z) :
  0 < D -> located m l N D ->
  m <= round_nearest_even m l <= m + 1
  /\ 2 * round_nearest_even m l * D - D <= 2 * N
     <= 2 * round_nearest_even m l * D + D.
Proof.
  intros HD H. destruct l as [|[]]; cbn [round_nearest_even located] in *.
  - lia.
  - destruct (Z.even m); lia.
  - lia.
  - lia.
Qed.

Lemma new_location_located (d q r : Z) :
  0 < d -> 0 <= r < d -> located q (new_location d r) (q * d + r) d.
Proof.
  intros Hd Hr. unfold new_location.
  destruct (Z.even d) eqn:Ev.
  - unfold new_location_even. destruct (Z.eqb_spec r 0) as [->|Hn];
      [cbn [located]; lia|].
    destruct (Z.compare_spec (2 * r) d); cbn [located]; lia.
  - unfold new_location_odd. destruct (Z.eqb_spec r 0) as [->|Hn];
      [cbn [located]; lia|].
    assert (Hodd : Z.odd d = true) by (rewrite <- Z.negb_even, Ev; reflexivity).
    apply Z.odd_spec in Hodd. destruct Hodd as [k Hk].
    destruct (Z.compare_spec (2 * r + 1) d); cbn [located]; lia.
Qed.

Lemma fexp_binary64 (e : Z) : fexp 53 1024 e = Z.max (e - 53) (-1074).
Proof. reflexivity. Qed.

Lemma shr_spec (mrs : shr_record) (e n N D : Z) :
  0 <= shr_m mrs -> 0 < D ->
  located (shr_m mrs) (loc_of_shr_record mrs) N D ->
  exists mrs',
    shr mrs e n = (mrs', e + Z.max 0 n)
    /\ located (shr_m mrs') (loc_of_shr_record mrs') N (2 ^ Z.max 0 n * D)
    /\ shr_m mrs' = shr_m mrs / 2 ^ Z.max 0 n.
Proof.
  intros Hm HD H. destruct n as [|p|p]; cbn [shr].
  - exists mrs. change (Z.max 0 0) with 0. rewrite Z.add_0_r, Z.pow_0_r, Z.mul_1_l, Z.div_1_r.
    auto.
  - exists (iter_pos shr_1 p mrs). replace (Z.max 0 (Z.pos p)) with (Z.pos p) by lia.
    split; [reflexivity|]. now apply iter_pos_shr_located.
  - exists mrs. replace (Z.max 0 (Z.neg p)) with 0 by lia.
    rewrite Z.add_0_r, Z.pow_0_r, Z.mul_1_l, Z.div_1_r. auto.
Qed.

Lemma binary_round_aux_spec (s : bool) (mx ex : Z) (lx : location) (N D : Z) :
  0 <= mx -> 0 < D -> located mx lx N D ->
  let K := Z.max 0 (fexp 53 1024 (Zdigits2 mx + ex) - ex) in
  exists mr : Z,
    0 <= mr
    /\ 2 * mr * (2 ^ K * D) - 2 ^ K * D <= 2 * N
       <= 2 * mr * (2 ^ K * D) + 2 ^ K * D
    /\ match binary_round_aux 53 1024 s mx ex lx with
       | S754_zero s' => s' = s /\ mr = 0
       | S754_finite s' m e =>
         s' = s
         /\ (e = ex + K /\ Z.pos m = mr \/ e = ex + K + 1 /\ 2 * Z.pos m = mr)
       | S754_infinity s' => True
       | S754_nan => False
       end.
Proof.
  intros Hmx HD H K.
  unfold binary_round_aux, shr_fexp.
  destruct (loc_of_record_of mx lx) as [El Em].
  destruct (shr_spec (shr_record_of_loc mx lx) ex
              (fexp 53 1024 (Zdigits2 mx + ex) - ex) N D)
    as [mrs1 [E1 [H1 M1]]]; [rewrite Em; exact Hmx | exact HD | rewrite El, Em; exact H |].
  fold K in E1, H1, M1. rewrite Em in M1. rewrite E1.
  assert (EK : K = Z.max 0 (Z.max (Zdigits2 mx + ex - 53) (-1074) - ex))
    by (subst K; rewrite fexp_binary64; reflexivity).
  clearbody K.
  assert (PK : 0 < 2 ^ K) by (apply Z.pow_pos_nonneg; lia).
  assert (Hm1 : 0 <= shr_m mrs1) by (rewrite M1; apply Z.div_pos; lia).
  destruct (round_nearest_even_spec (shr_m mrs1) (loc_of_shr_record mrs1) N (2 ^ K * D))
    as [Hr Hb]; [nia | exact H1 |].
  set (mr := round_nearest_even (shr_m mrs1) (loc_of_shr_record mrs1)) in *.
  clearbody mr.
  exists mr. split; [lia|]. split; [exact Hb|].
  (* the digits of the shifted mantissa fit the exponent *)
  assert (Hd1 : Zdigits2 (shr_m mrs1) <= Z.max 0 (Zdigits2 mx - K)).
  { rewrite M1. destruct (Z.eq_dec mx 0) as [->|Hn].
    - rewrite Z.div_0_l by lia. cbn [Zdigits2]. lia.
    - apply Zdigits2_shift; lia. }
  assert (Hd0 : Zdigits2 (shr_m mrs1) <= Zdigits2 mx).
  { rewrite M1. apply Zdigits2_le. split; [apply Z.div_pos; lia|].
    apply Z.div_le_upper_bound; [lia|]. nia. }
  pose proof (Zdigits2_nonneg (shr_m mrs1)) as Hd1'.
  pose proof (Zdigits2_nonneg mx) as Hdx.
  assert (Hn2 : fexp 53 1024 (Zdigits2 mr + (ex + K)) - (ex + K) <= 0
                \/ (fexp 53 1024 (Zdigits2 mr + (ex + K)) - (ex + K) = 1
                    /\ Z.even mr = true)).
  { rewrite !fexp_binary64 in *.
    destruct (Z.eq_dec mr (shr_m mrs1)) as [Emr|Hne]; [left; rewrite Emr; lia|].
    assert (Emr : mr = shr_m mrs1 + 1) by lia.
    destruct (Zdigits2_succ (shr_m mrs1) Hm1) as [Ed|[Ed [E0|Ev]]];
      rewrite <- Emr in Ed.
    - left. lia.
    - left. assert (E1' : Zdigits2 mr = 1) by (rewrite Emr, E0; reflexivity).
      rewrite E0 in Hd1. lia.
    - rewrite <- Emr in Ev.
      destruct (Z_le_gt_dec (Z.max (Zdigits2 mr + (ex + K) - 53) (-1074) - (ex + K)) 0)
        as [Hle|Hgt]; [now left|].
      right. split; [lia | exact Ev]. }
  destruct (shr_spec (shr_record_of_loc mr loc_Exact) (ex + K)
              (fexp 53 1024 (Zdigits2 mr + (ex + K)) - (ex + K)) mr 1)
    as [mrs2 [E2 [H2 M2]]]; [cbn [shr_record_of_loc shr_m]; lia | lia
                            | cbn [shr_record_of_loc shr_m loc_of_shr_record located]; lia |].
  rewrite E2. cbn [shr_record_of_loc shr_m] in M2.
  destruct Hn2 as [Hle|[Hone Hev]].
  - replace (Z.max 0 (fexp 53 1024 (Zdigits2 mr + (ex + K)) - (ex + K))) with 0 in * by lia.
    rewrite Z.pow_0_r, Z.div_1_r in M2. rewrite Z.add_0_r. rewrite M2.
    destruct mr as [|m|m]; [auto | | lia].
    destruct (ex + K <=? 1024 - 53)%Z; [|exact I].
    split; [reflexivity|]. left. split; reflexivity.
  - rewrite Hone in *. change (Z.max 0 1) with 1 in *. change (2 ^ 1) with 2 in M2.
    assert (E : mr = 2 * shr_m mrs2).
    { rewrite M2. apply Z.even_spec in Hev. destruct Hev as [k ->].
      rewrite Z.mul_comm, Z.div_mul by lia. ring. }
    destruct (shr_m mrs2) as [|m|m]; [split; [reflexivity | lia] | | lia].
    destruct (ex + K + 1 <=? 1024 - 53)%Z; [|exact I].
    split; [reflexivity|]. right. split; [reflexivity | lia].
Qed.

Lemma shift_magnitude (mx ex N D K : Z) :
  0 <= mx -> 0 < D -> mx * D <= N ->
  K = Z.max 0 (fexp 53 1024 (Zdigits2 mx + ex) - ex) -> 0 < K ->
  ex + K = -1074 \/ 2 ^ K * D * 2 ^ 53 <= 2 * N.
Proof.
  intros Hmx HD HN EK HK. rewrite fexp_binary64 in EK.
  destruct (Z_le_gt_dec (Zdigits2 mx + ex - 53) (-1074)) as [Hs|Hn]; [left; lia|].
  right. assert (EK' : K = Zdigits2 mx - 53) by lia.
  assert (Hpos : 0 < mx).
  { destruct (Z.eq_dec mx 0) as [->|]; [cbn [Zdigits2] in *; lia | lia]. }
  destruct (Zdigits2_bounds mx Hpos) as [Hlo _].
  assert (E : 2 ^ K * 2 ^ 53 = 2 * 2 ^ (Zdigits2 mx - 1)).
  { rewrite <- Z.pow_add_r by lia. replace (K + 53) with (1 + (Zdigits2 mx - 1)) by lia.
    rewrite Z.pow_add_r by lia. reflexivity. }
  replace (2 ^ K * D * 2 ^ 53) with (2 ^ K * 2 ^ 53 * D) by ring. rewrite E. nia.
Qed.

Lemma SFdiv_core_spec (mx my : positive) (ex ey : Z) :
  exists q e' l s,
    SFdiv_core_binary 53 1024 (Z.pos mx) ex (Z.pos my) ey = (q, e', l)
    /\ 0 <= s /\ e' = ex - ey - s /\ 0 <= q
    /\ located q l (Z.pos mx * 2 ^ s) (Z.pos my)
    /\ e' <= fexp 53 1024 (Zdigits2 (Z.pos mx) + ex - (Zdigits2 (Z.pos my) + ey)).
Proof.
  unfold SFdiv_core_binary.
  set (e' := Z.min (fexp 53 1024 (Zdigits2 (Z.pos mx) + ex - (Zdigits2 (Z.pos my) + ey)))
                   (ex - ey)).
  set (s := ex - ey - e').
  assert (Hs : 0 <= s) by (subst s e'; lia).
  assert (Em : match s with
               | Z.pos _ => Z.shiftl (Z.pos mx) s
               | 0 => Z.pos mx
               | Z.neg _ => 0
               end = Z.pos mx * 2 ^ s).
  { destruct s as [|p|p]; [rewrite Z.pow_0_r; ring | | lia].
    now rewrite Z.shiftl_mul_pow2 by lia. }
  rewrite Em.
  assert (Hp : 0 < 2 ^ s) by (apply Z.pow_pos_nonneg; lia).
  pose proof (Z_div_mod (Z.pos mx * 2 ^ s) (Z.pos my) ltac:(lia)) as Hdiv.
  destruct (Z.div_eucl (Z.pos mx * 2 ^ s) (Z.pos my)) as [q r].
  destruct Hdiv as [Eq Hr].
  exists q, e', (new_location (Z.pos my) r), s.
  split; [reflexivity|]. split; [exact Hs|]. split; [subst s; lia|].
  assert (Hq : 0 <= q) by nia.
  split; [exact Hq|]. split.
  - rewrite Eq. replace (Z.pos my * q + r) with (q * Z.pos my + r) by ring.
    apply new_location_located; lia.
  - subst e'. lia.
Qed.

Lemma quotient_magnitude (mx my : positive) (ex ey e' s : Z) :
  0 <= s -> e' = ex - ey - s ->
  e' <= fexp 53 1024 (Zdigits2 (Z.pos mx) + ex - (Zdigits2 (Z.pos my) + ey)) ->
  -1074 < e' ->
  Z.pos my * 2 ^ 53 <= 2 * (Z.pos mx * 2 ^ s).
Proof.
  intros Hs0 Ee Hle Hgt. rewrite fexp_binary64 in Hle.
  destruct (Zdigits2_bounds (Z.pos mx) ltac:(lia)) as [Hx _].
  destruct (Zdigits2_bounds (Z.pos my) ltac:(lia)) as [_ Hy].
  pose proof (Zdigits2_log2 (Z.pos mx) ltac:(lia)) as L1.
  pose proof (Zdigits2_log2 (Z.pos my) ltac:(lia)) as L2.
  pose proof (Z.log2_nonneg (Z.pos mx)). pose proof (Z.log2_nonneg (Z.pos my)).
  set (d1 := Zdigits2 (Z.pos mx)) in *. set (d2 := Zdigits2 (Z.pos my)) in *.
  assert (Hs : d2 + 53 <= (d1 - 1) + s + 1) by lia.
  assert (Hpow : 2 ^ (d2 + 53) <= 2 ^ ((d1 - 1) + s + 1))
    by (apply Z.pow_le_mono_r; lia).
  rewrite !Z.pow_add_r in Hpow by lia. change (2 ^ 1) with 2 in Hpow.
  assert (P53 : 0 < 2 ^ 53) by (apply Z.pow_pos_nonneg; lia).
  assert (Ps : 0 < 2 ^ s) by (apply Z.pow_pos_nonneg; lia).
  assert (Pd : 0 < 2 ^ (d1 - 1)) by (apply Z.pow_pos_nonneg; lia).
  assert (H1 : Z.pos my * 2 ^ 53 <= 2 ^ d2 * 2 ^ 53) by nia.
  assert (H2 : 2 ^ (d1 - 1) * 2 ^ s * 2 <= Z.pos mx * 2 ^ s * 2) by nia.
  lia.
Qed.

(** The quotient of two finite Numbers: an integer [mr] at the exponent
    [e' + K], within half a unit of the exact quotient [mx 2^s / my] at
    exponent [e'], that unit being small against the quotient unless the
    exponent is the least one. *)
Lemma SFdiv_finite_spec (sx sy : bool) (mx my : positive) (ex ey : Z) :
  exists (mr e' K s : Z),
    0 <= s /\ 0 <= K /\ 0 <= mr /\ e' = ex - ey - s
    /\ 2 * mr * (2 ^ K * Z.pos my) - 2 ^ K * Z.pos my
       <= 2 * (Z.pos mx * 2 ^ s)
       <= 2 * mr * (2 ^ K * Z.pos my) + 2 ^ K * Z.pos my
    /\ (e' + K = -1074 \/ 2 ^ K * Z.pos my * 2 ^ 53 <= 2 * (Z.pos mx * 2 ^ s))
    /\ match SFdiv 53 1024 (S754_finite sx mx ex) (S754_finite sy my ey) with
       | S754_zero s' => s' = xorb sx sy /\ mr = 0
       | S754_finite s' m e =>
         s' = xorb sx sy
         /\ (e = e' + K /\ Z.pos m = mr \/ e = e' + K + 1 /\ 2 * Z.pos m = mr)
       | S754_infinity s' => True
       | S754_nan => False
       end.
Proof.
  cbn [SFdiv].
  destruct (SFdiv_core_spec mx my ex ey) as [q [e' [l [s [Ec [Hs [Ee [Hq [Hl Hle]]]]]]]]].
  rewrite Ec.
  destruct (binary_round_aux_spec (xorb sx sy) q e' l (Z.pos mx * 2 ^ s) (Z.pos my)
              Hq (Pos2Z.is_pos my) Hl)
    as [mr [Hmr [Hb Hres]]].
  set (K := Z.max 0 (fexp 53 1024 (Zdigits2 q + e') - e')) in *.
  assert (EK : K = Z.max 0 (fexp 53 1024 (Zdigits2 q + e') - e')) by reflexivity.
  clearbody K.
  exists mr, e', K, s.
  split; [exact Hs|]. split; [lia|]. split; [exact Hmr|]. split; [exact Ee|].
  split; [exact Hb|]. split; [|exact Hres].
  destruct (Z_lt_le_dec 0 K) as [HK|HK].
  - destruct (located_bounds _ _ _ _ (Pos2Z.is_pos my) Hl) as [Hlo _].
    exact (shift_magnitude q e' _ _ K Hq (Pos2Z.is_pos my) Hlo EK HK).
  - assert (K0 : K = 0) by lia. subst K. rewrite K0.
    rewrite fexp_binary64 in K0.
    destruct (Z.eq_dec e' (-1074)) as [E|E]; [left; lia|]. right.
    rewrite Z.pow_0_r, Z.mul_1_l.
    apply (quotient_magnitude mx my ex ey e' s Hs Ee Hle). lia.
Qed.

End Shifts.

Section Quotients.
Local Open Scope Q_scope.

Lemma half_unit_bound (sg T a P n d w tiny : Q) :
  (sg == 1 \/ sg == -1) -> 0 < T -> 0 < d -> 0 <= n -> 0 <= P -> 0 < w -> 0 <= tiny ->
  2 * a * (P * d) - P * d <= 2 * n ->
  2 * n <= 2 * a * (P * d) + P * d ->
  (T * P == 2 * tiny \/ P * d * w <= 2 * n) ->
  Qabs (sg * a * P * T - sg * (n / d) * T) <= Qabs (sg * (n / d) * T) * (1 / w) + tiny.
Proof.
  intros Hsg HT Hd Hn HP Hw Ht Hlo Hhi Hmag.
  assert (Ev : n / d * d == n) by (field; lra).
  assert (Hv : 0 <= n / d).
  { apply Qle_shift_div_l; [exact Hd | lra]. }
  set (v := n / d) in *. clearbody v.
  assert (Hu1 : a * P - v <= P * (1 # 2)) by nra.
  assert (Hu2 : - (P * (1 # 2)) <= a * P - v) by nra.
  assert (Hvt : v * T <= Qabs (sg * v * T)).
  { destruct Hsg as [E|E].
    - assert (E' : sg * v * T == v * T) by (rewrite E; ring).
      rewrite E'. apply Qle_Qabs.
    - assert (E' : sg * v * T == - (v * T)) by (rewrite E; ring).
      rewrite E', Qabs_opp. apply Qle_Qabs. }
  assert (Hbound : T * P * (1 # 2) <= v * T * (1 / w) + tiny).
  { assert (Hw' : 0 < 1 / w) by (apply Qlt_shift_div_l; lra).
    assert (Ew : 1 / w * w == 1) by (field; lra).
    set (c := 1 / w) in *. clearbody c.
    assert (Hvt0 : 0 <= v * T) by nra.
    destruct Hmag as [E|E].
    - assert (0 <= v * T * c) by nra. lra.
    - assert (Hpw : P * w <= 2 * v) by nra.
      assert (Hp : P <= 2 * v * c).
      { assert (P * w * c <= 2 * v * c) by nra. nra. }
      nra. }
  assert (Herr : Qabs (sg * a * P * T - sg * v * T) <= T * P * (1 # 2)).
  { apply Qabs_Qle_condition. destruct Hsg as [E|E].
    - assert (E' : sg * a * P * T - sg * v * T == T * (a * P - v)) by (rewrite E; ring).
      rewrite E'. split; nra.
    - assert (E' : sg * a * P * T - sg * v * T == - (T * (a * P - v))) by (rewrite E; ring).
      rewrite E'. split; nra. }
  assert (Hc : 0 <= 1 / w) by (apply Qle_shift_div_l; lra).
  assert (Hmono : v * T * (1 / w) <= Qabs (sg * v * T) * (1 / w)).
  { apply Qmult_le_compat_r; assumption. }
  lra.
Qed.

Lemma sign_of_cases (s : bool) : sign_of s == 1 \/ sign_of s == -1.
Proof. destruct s; [right | left]; reflexivity. Qed.

Lemma sign_of_xorb (a b : bool) : sign_of (xorb a b) == sign_of a * sign_of b.
Proof. destruct a, b; reflexivity. Qed.

Lemma R_finite (s : bool) (m : positive) (e : Z) :
  R_ (S754_finite s m e) == sign_of s * inject_Z (Z.pos m) * (2 # 1) ^ e.
Proof.
  unfold R_, sign_of. destruct s; cbn [cond_Zopp].
  - change (- Z.pos m)%Z with (Z.opp (Z.pos m)). rewrite inject_Z_opp. ring.
  - ring.
Qed.

Lemma two_not_0 : ~ (2 # 1) == 0.
Proof. discriminate. Qed.

Lemma pow2_inject (k : Z) : (0 <= k)%Z -> inject_Z (2 ^ k) == (2 # 1) ^ k.
Proof. intros Hk. now rewrite Zpower_Qpower. Qed.

Lemma least_half_unit (e : Z) :
  e = (-1074)%Z -> (2 # 1) ^ e == 2 * (1 # 2) ^ 1075.
Proof.
  intros ->. change (-1074)%Z with (1 - 1075)%Z.
  rewrite Qpower_minus by exact two_not_0.
  change (1 # 2) with (/ (2 # 1)). rewrite Qinv_power.
  generalize ((2 # 1) ^ 1075). intros t. reflexivity.
Qed.

(** Division of finite Numbers is accurate to half a unit in the last place:
    the error is at most [2^-53] of the quotient, or [2^-1075] where the
    result is subnormal. *)
Lemma Number_divide_accurate (sx sy : bool) (mx my : positive) (ex ey : Z) :
  let x := S754_finite sx mx ex in
  let y := S754_finite sy my ey in
  is_finite (Number_divide x y) = true ->
  Qabs (R_ (Number_divide x y) - R_ x / R_ y)
  <= Qabs (R_ x / R_ y) * (1 / inject_Z (2 ^ 53)) + (1 # 2) ^ 1075.
Proof.
  intros x y Hf. subst x y. unfold Number_divide in *.
  destruct (SFdiv_finite_spec sx sy mx my ex ey)
    as [mr [e' [K [s [Hs [HK [Hmr [Ee [[Hlo Hhi] [Hmag Hres]]]]]]]]]].
  set (T := (2 # 1) ^ e').
  assert (HT : 0 < T) by (apply Qpower_0_lt; reflexivity).
  assert (PK : (0 < 2 ^ K)%Z) by (apply Z.pow_pos_nonneg; lia).
  assert (Ps : (0 < 2 ^ s)%Z) by (apply Z.pow_pos_nonneg; lia).
  assert (P53 : (0 < 2 ^ 53)%Z) by (apply Z.pow_pos_nonneg; lia).
  (* the result *)
  assert (Eq : R_ (SFdiv 53 1024 (S754_finite sx mx ex) (S754_finite sy my ey))
               == sign_of (xorb sx sy) * inject_Z mr * inject_Z (2 ^ K) * T).
  { destruct (SFdiv 53 1024 (S754_finite sx mx ex) (S754_finite sy my ey))
      as [s'|s'| |s' m e]; [| discriminate Hf | contradiction |].
    - destruct Hres as [_ ->]. cbn [R_]. ring.
    - destruct Hres as [-> [[-> <-]|[-> <-]]]; rewrite R_finite.
      + rewrite Qpower_plus by exact two_not_0. rewrite (pow2_inject K HK).
        fold T. ring.
      + rewrite !Qpower_plus by exact two_not_0. rewrite (pow2_inject K HK).
        fold T. rewrite inject_Z_mult. change (inject_Z 2) with (2 # 1).
        rewrite Qpower_1_r. ring. }
  (* the exact quotient *)
  assert (Ev : R_ (S754_finite sx mx ex) / R_ (S754_finite sy my ey)
               == sign_of (xorb sx sy)
                  * (inject_Z (Z.pos mx * 2 ^ s) / inject_Z (Z.pos my)) * T).
  { rewrite !R_finite, sign_of_xorb.
    replace ex with (e' + s + ey)%Z by lia.
    rewrite !Qpower_plus by exact two_not_0. fold T.
    rewrite inject_Z_mult, (pow2_inject s Hs).
    assert (Hy : 0 < (2 # 1) ^ ey) by (apply Qpower_0_lt; reflexivity).
    assert (Hmy : 0 < inject_Z (Z.pos my)) by (rewrite <- (Zlt_Qlt 0); lia).
    generalize dependent ((2 # 1) ^ ey). generalize ((2 # 1) ^ s).
    generalize dependent (inject_Z (Z.pos my)). generalize (inject_Z (Z.pos mx)).
    clearbody T. intros a d Hd S Y HY.
    destruct sx, sy; unfold sign_of; field; split; lra. }
  rewrite Eq, Ev.
  apply half_unit_bound.
  - apply sign_of_cases.
  - exact HT.
  - rewrite <- (Zlt_Qlt 0). lia.
  - rewrite <- (Zle_Qle 0). nia.
  - rewrite <- (Zle_Qle 0). lia.
  - rewrite <- (Zlt_Qlt 0). exact P53.
  - apply Qlt_le_weak. apply Qpower_0_lt. reflexivity.
  - rewrite Zle_Qle in Hlo.
    unfold Z.sub in Hlo. rewrite inject_Z_plus, inject_Z_opp, !inject_Z_mult in Hlo.
    change (inject_Z 2) with 2 in Hlo. rewrite inject_Z_mult. exact Hlo.
  - rewrite Zle_Qle in Hhi.
    rewrite inject_Z_plus, !inject_Z_mult in Hhi.
    change (inject_Z 2) with 2 in Hhi. rewrite inject_Z_mult. exact Hhi.
  - destruct Hmag as [E|E].
    + left. unfold T. rewrite (pow2_inject K HK).
      rewrite <- Qpower_plus by exact two_not_0. now apply least_half_unit.
    + right. rewrite Zle_Qle in E. rewrite !inject_Z_mult in E.
      change (inject_Z 2) with 2 in E. rewrite inject_Z_mult. exact E.
Qed.

Lemma R_num_1000 : R_ (num 1000) == 1000 # 1.
Proof. vm_compute. reflexivity. Qed.

Lemma half_ulp_binary64 : 1 / inject_Z (2 ^ 53) == 1 # 9007199254740992.
Proof. reflexivity. Qed.

(** Metres to kilometres. *)
Lemma divide_by_1000 (v : number) :
  number_truthy v = true ->
  is_finite (Number_divide v (num 1000)) = true ->
  Qabs (R_ (Number_divide v (num 1000)) - R_ v / (1000 # 1))
  <= Qabs (R_ v / (1000 # 1)) * (1 # 9007199254740992) + (1 # 2) ^ 1075.
Proof.
  intros Ht Hf. destruct v as [s|s| |s m e]; try discriminate.
  assert (En : num 1000 = S754_finite false 8796093022208000 (-43)) by reflexivity.
  pose proof R_num_1000 as E1000. rewrite En in *.
  pose proof (Number_divide_accurate s false m 8796093022208000 e (-43) Hf) as Hacc.
  cbv zeta in Hacc. rewrite half_ulp_binary64 in Hacc.
  revert Hacc E1000.
  generalize (R_ (Number_divide (S754_finite s m e)
                    (S754_finite false 8796093022208000 (-43)))).
  generalize (R_ (S754_finite false 8796093022208000 (-43))).
  generalize (R_ (S754_finite s m e)). generalize ((1 # 2) ^ 1075).
  intros tiny x y q Hacc E. rewrite E in Hacc. exact Hacc.
Qed.

End Quotients.

(* ===================================================================== *)
(** * Presenter: numbers with one decimal *)
(* ===================================================================== *)

Lemma decimal_digit (d : N) : (d < 10)%N -> decimal d = [(48 + d)%N].
Proof.
  intros Hd.
  assert (E : (d = 0 \/ d = 1 \/ d = 2 \/ d = 3 \/ d = 4 \/ d = 5 \/ d = 6
               \/ d = 7 \/ d = 8 \/ d = 9)%N) by lia.
  repeat destruct E as [E|E]; subst; reflexivity.
Qed.

Lemma tenths_floor (a : Q) :
  0 <= a ->
  (0 <= tenths a)%Z /\ a - (1 # 20) < inject_Z (tenths a) / (10 # 1) <= a + (1 # 20).
Proof.
  intros Ha. unfold tenths.
  pose proof (Qfloor_le (a * (10 # 1) + (1 # 2))) as Hlo.
  pose proof (Qlt_floor (a * (10 # 1) + (1 # 2))) as Hhi.
  set (n := Qfloor (a * (10 # 1) + (1 # 2))) in *.
  assert (Hn : (0 <= n)%Z).
  { destruct (Z_lt_le_dec n 0) as [Hn|Hn]; [|assumption]. exfalso.
    assert (Hn' : (n + 1 <= 0)%Z) by lia.
    rewrite Zle_Qle, inject_Z_plus in Hn'. rewrite inject_Z_plus in Hhi.
    change (inject_Z 1) with 1 in *. change (inject_Z 0) with 0 in *. lra. }
  split; [exact Hn|]. rewrite inject_Z_plus in Hhi.
  change (inject_Z 1) with 1 in Hhi.
  unfold Qdiv. change (/ (10 # 1)) with (1 # 10).
  split; lra.
Qed.

(** [toFixed(1)] of a finite Number below [10^21]: with [n] the integer
    nearest to ten times the absolute value, the larger one of two, the text
    is the sign, the decimal of [n / 10], a point and the digit [n mod 10]. *)
Lemma toFixed1_rounds `{NumberToString} (x : number) :
  is_finite x = true -> Qabs (R_ x) < (10 # 1) ^ 21 ->
  exists n : Z,
    toFixed1 x
    = (if Qltb (R_ x) 0 then u16 "-" else [])
        ++ decimal (Z.to_N (n / 10)) ++ u16 "." ++ [(48 + Z.to_N (n mod 10))%N]
    /\ (0 <= n)%Z
    /\ Qabs (R_ x) - (1 # 20) < inject_Z n / (10 # 1) <= Qabs (R_ x) + (1 # 20).
Proof.
  intros Hf Hb. unfold toFixed1. rewrite Hf. cbn [negb].
  destruct (Qle_bool ((10 # 1) ^ 21) (Qabs (R_ x))) eqn:E.
  - apply Qle_bool_iff in E. exfalso. lra.
  - destruct (tenths_floor _ (Qabs_nonneg (R_ x))) as [Hn Hd].
    exists (tenths (Qabs (R_ x))).
    split; [|split; assumption].
    unfold fixed1.
    rewrite (@decimal_digit (Z.to_N (tenths (Qabs (R_ x)) mod 10))); [reflexivity|].
    pose proof (Z.mod_pos_bound (tenths (Qabs (R_ x))) 10). lia.
Qed.

(** The tenth that is shown for a visibility, against the visibility. *)
Lemma kilometres_shown (v : number) (n : Z) :
  number_truthy v = true ->
  is_finite (Number_divide v (num 1000)) = true ->
  Qabs (R_ (Number_divide v (num 1000))) - (1 # 20) < inject_Z n / (10 # 1)
    <= Qabs (R_ (Number_divide v (num 1000))) + (1 # 20) ->
  Qabs (R_ (Number_divide v (num 1000)) - R_ v / (1000 # 1))
  <= Qabs (R_ v / (1000 # 1)) * (1 # 9007199254740992) + (1 # 2) ^ 1075
  /\ Qabs (inject_Z n / (10 # 1) - Qabs (R_ v / (1000 # 1)))
     <= (1 # 20) + Qabs (R_ v / (1000 # 1)) * (1 # 9007199254740992) + (1 # 2) ^ 1075.
Proof.
  intros Ht Hf Hn. pose proof (divide_by_1000 v Ht Hf) as Hacc.
  split; [exact Hacc|].
  revert Hn Hacc. generalize (R_ (Number_divide v (num 1000))).
  generalize (R_ v / (1000 # 1)). generalize ((1 # 2) ^ 1075).
  generalize (inject_Z n / (10 # 1)). intros t tiny x q Hn Hacc.
  pose proof (Qabs_triangle_reverse q x) as H1.
  pose proof (Qabs_triangle_reverse x q) as H2.
  assert (E : Qabs (x - q) == Qabs (q - x)).
  { rewrite <- (Qabs_opp (q - x)). apply Qabs_wd. ring. }
  rewrite E in H2.
  apply Qabs_Qle_condition. split; lra.
Qed.


(* ===================================================================== *)
(** * Presenter: current weather *)
(* ===================================================================== *)

Section CurrentWeatherLines.
Context `{NumberToString} `{DateFormat}.

Lemma startsWith_app (p s : jsstring) : startsWith p (p ++ s) = true.
Proof.
induction p as [|a p IH]; simpl; [reflexivity|].
unfold unit_eqb. now rewrite N.eqb_refl.
Qed.

Lemma filter_skip {A} (f : A -> bool) (x : A) (l : list A) :
f x = false -> filter f (x :: l) = filter f l.
Proof. intros E. simpl. now rewrite E. Qed.

Lemma filter_keep {A} (f : A -> bool) (x : A) (l : list A) :
f x = true -> filter f (x :: l) = x :: filter f l.
Proof. intros E. simpl. now rewrite E. Qed.

Lemma existsb_filter {A} (f : A -> bool) (l : list A) :
existsb f l = match filter f l with [] => false | _ :: _ => true end.
Proof.
induction l as [|x l IH]; simpl; [reflexivity|].
destruct (f x); simpl; [reflexivity | assumption].
Qed.

Ltac sift :=
repeat first
  [ rewrite filter_skip by (vm_compute; reflexivity)
  | rewrite filter_keep by apply startsWith_app ];
cbn [filter].

Lemma displayCurrentWeather_lines (data : CurrentWeather) (st : Session) :
exists lines,
  displayCurrentWeather data st = (Normal tt, logged_all st lines)
  /\ filter is_visibility_line lines
     = match cw_visibility data with
       | Some v =>
         if number_truthy v
         then [visibility_label ++ toFixed1 (Number_divide v (num 1000))
               ++ u16 " km"]
         else []
       | None => []
       end.
Proof.
unfold displayCurrentWeather.
destruct (cw_visibility data) as [v|] eqn:Ev;
  [destruct (number_truthy v) eqn:Et|].
- eexists [_; _; _; _; _; _; _; _; _; _; _; _]. split; [reflexivity|].
  unfold is_visibility_line. sift. reflexivity.
- eexists [_; _; _; _; _; _; _; _; _; _; _]. split; [reflexivity|].
  unfold is_visibility_line. sift. reflexivity.
- eexists [_; _; _; _; _; _; _; _; _; _; _]. split; [reflexivity|].
  unfold is_visibility_line. sift. reflexivity.
Qed.

(** C9: [displayCurrentWeather] logs a visibility line exactly when the
  [visibility] field is there and truthy (a Number other than [+0], [-0]
  and [NaN]); a visibility of zero gives no such line.  When the line is
  logged it is the only one, and it shows [visibility / 1000] through
  [toFixed(1)].  For a quotient [km] that is finite and below [10^21] the
  text is a sign, the decimal of [n / 10], a point and the digit [n mod 10],
  where [n] is the integer nearest to [10 |km|], the larger one of two; [km]
  is the visibility over 1000 up to the rounding of the division to a
  Number (2^-53 of the quotient, or 2^-1075); so what is shown is within
  0.05 of the visibility in kilometres, up to that rounding. *)
Theorem visibility_line_emitted (data : CurrentWeather) (st : Session) :
exists lines,
  displayCurrentWeather data st = (Normal tt, logged_all st lines)
  /\ (existsb is_visibility_line lines = true
      <-> exists v, cw_visibility data = Some v /\ number_truthy v = true)
  /\ (forall s, cw_visibility data = Some (S754_zero s) ->
                existsb is_visibility_line lines = false)
  /\ (forall v,
        cw_visibility data = Some v -> number_truthy v = true ->
        let km := Number_divide v (num 1000) in
        filter is_visibility_line lines
        = [visibility_label ++ toFixed1 km ++ u16 " km"]
        /\ (is_finite km = true -> Qabs (R_ km) < (10 # 1) ^ 21 ->
            exists n : Z,
              toFixed1 km
              = (if Qltb (R_ km) 0 then u16 "-" else [])
                  ++ decimal (Z.to_N (n / 10)) ++ u16 "."
                  ++ [(48 + Z.to_N (n mod 10))%N]
              /\ (0 <= n)%Z
              /\ Qabs (R_ km) - (1 # 20) < inject_Z n / (10 # 1)
                 <= Qabs (R_ km) + (1 # 20)
              /\ Qabs (R_ km - R_ v / (1000 # 1))
                 <= Qabs (R_ v / (1000 # 1)) * (1 # 9007199254740992)
                    + (1 # 2) ^ 1075
              /\ Qabs (inject_Z n / (10 # 1) - Qabs (R_ v / (1000 # 1)))
                 <= (1 # 20) + Qabs (R_ v / (1000 # 1)) * (1 # 9007199254740992)
                    + (1 # 2) ^ 1075)).
Proof.
destruct (displayCurrentWeather_lines data st) as [lines [Erun Evis]].
exists lines. split; [assumption|].
rewrite existsb_filter, Evis.
split; [|split].
- destruct (cw_visibility data) as [v|]; [destruct (number_truthy v) eqn:Et|].
  + split; [intros _; now exists v | reflexivity].
  + split; [discriminate | intros [v' [E Ht]]; congruence].
  + split; [discriminate | intros [v' [E Ht]]; congruence].
- intros s E. now rewrite E.
- intros v E Ht km. rewrite E, Ht. split; [reflexivity|].
  intros Hf Hb.
  destruct (toFixed1_rounds km Hf Hb) as [n [Etext [Hn Hnear]]].
  exists n. split; [exact Etext|]. split; [exact Hn|]. split; [exact Hnear|].
  exact (kilometres_shown v n Ht Hf Hnear).
Qed.
End CurrentWeatherLines.

(* ===================================================================== *)
(** * Objects as maps in insertion order *)
(* ===================================================================== *)

Section ObjectFacts.
Variable V : Type.
Implicit Types (o : object V) (k : jsstring).

Lemma own_None o k : own o k = None <-> ~ In k (keys o).
Proof.
  induction o as [|[k' v] o IH]; simpl; [tauto|].
  destruct (str_eqb k' k) eqn:E.
  - apply str_eqb_eq in E. split; [discriminate | tauto].
  - apply str_eqb_neq in E. rewrite IH. tauto.
Qed.

Lemma own_In o k v : own o k = Some v -> In (k, v) o.
Proof.
  induction o as [|[k' v'] o IH]; simpl; [discriminate|].
  destruct (str_eqb k' k) eqn:E.
  - apply str_eqb_eq in E. intros [= <-]. subst. now left.
  - intros Ho. right. now apply IH.
Qed.

Lemma In_own o k v : NoDup (keys o) -> In (k, v) o -> own o k = Some v.
Proof.
  induction o as [|[k' v'] o IH]; simpl; [tauto|].
  intros Hnd [E|Hin]; inversion Hnd; subst.
  - injection E as -> ->. now rewrite str_eqb_refl.
  - destruct (str_eqb k' k) eqn:E.
    + apply str_eqb_eq in E. subst. exfalso.
      apply H1. change k with (fst (k, v)). now apply in_map.
    + now apply IH.
Qed.

Lemma keys_mutate o k f : keys (mutate o k f) = keys o.
Proof.
  induction o as [|[k' v'] o IH]; simpl; [reflexivity|].
  destruct (str_eqb k' k); simpl; [reflexivity | now rewrite IH].
Qed.

Lemma own_mutate o k f k' :
  own (mutate o k f) k'
  = if str_eqb k k' then option_map f (own o k) else own o k'.
Proof.
  induction o as [|[k0 v0] o IH]; simpl.
  - now destruct (str_eqb k k').
  - destruct (str_eqb k0 k) eqn:E0; simpl.
    + apply str_eqb_eq in E0. subst k0.
      destruct (str_eqb k k'); reflexivity.
    + destruct (str_eqb k0 k') eqn:E1.
      * apply str_eqb_eq in E1. subst k0.
        apply str_eqb_neq in E0.
        assert (E : str_eqb k k' = false) by (apply str_eqb_neq; congruence).
        now rewrite E.
      * apply IH.
Qed.

Lemma own_app o k v k' :
  own (o ++ [(k, v)]) k'
  = match own o k' with
    | Some b => Some b
    | None => if str_eqb k k' then Some v else None
    end.
Proof.
  induction o as [|[k0 v0] o IH]; simpl; [reflexivity|].
  destruct (str_eqb k0 k'); [reflexivity | apply IH].
Qed.

Lemma create_plain o k v : plain_key k = true -> create o k v = o ++ [(k, v)].
Proof.
  unfold plain_key, create. destruct (array_index k); [discriminate | reflexivity].
Qed.

Lemma Get_plain o k :
  plain_key k = true ->
  Get o k = match own o k with Some v => Own v | None => Absent end.
Proof.
  unfold plain_key, Get. destruct (array_index k); [discriminate|].
  destruct (own o k); [reflexivity|].
  now destruct (inherited k).
Qed.

End ObjectFacts.

(* ===================================================================== *)
(** * Forecast aggregator *)
(* ===================================================================== *)

Lemma includes_cons (x y : jsstring) (l : list jsstring) :
  includes (y :: l) x = str_eqb x y || includes l x.
Proof. reflexivity. Qed.

Lemma first_seen_In (ks : list jsstring) (k : jsstring) :
  In k (first_seen ks) <-> In k ks.
Proof.
  induction ks as [|k0 ks IH]; simpl; [tauto|].
  rewrite filter_In, IH, negb_true_iff, str_eqb_neq.
  destruct (list_eq_dec N.eq_dec k0 k) as [E|E]; [tauto|].
  split; [tauto|]. intros [F|Hin]; [tauto|]. right. split; [assumption|congruence].
Qed.

Lemma first_seen_NoDup (ks : list jsstring) : NoDup (first_seen ks).
Proof.
  induction ks as [|k0 ks IH]; simpl; constructor.
  - rewrite filter_In, negb_true_iff, str_eqb_neq. tauto.
  - now apply NoDup_filter.
Qed.

Lemma first_seen_snoc (ks : list jsstring) (k : jsstring) :
  first_seen (ks ++ [k])
  = if includes ks k then first_seen ks else first_seen ks ++ [k].
Proof.
  induction ks as [|k0 ks IH]; [reflexivity|].
  simpl app. cbn [first_seen]. rewrite IH, includes_cons.
  destruct (includes ks k); [now rewrite orb_true_r|].
  rewrite orb_false_r, filter_app. cbn [filter].
  destruct (str_eqb k k0); cbn [negb]; [now rewrite app_nil_r | reflexivity].
Qed.

Lemma forEach_snoc {S A} (f : S -> A -> completion S) (s : S) (l : list A) (x : A) :
  forEach f s (l ++ [x])
  = match forEach f s l with
    | Normal s' => f s' x
    | Throw e => Throw e
    end.
Proof.
  revert s; induction l as [|y l IH]; intros s; simpl.
  - now destruct (f s x).
  - destruct (f s y); [apply IH | reflexivity].
Qed.

Section ObjectFacts2.
Variable V : Type.
Implicit Types (o : object V) (k : jsstring).

Lemma mutate_fresh o k v f :
  own o k = None -> mutate (o ++ [(k, v)]) k f = o ++ [(k, f v)].
Proof.
  induction o as [|[k0 v0] o IH]; simpl.
  - intros _. now rewrite str_eqb_refl.
  - destruct (str_eqb k0 k); [discriminate|]. intros Ho. now rewrite IH.
Qed.
End ObjectFacts2.

Section Grouping.
Context `{DateFormat}.
Hypothesis date_keys_plain : forall t, plain_key (toLocaleDateString_jaJP t) = true.

Lemma dateKey_plain (item : ForecastItem) : plain_key (dateKey_of item) = true.
Proof. apply date_keys_plain. Qed.

Lemma samples_snoc (items : list ForecastItem) (x : ForecastItem) (k : jsstring) :
  samples (items ++ [x]) k
  = samples items k ++ (if str_eqb (dateKey_of x) k then [x] else []).
Proof. unfold samples. now rewrite filter_app. Qed.

Lemma samples_nil (items : list ForecastItem) (k : jsstring) :
  ~ In k (map dateKey_of items) -> samples items k = [].
Proof.
  unfold samples. induction items as [|y items IH]; simpl; [reflexivity|].
  intros Hn. destruct (str_eqb (dateKey_of y) k) eqn:E.
  - apply str_eqb_eq in E. tauto.
  - apply IH. tauto.
Qed.

Lemma push_temp_bucket (k : jsstring) (first x : ForecastItem)
  (later : list ForecastItem) :
  push_temp (fi_main_temp x) (bucket k first later) = bucket k first (later ++ [x]).
Proof.
  unfold push_temp, bucket, push. simpl. now rewrite map_app.
Qed.

Lemma group_by_day_invariant (items : list ForecastItem) :
  exists daily,
    group_by_day items = Normal daily
    /\ keys daily = first_seen (map dateKey_of items)
    /\ (forall k b, own daily k = Some b ->
          exists first later,
            samples items k = first :: later /\ b = bucket k first later).
Proof.
  induction items as [|x items IH] using rev_ind.
  - exists []. repeat split. intros k b. discriminate.
  - destruct IH as [daily [Erun [Ekeys Hbuckets]]].
    unfold group_by_day in *. rewrite forEach_snoc, Erun.
    unfold group_item. rewrite Get_plain by apply dateKey_plain.
    set (kx := dateKey_of x).
    rewrite map_app. cbn [map]. fold kx. rewrite first_seen_snoc.
    destruct (own daily kx) as [b0|] eqn:Eown.
    + (* a further sample of a day already seen *)
      eexists. split; [reflexivity|]. split.
      * rewrite keys_mutate, Ekeys.
        assert (Hin : In kx (map dateKey_of items)).
        { apply first_seen_In. rewrite <- Ekeys.
          destruct (in_dec (list_eq_dec N.eq_dec) kx (keys daily)) as [I|I];
            [assumption|]. apply own_None in I. congruence. }
        apply includes_In in Hin. now rewrite Hin.
      * intros k b. rewrite own_mutate, samples_snoc. fold kx.
        destruct (str_eqb kx k) eqn:Ek.
        -- apply str_eqb_eq in Ek. subst k. rewrite Eown. cbn [option_map].
           intros [= <-].
           destruct (Hbuckets kx b0 Eown) as [first [later [Es ->]]].
           exists first, (later ++ [x]). rewrite Es. split; [reflexivity|].
           apply push_temp_bucket.
        -- intros Ho. destruct (Hbuckets k b Ho) as [first [later [Es ->]]].
           exists first, later. now rewrite Es, app_nil_r.
    + (* the first sample of a new day *)
      assert (Hn : ~ In kx (map dateKey_of items)).
      { rewrite <- first_seen_In, <- Ekeys. now apply own_None. }
      rewrite create_plain by apply dateKey_plain.
      rewrite mutate_fresh by assumption.
      eexists. split; [reflexivity|]. split.
      * unfold keys. rewrite map_app. cbn [map fst]. fold (keys daily).
        rewrite Ekeys. apply includes_not_In in Hn. now rewrite Hn.
      * intros k b. rewrite own_app, samples_snoc. fold kx.
        destruct (own daily k) as [b'|] eqn:Ek.
        -- intros [= <-]. destruct (Hbuckets k b' Ek) as [first [later [Es ->]]].
           exists first, later.
           assert (E : str_eqb kx k = false).
           { apply str_eqb_neq. intros ->. congruence. }
           now rewrite E, Es, app_nil_r.
        -- destruct (str_eqb kx k) eqn:E; [|discriminate].
           apply str_eqb_eq in E. subst k. intros [= <-].
           exists x, []. rewrite samples_nil by assumption. split; reflexivity.
Qed.

End Grouping.

(* ===================================================================== *)
(** * Numbers: order, minimum and maximum *)
(* ===================================================================== *)

Lemma Qltb_false (a b : Q) : Qltb a b = false <-> b <= a.
Proof.
  unfold Qltb. rewrite negb_false_iff. apply Qle_bool_iff.
Qed.

Lemma Qltb_true (a b : Q) : Qltb a b = true <-> a < b.
Proof.
  unfold Qltb. rewrite negb_true_iff. split.
  - intros E. apply Qnot_le_lt. intros F. apply Qle_bool_iff in F. congruence.
  - intros L. destruct (Qle_bool b a) eqn:E; [|reflexivity].
    apply Qle_bool_iff in E. exfalso. apply (Qlt_not_le _ _ L E).
Qed.

Lemma lessThan_irrefl (x : number) : lessThan x x = false.
Proof.
  destruct x as [s|s| |s m e]; cbn [lessThan]; try reflexivity.
  all: try (now destruct s).
  all: apply Qltb_false; apply Qle_refl.
Qed.

Lemma lessThan_asym (x y : number) : lessThan x y = true -> lessThan y x = false.
Proof.
  destruct x as [sx|sx| |sx mx ex], y as [sy|sy| |sy my ey]; cbn [lessThan];
    try discriminate; try reflexivity;
    try (destruct sx; simpl; congruence);
    try (destruct sy; simpl; congruence);
    try (destruct sx, sy; simpl; congruence).
  all: rewrite Qltb_true, Qltb_false; apply Qlt_le_weak.
Qed.

Lemma not_above_trans (x y z : number) :
  isNaN y = false -> not_above x y -> not_above y z -> not_above x z.
Proof.
  unfold not_above.
  destruct x as [sx|sx| |sx mx ex], y as [sy|sy| |sy my ey], z as [sz|sz| |sz mz ez];
    cbn [lessThan isNaN]; try discriminate; try reflexivity; intros _;
    try (destruct sx; simpl; congruence);
    try (destruct sy; simpl; congruence);
    try (destruct sz; simpl; congruence);
    try (destruct sx, sy; simpl; congruence);
    try (destruct sy, sz; simpl; congruence);
    try (destruct sx, sz; simpl; congruence);
    try (destruct sx, sy, sz; simpl; congruence).
  all: rewrite !Qltb_false; intros A B; eapply Qle_trans; eassumption.
Qed.

Lemma not_above_refl (x : number) : not_above x x.
Proof. apply lessThan_irrefl. Qed.

Lemma below_pos_infinity (x : number) :
  isNaN x = false -> not_above pos_infinity x -> x = pos_infinity.
Proof.
  unfold not_above. destruct x as [s|s| |s m e]; cbn [lessThan isNaN]; try discriminate.
  destruct s; [discriminate | reflexivity].
Qed.

Lemma above_neg_infinity (x : number) :
  isNaN x = false -> not_above x neg_infinity -> x = neg_infinity.
Proof.
  unfold not_above. destruct x as [s|s| |s m e]; cbn [lessThan isNaN]; try discriminate.
  destruct s; [reflexivity | discriminate].
Qed.

Lemma Math_min_from_NaN (lowest : number) (args : list number) :
  existsb isNaN args = true -> Math_min_from lowest args = NaN.
Proof.
  revert lowest; induction args as [|x args IH]; intros lowest; simpl;
    [discriminate|].
  destruct (isNaN x); [reflexivity|]. simpl. apply IH.
Qed.

Lemma Math_max_from_NaN (highest : number) (args : list number) :
  existsb isNaN args = true -> Math_max_from highest args = NaN.
Proof.
  revert highest; induction args as [|x args IH]; intros highest; simpl;
    [discriminate|].
  destruct (isNaN x); [reflexivity|]. simpl. apply IH.
Qed.

(** One round of the loop of [Math.min]. *)
Lemma min_round (lowest x : number) :
  isNaN lowest = false -> isNaN x = false ->
  let l0 := if is_neg_zero x && is_pos_zero lowest then x else lowest in
  let l1 := if lessThan x l0 then x else l0 in
  isNaN l1 = false /\ (l1 = lowest \/ l1 = x)
  /\ not_above l1 lowest /\ not_above l1 x.
Proof.
  intros Hl Hx. cbv zeta.
  destruct (is_neg_zero x && is_pos_zero lowest) eqn:E.
  - apply andb_true_iff in E. destruct E as [E1 E2].
    rewrite lessThan_irrefl.
    destruct x as [[]| | |]; try discriminate.
    destruct lowest as [[]| | |]; try discriminate.
    repeat split. now right.
  - destruct (lessThan x lowest) eqn:L.
    + repeat split; try assumption; [now right | | apply not_above_refl].
      now apply lessThan_asym.
    + repeat split; try assumption; [now left | apply not_above_refl].
Qed.

Lemma max_round (highest x : number) :
  isNaN highest = false -> isNaN x = false ->
  let h0 := if is_pos_zero x && is_neg_zero highest then x else highest in
  let h1 := if lessThan h0 x then x else h0 in
  isNaN h1 = false /\ (h1 = highest \/ h1 = x)
  /\ not_above highest h1 /\ not_above x h1.
Proof.
  intros Hl Hx. cbv zeta.
  destruct (is_pos_zero x && is_neg_zero highest) eqn:E.
  - apply andb_true_iff in E. destruct E as [E1 E2].
    rewrite lessThan_irrefl.
    destruct x as [[]| | |]; try discriminate.
    destruct highest as [[]| | |]; try discriminate.
    repeat split. now right.
  - destruct (lessThan highest x) eqn:L.
    + repeat split; try assumption; [now right | | apply not_above_refl].
      now apply lessThan_asym.
    + repeat split; try assumption; [now left | apply not_above_refl].
Qed.

Lemma Math_min_from_spec (lowest : number) (args : list number) :
  isNaN lowest = false -> existsb isNaN args = false ->
  let m := Math_min_from lowest args in
  isNaN m = false
  /\ (m = lowest \/ In m args)
  /\ not_above m lowest
  /\ (forall t, In t args -> not_above m t).
Proof.
  revert lowest; induction args as [|x args IH]; intros lowest Hl Hn.
  - simpl. repeat split; try assumption; [now left | apply not_above_refl | tauto].
  - cbn [existsb] in Hn. apply orb_false_iff in Hn. destruct Hn as [Hx Hn].
    cbn [Math_min_from]. rewrite Hx.
    destruct (min_round lowest x Hl Hx) as [N1 [O1 [B1 C1]]].
    cbv zeta in N1, O1, B1, C1.
    set (l1 := if lessThan x _ then x else _) in *.
    destruct (IH l1 N1 Hn) as [Nm [Om [Bm Cm]]]. cbv zeta in Nm, Om, Bm, Cm.
    set (m := Math_min_from l1 args) in *.
    cbv zeta. repeat split.
    + assumption.
    + destruct Om as [Om|Om]; [|right; now right].
      rewrite Om. destruct O1 as [O1|O1]; [now left | right; now left].
    + now apply (not_above_trans m l1 lowest).
    + intros t [<-|Ht]; [now apply (not_above_trans m l1 x) | now apply Cm].
Qed.

Lemma Math_max_from_spec (highest : number) (args : list number) :
  isNaN highest = false -> existsb isNaN args = false ->
  let m := Math_max_from highest args in
  isNaN m = false
  /\ (m = highest \/ In m args)
  /\ not_above highest m
  /\ (forall t, In t args -> not_above t m).
Proof.
  revert highest; induction args as [|x args IH]; intros highest Hl Hn.
  - simpl. repeat split; try assumption; [now left | apply not_above_refl | tauto].
  - cbn [existsb] in Hn. apply orb_false_iff in Hn. destruct Hn as [Hx Hn].
    cbn [Math_max_from]. rewrite Hx.
    destruct (max_round highest x Hl Hx) as [N1 [O1 [B1 C1]]].
    cbv zeta in N1, O1, B1, C1.
    set (h1 := if lessThan _ x then x else _) in *.
    destruct (IH h1 N1 Hn) as [Nm [Om [Bm Cm]]]. cbv zeta in Nm, Om, Bm, Cm.
    set (m := Math_max_from h1 args) in *.
    cbv zeta. repeat split.
    + assumption.
    + destruct Om as [Om|Om]; [|right; now right].
      rewrite Om. destruct O1 as [O1|O1]; [now left | right; now left].
    + now apply (not_above_trans highest h1 m).
    + intros t [<-|Ht]; [now apply (not_above_trans x h1 m) | now apply Cm].
Qed.

(** [Math.min] and [Math.max] of a non-empty list without [NaN]: one of the
    arguments, which none of them is below, respectively above. *)
Lemma Math_min_spec (args : list number) :
  args <> [] -> existsb isNaN args = false ->
  In (Math_min args) args /\ forall t, In t args -> lessThan t (Math_min args) = false.
Proof.
  intros Hne Hn. unfold Math_min.
  destruct (Math_min_from_spec pos_infinity args eq_refl Hn) as [Nm [Om [_ Cm]]].
  cbv zeta in *. split; [|exact Cm].
  destruct Om as [Om|Om]; [|assumption].
  destruct args as [|x args]; [congruence|].
  assert (Hx : isNaN x = false).
  { cbn [existsb] in Hn. now apply orb_false_iff in Hn. }
  specialize (Cm x (or_introl eq_refl)). rewrite Om in Cm |- *.
  apply below_pos_infinity in Cm; [|assumption]. left. congruence.
Qed.

Lemma Math_max_spec (args : list number) :
  args <> [] -> existsb isNaN args = false ->
  In (Math_max args) args /\ forall t, In t args -> lessThan (Math_max args) t = false.
Proof.
  intros Hne Hn. unfold Math_max.
  destruct (Math_max_from_spec neg_infinity args eq_refl Hn) as [Nm [Om [_ Cm]]].
  cbv zeta in *. split; [|exact Cm].
  destruct Om as [Om|Om]; [|assumption].
  destruct args as [|x args]; [congruence|].
  assert (Hx : isNaN x = false).
  { cbn [existsb] in Hn. now apply orb_false_iff in Hn. }
  specialize (Cm x (or_introl eq_refl)). rewrite Om in Cm |- *.
  apply above_neg_infinity in Cm; [|assumption]. left. congruence.
Qed.

(* ===================================================================== *)
(** * Presenter: forecast *)
(* ===================================================================== *)

Lemma logged_all_app (st : Session) (a b : list jsstring) :
  logged_all st (a ++ b) = logged_all (logged_all st a) b.
Proof. apply fold_left_app. Qed.

Lemma console_logged_all (st : Session) (lines : list jsstring) :
  console (logged_all st lines) = console st ++ lines.
Proof.
  revert st; induction lines as [|l lines IH]; intros st; simpl.
  - now rewrite app_nil_r.
  - rewrite IH. simpl. now rewrite <- app_assoc.
Qed.

Lemma In_firstn {A} (n : nat) (l : list A) (x : A) : In x (firstn n l) -> In x l.
Proof.
  revert l; induction n as [|n IH]; intros [|y l]; simpl; try tauto.
  intros [E|Hin]; [now left | right; now apply IH].
Qed.

Section ForecastLines.
Context `{NumberToString} `{DateFormat}.

Lemma log_forecast_run (forecast : DailyForecast) (st : Session) :
  log_forecast forecast st = (Normal tt, logged_all st (forecast_block forecast)).
Proof. reflexivity. Qed.

Lemma log_forecasts_run (l : list DailyForecast) (st : Session) :
  log_forecasts l st = (Normal tt, logged_all st (flat_map forecast_block l)).
Proof.
  revert st; induction l as [|f l IH]; intros st; [reflexivity|].
  cbn [log_forecasts flat_map]. unfold bind at 1.
  rewrite log_forecast_run, IH, logged_all_app. reflexivity.
Qed.

Lemma displayForecast_run (items : list ForecastItem) (st : Session) :
  displayForecast {| data_list := items |} st
  = match group_by_day items with
    | Normal daily =>
      (Normal tt,
       logged_all st
         ([nl ++ u16 "📅 5日間天気予報"; rule]
            ++ flat_map forecast_block (presented daily) ++ [rule ++ nl]))
    | Throw e => (Throw e, logged_all st [nl ++ u16 "📅 5日間天気予報"; rule])
    end.
Proof.
  unfold displayForecast, bind, console_log, lift. cbn [data_list].
  destruct (group_by_day items) as [daily|e]; [|reflexivity].
  rewrite log_forecasts_run. rewrite !logged_all_app. reflexivity.
Qed.

(** The buckets after the loop, for date keys that are plain. *)
Lemma group_by_day_buckets (items : list ForecastItem) :
  (forall t, plain_key (toLocaleDateString_jaJP t) = true) ->
  exists daily,
    group_by_day items = Normal daily
    /\ keys daily = first_seen (map dateKey_of items)
    /\ (forall k b, In (k, b) daily ->
          exists first later,
            samples items k = first :: later /\ b = bucket k first later)
    /\ map date (values daily) = keys daily.
Proof.
  intros Hplain.
  destruct (group_by_day_invariant Hplain items) as [daily [Erun [Ekeys Hb]]].
  assert (Hin : forall k b, In (k, b) daily ->
            exists first later,
              samples items k = first :: later /\ b = bucket k first later).
  { intros k b Hkb. apply Hb. apply In_own; [|assumption].
    rewrite Ekeys. apply first_seen_NoDup. }
  exists daily. repeat split; try assumption.
  unfold values, keys. rewrite map_map. apply map_ext_in.
  intros [k b] Hkb. destruct (Hin k b Hkb) as [first [later [_ ->]]]. reflexivity.
Qed.

(** C1: when the date keys are plain property names (as the strings of
    [toLocaleDateString('ja-JP')] are), the loop of [displayForecast]
    ends normally with one bucket per date key, in the order in which the
    keys are first seen in the input.  The bucket of a key takes its
    description, humidity and wind speed from the first sample of that
    key and its temperatures from all the samples of that key, in input
    order.  What is logged is the block of each of the first 5 buckets in
    that order; their number is the smaller of 5 and the number of
    distinct keys. *)
Theorem forecast_grouped_by_day (items : list ForecastItem) (st : Session) :
  (forall t, plain_key (toLocaleDateString_jaJP t) = true) ->
  exists daily,
    group_by_day items = Normal daily
    /\ keys daily = first_seen (map dateKey_of items)
    /\ (forall k b, In (k, b) daily ->
          exists first later,
            samples items k = first :: later /\ b = bucket k first later)
    /\ presented daily = firstn 5 (values daily)
    /\ map date (presented daily) = firstn 5 (first_seen (map dateKey_of items))
    /\ List.length (presented daily)
       = Nat.min 5 (List.length (first_seen (map dateKey_of items)))
    /\ displayForecast {| data_list := items |} st
       = (Normal tt,
          logged_all st
            ([nl ++ u16 "📅 5日間天気予報"; rule]
               ++ flat_map forecast_block (presented daily) ++ [rule ++ nl])).
Proof.
  intros Hplain.
  destruct (group_by_day_buckets items Hplain) as [daily [Erun [Ekeys [Hin Hdate]]]].
  exists daily. repeat split; try assumption.
  - unfold presented, slice0. now rewrite <- firstn_map, Hdate, Ekeys.
  - unfold presented, slice0. rewrite length_firstn.
    rewrite <- Ekeys. unfold values, keys. now rewrite !length_map.
  - now rewrite displayForecast_run, Erun.
Qed.

(** C2: for every bucket that is presented, the temperatures it holds are
    those of the samples of its day, all of them and no others, in input
    order, and the temperature line that is logged shows
    [Math.min(...temps).toFixed(1)] and [Math.max(...temps).toFixed(1)].
    When no temperature is [NaN], the minimum and the maximum are samples
    of the bucket that no sample is below, respectively above; a finite
    value [x] below [10^21] is shown rounded to one decimal place: with [n]
    the integer nearest to [10 |x|], the larger one of two, the text is the
    sign, the decimal of [n / 10], a point and the digit [n mod 10].  For
    samples (day1, 10), (day1, 20), (day2, 5) there are two buckets and the
    line of day1 reads 10.0 to 20.0. *)
Theorem temperature_range_of_bucket (items : list ForecastItem) (st : Session) :
  (forall t, plain_key (toLocaleDateString_jaJP t) = true) ->
  exists daily,
    group_by_day items = Normal daily
    /\ (forall b,
          In b (presented daily) ->
          temps b = map fi_main_temp (samples items (date b))
          /\ temps b <> []
          /\ In (temperature_line b) (console (snd (displayForecast {| data_list := items |} st)))
          /\ temperature_line b
             = u16 "   🌡️  " ++ toFixed1 (Math_min (temps b))
                 ++ u16 "°C - " ++ toFixed1 (Math_max (temps b)) ++ u16 "°C"
          /\ (existsb isNaN (temps b) = false ->
              In (Math_min (temps b)) (temps b)
              /\ (forall t, In t (temps b) -> lessThan t (Math_min (temps b)) = false)
              /\ In (Math_max (temps b)) (temps b)
              /\ (forall t, In t (temps b) -> lessThan (Math_max (temps b)) t = false))
          /\ (forall x,
                x = Math_min (temps b) \/ x = Math_max (temps b) ->
                is_finite x = true -> Qabs (R_ x) < (10 # 1) ^ 21 ->
                exists n : Z,
                  toFixed1 x
                  = (if Qltb (R_ x) 0 then u16 "-" else [])
                      ++ decimal (Z.to_N (n / 10)) ++ u16 "."
                      ++ [(48 + Z.to_N (n mod 10))%N]
                  /\ (0 <= n)%Z
                  /\ Qabs (R_ x) - (1 # 20) < inject_Z n / (10 # 1)
                     <= Qabs (R_ x) + (1 # 20)))
    /\ (forall i1 i2 i3,
          items = [i1; i2; i3] ->
          dateKey_of i2 = dateKey_of i1 -> dateKey_of i3 <> dateKey_of i1 ->
          fi_main_temp i1 = num 10 -> fi_main_temp i2 = num 20 ->
          fi_main_temp i3 = num 5 ->
          exists day1 day2,
            presented daily = [day1; day2]
            /\ date day1 = dateKey_of i1
            /\ temperature_line day1 = u16 "   🌡️  10.0°C - 20.0°C").
Proof.
  intros Hplain.
  destruct (group_by_day_buckets items Hplain) as [daily [Erun [Ekeys [Hin Hdate]]]].
  exists daily. split; [assumption|]. split.
  - intros b Hb. pose proof Hb as Hshown.
    unfold presented, slice0 in Hb. apply In_firstn in Hb.
    unfold values in Hb. apply in_map_iff in Hb. destruct Hb as [[k b'] [Eb Hkb]].
    simpl in Eb. subst b'.
    destruct (Hin k b Hkb) as [first [later [Es ->]]].
    cbn [date temps bucket]. rewrite Es.
    split; [reflexivity|]. split; [discriminate|]. split; [|split; [reflexivity|split]].
    + rewrite displayForecast_run, Erun. cbn [snd].
      rewrite console_logged_all. apply in_or_app. right.
      apply in_or_app. right. apply in_or_app. left.
      apply in_flat_map. eexists. split; [exact Hshown|].
      right. left. reflexivity.
    + intros Hn.
      destruct (Math_min_spec (fi_main_temp first :: map fi_main_temp later))
        as [M1 M2]; [discriminate | assumption |].
      destruct (Math_max_spec (fi_main_temp first :: map fi_main_temp later))
        as [X1 X2]; [discriminate | assumption |].
      repeat split; assumption.
    + intros x _. apply toFixed1_rounds.
  - intros i1 i2 i3 -> E2 E3 T1 T2 T3.
    assert (N31 : str_eqb (dateKey_of i3) (dateKey_of i1) = false)
      by now apply str_eqb_neq.
    cbn [map first_seen filter] in Ekeys.
    rewrite E2, N31 in Ekeys. cbn [negb filter] in Ekeys.
    rewrite str_eqb_refl in Ekeys. cbn [negb filter] in Ekeys.
    rewrite N31 in Ekeys. cbn [negb] in Ekeys.
    destruct daily as [|[ka day1] [|[kb day2] [|more]]]; try discriminate Ekeys.
    injection Ekeys as -> ->.
    exists day1, day2. split; [reflexivity|].
    destruct (Hin (dateKey_of i1) day1 (or_introl eq_refl))
      as [first [later [Es ->]]].
    unfold samples in Es. cbn [filter] in Es.
    rewrite E2, str_eqb_refl, N31 in Es. injection Es as <- <-.
    split; [reflexivity|].
    unfold temperature_line, bucket. cbn [temps map]. rewrite T1, T2.
    vm_compute. reflexivity.
Qed.
End ForecastLines.

(* ===================================================================== *)
(** * Further properties: the favorites store *)
(* ===================================================================== *)

Import Menu.

(** X1: [loadFavoriteCities] always completes normally.  Without a file it
    gives the empty array and logs nothing; with a path that cannot be read
    or a text that is not JSON it gives the empty array and logs the
    diagnostic; with a JSON text it gives the parsed value as it is, of
    whatever shape, and logs nothing. *)
Theorem loadFavoriteCities_fail_soft `{JSON} (st : Session) :
  (exists v, fst (loadFavoriteCities st) = Normal v)
  /\ (fs st favoritesFile = None ->
      loadFavoriteCities st = (Normal (JArray []), st))
  /\ (fs st favoritesFile = Some Directory ->
      loadFavoriteCities st
      = (Normal (JArray []), logged st notice_favorites_unreadable))
  /\ (forall text,
        fs st favoritesFile = Some (File text) -> JSON_parse text = None ->
        loadFavoriteCities st
        = (Normal (JArray []), logged st notice_favorites_unreadable))
  /\ (forall text v,
        fs st favoritesFile = Some (File text) -> JSON_parse text = Some v ->
        loadFavoriteCities st = (Normal v, st)).
Proof.
  rewrite loadFavoriteCities_run. repeat split.
  - destruct (fs st favoritesFile) as [[text|]|]; simpl; eauto.
    destruct (JSON_parse text); simpl; eauto.
  - intros E. now rewrite E.
  - intros E. now rewrite E.
  - intros text E P. now rewrite E, P.
  - intros text v E P. now rewrite E, P.
Qed.

Lemma indexOf_from_app_absent (i : Z) (l : list jsstring) (x : jsstring) :
  ~ In x l -> indexOf_from i (l ++ [x]) x = (i + Z.of_nat (List.length l))%Z.
Proof.
  revert i; induction l as [|y l IH]; intros i Hn; simpl.
  - rewrite str_eqb_refl. lia.
  - destruct (str_eqb y x) eqn:E.
    + apply str_eqb_eq in E. subst. exfalso. apply Hn. now left.
    + rewrite IH by (intros F; apply Hn; now right). lia.
Qed.

Lemma favorites_after_save `{JSON} (st : Session) :
  favoriteCities (snd (saveFavoriteCities st)) = favoriteCities st.
Proof. apply saveFavoriteCities_fields. Qed.

Lemma save_then_log `{JSON} (st : Session) (line : jsstring) :
  (saveFavoriteCities ;; console_log line) st
  = match saveFavoriteCities st with
    | (Normal _, st') => (Normal tt, logged st' line)
    | (Throw e, st') => (Throw e, st')
    end.
Proof. unfold bind. destruct (saveFavoriteCities st) as [[[]|e] st']; reflexivity. Qed.

Lemma favorites_after_save_then_log `{JSON} (st : Session) (line : jsstring) :
  favoriteCities (snd ((saveFavoriteCities ;; console_log line) st))
  = favoriteCities st.
Proof.
  rewrite save_then_log. rewrite <- (favorites_after_save st).
  destruct (saveFavoriteCities st) as [[[]|e] st']; reflexivity.
Qed.

Lemma favorites_after_remove_run `{JSON} (st : Session) (city : jsstring) :
  favoriteCities (snd (removeFavoriteCity city st))
  = if (-1 <? indexOf (favoriteCities st) city)%Z
    then splice1 (favoriteCities st) (indexOf (favoriteCities st) city)
    else favoriteCities st.
Proof.
  unfold removeFavoriteCity, bind at 1. unfold get_favoriteCities at 1.
  destruct (-1 <? indexOf (favoriteCities st) city)%Z; [|reflexivity].
  unfold bind at 1. unfold set_favoriteCities at 1.
  now rewrite favorites_after_save_then_log.
Qed.

(** X2: adding a city that is not in the list and then removing it gives
    back the list there was, element for element, whether or not the two
    writes go through. *)
Theorem add_then_remove `{JSON} (st : Session) (city : jsstring) :
  ~ In city (favoriteCities st) ->
  favoriteCities (snd (removeFavoriteCity city (snd (addFavoriteCity city st))))
  = favoriteCities st.
Proof.
  intros Hn. rewrite favorites_after_remove_run, favorites_after_add.
  apply includes_not_In in Hn. rewrite Hn. apply includes_not_In in Hn.
  unfold indexOf. rewrite indexOf_from_app_absent by assumption.
  replace (-1 <? 0 + Z.of_nat (List.length (favoriteCities st)))%Z with true
    by (symmetry; apply Z.ltb_lt; lia).
  cbn [Z.add].
  replace (favoriteCities st ++ [city]) with (favoriteCities st ++ city :: [])
    by reflexivity.
  rewrite splice1_at. apply app_nil_r.
Qed.

Lemma count_occ_remove_one (l1 l2 : list jsstring) (x y : jsstring) :
  count_occ (list_eq_dec N.eq_dec) (l1 ++ l2) y
  = (count_occ (list_eq_dec N.eq_dec) (l1 ++ x :: l2) y
     - if list_eq_dec N.eq_dec x y then 1 else 0)%nat.
Proof.
  rewrite !count_occ_app. cbn [count_occ].
  destruct (list_eq_dec N.eq_dec x y); lia.
Qed.

(** X3: [removeFavoriteCity] takes out one occurrence and no more.  For a
    city that is in the list, its number of occurrences goes down by exactly
    one and that of every other city stays; so a city that a hand-edited
    file lists twice is still in the list after one removal. *)
Theorem remove_takes_one `{JSON} (st : Session) (city : jsstring) :
  In city (favoriteCities st) ->
  let after := favoriteCities (snd (removeFavoriteCity city st)) in
  S (count_occ (list_eq_dec N.eq_dec) after city)
  = count_occ (list_eq_dec N.eq_dec) (favoriteCities st) city
  /\ (forall other, other <> city ->
        count_occ (list_eq_dec N.eq_dec) after other
        = count_occ (list_eq_dec N.eq_dec) (favoriteCities st) other)
  /\ ((2 <= count_occ (list_eq_dec N.eq_dec) (favoriteCities st) city)%nat ->
      In city after).
Proof.
  intros Hin after.
  destruct (favorites_after_remove st city Hin) as [l1 [l2 [El [Hn Er]]]].
  subst after. rewrite Er, El.
  assert (Hc : count_occ (list_eq_dec N.eq_dec) (l1 ++ l2) city
               = (count_occ (list_eq_dec N.eq_dec) (l1 ++ city :: l2) city - 1)%nat).
  { rewrite (count_occ_remove_one l1 l2 city city).
    destruct (list_eq_dec N.eq_dec city city); [reflexivity | congruence]. }
  assert (Hpos : (1 <= count_occ (list_eq_dec N.eq_dec) (l1 ++ city :: l2) city)%nat).
  { apply count_occ_In. apply in_or_app. right. now left. }
  repeat split.
  - lia.
  - intros other Ho. rewrite (count_occ_remove_one l1 l2 city other).
    destruct (list_eq_dec N.eq_dec city other); [congruence | lia].
  - intros H2. apply (count_occ_In (list_eq_dec N.eq_dec)). lia.
Qed.

(* ===================================================================== *)
(** * Further properties: the listing *)
(* ===================================================================== *)

Lemma log_numbered_run (l : list jsstring) (i : N) (st : Session) :
  log_numbered i l st = (Normal tt, logged_all st (numbered i l)).
Proof.
  revert i st; induction l as [|city l IH]; intros i st; [reflexivity|].
  cbn [log_numbered numbered]. unfold bind, console_log. rewrite IH. reflexivity.
Qed.

Lemma displayFavoriteCities_run (st : Session) :
  displayFavoriteCities st = (Normal tt, logged_all st (listing (favoriteCities st))).
Proof.
  unfold displayFavoriteCities, bind, get_favoriteCities, listing.
  destruct (favoriteCities st) as [|city l]; [reflexivity|].
  unfold console_log. rewrite log_numbered_run.
  now rewrite (logged_all_app st [_] (_ ++ [[]])), logged_all_app.
Qed.

Lemma nth_error_numbered (l : list jsstring) (i : N) (k : nat) :
  nth_error (numbered i l) k
  = option_map (fun city => decimal (i + N.of_nat k + 1) ++ u16 ". " ++ city)
      (nth_error l k).
Proof.
  revert i k; induction l as [|city l IH]; intros i [|k]; try reflexivity.
  - cbn [numbered nth_error option_map]. now rewrite N.add_0_r.
  - cbn [numbered nth_error]. rewrite IH.
    replace (i + 1 + N.of_nat k + 1)%N with (i + N.of_nat (S k) + 1)%N by lia.
    reflexivity.
Qed.

Lemma length_numbered (l : list jsstring) (i : N) :
  List.length (numbered i l) = List.length l.
Proof. revert i; induction l as [|c l IH]; intros i; simpl; [|rewrite IH]; reflexivity. Qed.

Lemma logged_all_fields (st : Session) (lines : list jsstring) :
  apiKey (logged_all st lines) = apiKey st
  /\ favoriteCities (logged_all st lines) = favoriteCities st
  /\ fs (logged_all st lines) = fs st.
Proof.
  revert st; induction lines as [|l lines IH]; intros st; [tauto|].
  simpl. destruct (IH (logged st l)) as [A [B C]]. rewrite A, B, C. tauto.
Qed.

(** X4: [displayFavoriteCities] only writes to the console.  For an empty
    list it logs the single no-favorites notice.  For a list of [n] cities
    it logs a header, then [n] lines of which the [k]-th (from 0) is the
    decimal of [k + 1], a point, a space and the [k]-th city, then an empty
    line. *)
Theorem displayFavoriteCities_listing (st : Session) :
  exists lines,
    displayFavoriteCities st = (Normal tt, logged_all st lines)
    /\ favoriteCities (logged_all st lines) = favoriteCities st
    /\ fs (logged_all st lines) = fs st
    /\ (favoriteCities st = [] -> lines = [u16 "お気に入りの都市はありません。"])
    /\ (favoriteCities st <> [] ->
        exists rows,
          lines = [nl ++ u16 "⭐ お気に入りの都市:"] ++ rows ++ [[]]
          /\ List.length rows = List.length (favoriteCities st)
          /\ forall k city,
               nth_error (favoriteCities st) k = Some city ->
               nth_error rows k
               = Some (decimal (N.of_nat k + 1) ++ u16 ". " ++ city)).
Proof.
  exists (listing (favoriteCities st)).
  destruct (logged_all_fields st (listing (favoriteCities st))) as [_ [Hf Hs]].
  split; [apply displayFavoriteCities_run|]. split; [assumption|].
  split; [assumption|]. split.
  - intros E. now rewrite E.
  - intros Hne. destruct (favoriteCities st) as [|c l] eqn:E; [congruence|].
    exists (numbered 0 (c :: l)). split; [reflexivity|].
    split; [apply length_numbered|].
    intros k city Hk. rewrite nth_error_numbered, Hk. reflexivity.
Qed.

(* ===================================================================== *)
(** * Further properties: memory and disk *)
(* ===================================================================== *)

Lemma persisted_logged `{JSON} (st : Session) (line : jsstring) :
  persisted st -> persisted (logged st line).
Proof. exact (fun P => P). Qed.

Lemma persisted_logged_all `{JSON} (st : Session) (lines : list jsstring) :
  persisted st -> persisted (logged_all st lines).
Proof.
  unfold persisted. destruct (logged_all_fields st lines) as [_ [Hf Hs]].
  now rewrite Hf, Hs.
Qed.

Lemma save_then_log_normal `{JSON} (st st' : Session) (line : jsstring) :
  (saveFavoriteCities ;; console_log line) st = (Normal tt, st') -> persisted st'.
Proof.
  rewrite save_then_log. intros E.
  destruct (fs st favoritesFile) as [[text|]|] eqn:Ef.
  2: { rewrite save_fails in E by assumption. discriminate. }
  all: rewrite save_writes in E by congruence.
  all: injection E as <-.
  all: unfold persisted, logged, with_fs; cbn [fs favoriteCities].
  all: now rewrite str_eqb_refl.
Qed.

Lemma add_normal_persisted `{JSON} (st st' : Session) (city : jsstring) :
  persisted st -> addFavoriteCity city st = (Normal tt, st') -> persisted st'.
Proof.
  intros P. destruct (in_dec (list_eq_dec N.eq_dec) city (favoriteCities st)) as [Hc|Hc].
  - rewrite add_present by assumption. intros [= <-]. exact P.
  - rewrite add_absent by assumption. apply save_then_log_normal.
Qed.

Lemma remove_normal_persisted `{JSON} (st st' : Session) (city : jsstring) :
  persisted st -> removeFavoriteCity city st = (Normal tt, st') -> persisted st'.
Proof.
  intros P. destruct (in_dec (list_eq_dec N.eq_dec) city (favoriteCities st)) as [Hc|Hc].
  - destruct (remove_present st city Hc) as [l1 [l2 [_ [_ Er]]]]. rewrite Er.
    apply save_then_log_normal.
  - rewrite remove_absent by assumption. intros [= <-]. exact P.
Qed.

Lemma handleRemoveFavorite_run `{JSON} (answer : jsstring) (st : Session) :
  handleRemoveFavorite answer st
  = let listed := logged_all st (listing (favoriteCities st)) in
    match favoriteCities st with
    | [] => (Normal tt, listed)
    | _ :: _ =>
      if string_truthy (trim answer) then removeFavoriteCity (trim answer) listed
      else (Normal tt, listed)
    end.
Proof.
  unfold handleRemoveFavorite, bind. rewrite displayFavoriteCities_run.
  unfold get_favoriteCities.
  destruct (logged_all_fields st (listing (favoriteCities st))) as [_ [Hf _]].
  rewrite Hf. cbv zeta.
  destruct (favoriteCities st) as [|c l]; [reflexivity|].
  destruct (string_truthy (trim answer)); reflexivity.
Qed.

(** X5: the favorites file follows the list wherever the write goes
    through.  When the file holds the list that is in memory and
    [addFavoriteCity], [removeFavoriteCity], [handleAddFavorite] or
    [handleRemoveFavorite] completes normally, whatever its argument, the
    file holds the list that is in memory at the end.  (A write that throws
    leaves them apart: the list is changed before the write.) *)
Theorem persisted_kept `{JSON} (st st' : Session) (x : jsstring) :
  persisted st ->
  (addFavoriteCity x st = (Normal tt, st') -> persisted st')
  /\ (removeFavoriteCity x st = (Normal tt, st') -> persisted st')
  /\ (handleAddFavorite x st = (Normal tt, st') -> persisted st')
  /\ (handleRemoveFavorite x st = (Normal tt, st') -> persisted st').
Proof.
  intros P. split; [now apply add_normal_persisted|].
  split; [now apply remove_normal_persisted|]. split.
  - unfold handleAddFavorite. destruct (string_truthy (trim x)).
    + now apply add_normal_persisted.
    + intros [= <-]. exact P.
  - rewrite handleRemoveFavorite_run. cbv zeta.
    assert (P' : persisted (logged_all st (listing (favoriteCities st))))
      by now apply persisted_logged_all.
    destruct (favoriteCities st) as [|c l] eqn:E.
    + intros [= <-]. exact P'.
    + destruct (string_truthy (trim x)).
      * now apply remove_normal_persisted.
      * intros [= <-]. exact P'.
Qed.

(** X6: [handleRemoveFavorite] lists the favorites first.  With no favorite
    it stops there, whatever the answer would be; with favorites and an
    answer that is empty or white space it removes nothing; otherwise it is
    [removeFavoriteCity] on the trimmed answer. *)
Theorem handleRemoveFavorite_trims `{JSON} (answer : jsstring) (st : Session) :
  let listed := logged_all st (listing (favoriteCities st)) in
  (favoriteCities st = [] ->
   handleRemoveFavorite answer st
   = (Normal tt, logged st (u16 "お気に入りの都市はありません。")))
  /\ (favoriteCities st <> [] -> forallb is_white_space answer = true ->
      handleRemoveFavorite answer st = (Normal tt, listed))
  /\ (favoriteCities st <> [] -> forallb is_white_space answer = false ->
      handleRemoveFavorite answer st = removeFavoriteCity (trim answer) listed)
  /\ favoriteCities listed = favoriteCities st /\ fs listed = fs st.
Proof.
  intros listed. rewrite handleRemoveFavorite_run. cbv zeta. fold listed.
  destruct (logged_all_fields st (listing (favoriteCities st))) as [_ [Hf Hs]].
  repeat split; try assumption.
  - intros E. subst listed. now rewrite E.
  - intros Hne Hw. apply trim_nil in Hw. rewrite Hw.
    destruct (favoriteCities st); [congruence | reflexivity].
  - intros Hne Hw. destruct (favoriteCities st) as [|c l]; [congruence|].
    destruct (trim answer) as [|u r] eqn:E; [|reflexivity].
    apply trim_nil in E. congruence.
Qed.

(* ===================================================================== *)
(** * Further properties: the credential *)
(* ===================================================================== *)

Lemma log_all_run (lines : list jsstring) (st : Session) :
  log_all lines st = (Normal tt, logged_all st lines).
Proof.
  revert st; induction lines as [|l lines IH]; intros st; [reflexivity|].
  cbn [log_all]. unfold bind, console_log. now rewrite IH.
Qed.

Lemma setupApiKey_run `{JSON} (answer now : jsstring) (st : Session) :
  setupApiKey answer now st
  = let shown := logged_all st setup_intro in
    match fs_writeFileSync (fs st) configFile (JSON_stringify2 (config_of answer now)) with
    | Normal files =>
      (Normal tt,
       logged (with_apiKey (with_fs shown files) (J (JString answer))) notice_key_saved)
    | Throw e => (Throw e, shown)
    end.
Proof.
  unfold setupApiKey, bind. rewrite log_all_run. unfold writeFileSync.
  destruct (logged_all_fields st setup_intro) as [_ [_ Hs]]. rewrite Hs.
  destruct (fs_writeFileSync _ _ _); reflexivity.
Qed.

Lemma configPath_is_configFile : configPath = configFile.
Proof. reflexivity. Qed.

Lemma config_of_apiKey (k : jsstring) (rest : list (jsstring * json)) :
  field ((u16 "apiKey", JString k) :: rest) (u16 "apiKey") = J (JString k).
Proof. cbn [field]. rewrite str_eqb_refl. reflexivity. Qed.

Lemma fs_writeFileSync_ok (files : filesystem) (path data : jsstring) :
  files path <> Some Directory ->
  fs_writeFileSync files path data
  = Normal (fun p => if str_eqb p path then Some (File data) else files p).
Proof.
  intros Hd. unfold fs_writeFileSync.
  destruct (files path) as [[c|]|]; try reflexivity. congruence.
Qed.

Lemma written_session_fields (shown : Session) (files : filesystem)
    (v : value) (line : jsstring) :
  apiKey (logged (with_apiKey (with_fs shown files) v) line) = v
  /\ favoriteCities (logged (with_apiKey (with_fs shown files) v) line)
     = favoriteCities shown
  /\ fs (logged (with_apiKey (with_fs shown files) v) line) = files.
Proof. split; [|split]; reflexivity. Qed.

(** X7: what [setupApiKey] writes, [loadApiKey] reads.  For a JSON
    implementation that reads back the configuration object written here,
    and a write that goes through, [setupApiKey] completes and holds the
    answer as it was typed (not trimmed) in [this.apiKey]; the configuration
    file holds the text written for that answer and the instant, and the
    favorites and every other file are as they were.  A [loadApiKey] from
    any session on the files that are left, whatever key that session
    holds, returns the answer and logs nothing. *)
Theorem setup_then_load `{JSON} (answer now : jsstring) (st : Session) :
  JSON_parse (JSON_stringify2 (config_of answer now)) = Some (config_of answer now) ->
  fs st configFile <> Some Directory ->
  exists st',
    setupApiKey answer now st = (Normal tt, st')
    /\ apiKey st' = J (JString answer)
    /\ favoriteCities st' = favoriteCities st
    /\ fs st' configFile = Some (File (JSON_stringify2 (config_of answer now)))
    /\ (forall path, path <> configFile -> fs st' path = fs st path)
    /\ (forall reader : Session,
          fs reader = fs st' ->
          loadApiKey reader = (Normal (J (JString answer)), reader)).
Proof.
  intros Hjson Hd. rewrite setupApiKey_run. cbv zeta.
  rewrite (fs_writeFileSync_ok _ _ _ Hd).
  destruct (logged_all_fields st setup_intro) as [_ [Hf _]].
  revert Hf. generalize (logged_all st setup_intro). intros shown Hf.
  generalize notice_key_saved. intros line.
  destruct (written_session_fields shown
              (fun p => if str_eqb p configFile
                        then Some (File (JSON_stringify2 (config_of answer now)))
                        else fs st p)
              (J (JString answer)) line) as [A [B C]].
  eexists. split; [reflexivity|].
  rewrite A, B, C.
  split; [reflexivity|]. split; [exact Hf|]. split; [now rewrite str_eqb_refl|]. split.
  - intros path Hp. apply str_eqb_neq in Hp. now rewrite Hp.
  - intros reader Efs. rewrite loadApiKey_run, Efs.
    rewrite configPath_is_configFile, str_eqb_refl, Hjson.
    unfold config_of. rewrite config_of_apiKey. reflexivity.
Qed.

(* ===================================================================== *)
(** * Further properties: writes that fail, and the two fetch handlers *)
(* ===================================================================== *)

(** X8: a configuration file that cannot be written.  When its path is a
    directory, [setupApiKey] throws after the three introductory lines and
    before it assigns [this.apiKey]: the key, the favorites and the files are
    as they were, and the console has those three lines and no more. *)
Theorem setupApiKey_write_fails `{JSON} (st : Session) (answer now : jsstring) :
  fs st configFile = Some Directory ->
  setupApiKey answer now st = (Throw SystemError, logged_all st setup_intro)
  /\ apiKey (logged_all st setup_intro) = apiKey st
  /\ favoriteCities (logged_all st setup_intro) = favoriteCities st
  /\ fs (logged_all st setup_intro) = fs st
  /\ console (logged_all st setup_intro) = console st ++ setup_intro.
Proof.
  intros Hd. split.
  - rewrite setupApiKey_run. cbv zeta. unfold fs_writeFileSync. now rewrite Hd.
  - destruct (logged_all_fields st setup_intro) as [A [B C]].
    split; [exact A|]. split; [exact B|]. split; [exact C|].
    apply console_logged_all.
Qed.

(** X9: a favorites file that cannot be written.  [addFavoriteCity] and
    [removeFavoriteCity] change the list before they write: when the write
    throws, the city is already added, respectively removed, in memory, no
    notice is logged, and an [addFavoriteCity] of the same city after that
    reports it as already registered and writes nothing. *)
Theorem favorites_write_fails `{JSON} (st : Session) (x : jsstring) :
  fs st favoritesFile = Some Directory ->
  (~ In x (favoriteCities st) ->
   let added := with_favoriteCities st (favoriteCities st ++ [x]) in
   addFavoriteCity x st = (Throw SystemError, added)
   /\ addFavoriteCity x added
      = (Normal tt, logged added (notice_already_present x)))
  /\ (In x (favoriteCities st) ->
      exists l1 l2,
        favoriteCities st = l1 ++ x :: l2 /\ ~ In x l1
        /\ removeFavoriteCity x st
           = (Throw SystemError, with_favoriteCities st (l1 ++ l2))).
Proof.
  intros Hd. split.
  - intros Hn. cbv zeta. split.
    + rewrite add_absent by assumption. rewrite save_then_log.
      now rewrite save_fails.
    + apply add_present. cbn [favoriteCities with_favoriteCities].
      apply in_or_app. right. now left.
  - intros Hin. destruct (remove_present st x Hin) as [l1 [l2 [El [Hn Er]]]].
    exists l1, l2. split; [assumption|]. split; [assumption|].
    rewrite Er, save_then_log. now rewrite save_fails.
Qed.

Section Handlers.
Context `{JSON} `{NumberToString} `{DateFormat} `{EngineMessages}.

Lemma getCityInput_run (answer : jsstring) (st : Session) :
  getCityInput answer st
  = (Normal (trim answer), logged_all st (listing (favoriteCities st))).
Proof.
  unfold getCityInput, bind. rewrite displayFavoriteCities_run. reflexivity.
Qed.

Lemma handleCurrentWeather_run (net : Request -> Upstream CurrentWeather)
    (answer : jsstring) (st : Session) :
  handleCurrentWeather net answer st
  = let listed := logged_all st (listing (favoriteCities st)) in
    if string_truthy (trim answer) then
      let busy := logged listed (u16 "🔄 天気情報を取得中...") in
      match getCurrentWeather net (trim answer) busy with
      | (Normal weather, st') => displayCurrentWeather weather st'
      | (Throw e, st') => (Throw e, st')
      end
    else (Normal tt, listed).
Proof.
  unfold handleCurrentWeather. unfold bind at 1. rewrite getCityInput_run.
  cbv zeta. destruct (string_truthy (trim answer)); reflexivity.
Qed.

Lemma handleForecast_run (net : Request -> Upstream Forecast)
    (answer : jsstring) (st : Session) :
  handleForecast net answer st
  = let listed := logged_all st (listing (favoriteCities st)) in
    if string_truthy (trim answer) then
      let busy := logged listed (u16 "🔄 天気予報を取得中...") in
      match getForecast net (trim answer) busy with
      | (Normal forecast, st') => displayForecast forecast st'
      | (Throw e, st') => (Throw e, st')
      end
    else (Normal tt, listed).
Proof.
  unfold handleForecast. unfold bind at 1. rewrite getCityInput_run.
  cbv zeta. destruct (string_truthy (trim answer)); reflexivity.
Qed.

Lemma weather_request_logged (st : Session) (lines : list jsstring)
    (line city : jsstring) :
  weather_request (logged (logged_all st lines) line) city = weather_request st city.
Proof.
  unfold weather_request. cbn [apiKey logged].
  now rewrite (proj1 (logged_all_fields st lines)).
Qed.

Lemma forecast_request_logged (st : Session) (lines : list jsstring)
    (line city : jsstring) :
  forecast_request (logged (logged_all st lines) line) city = forecast_request st city.
Proof.
  unfold forecast_request. cbn [apiKey logged].
  now rewrite (proj1 (logged_all_fields st lines)).
Qed.

Lemma nonblank_truthy (answer : jsstring) :
  forallb is_white_space answer = false -> string_truthy (trim answer) = true.
Proof.
  intros Hw. destruct (trim answer) as [|u r] eqn:E; [|reflexivity].
  apply trim_nil in E. congruence.
Qed.

Lemma blank_falsy (answer : jsstring) :
  forallb is_white_space answer = true -> string_truthy (trim answer) = false.
Proof. intros Hw. apply trim_nil in Hw. now rewrite Hw. Qed.

(** X10: [handleCurrentWeather] lists the favorites, and for an answer that
    is empty or white space it stops there: nothing is requested.  Otherwise
    it logs the progress line and requests the trimmed answer with the key of
    the session.  When the request fails, the handler throws the error of
    [getCurrentWeather] and nothing more is logged; the menu then logs that
    error's message on one line and goes on.  When it succeeds, the body is
    displayed after the progress line. *)
Theorem handleCurrentWeather_outcomes (net : Request -> Upstream CurrentWeather)
    (answer : jsstring) (st : Session) :
  let listed := logged_all st (listing (favoriteCities st)) in
  let busy := logged listed (u16 "🔄 天気情報を取得中...") in
  (forallb is_white_space answer = true ->
   handleCurrentWeather net answer st = (Normal tt, listed))
  /\ (forallb is_white_space answer = false ->
      forall e, fst (getCurrentWeather net (trim answer) st) = Throw e ->
      handleCurrentWeather net answer st = (Throw e, busy)
      /\ reporting (handleCurrentWeather net answer) st
         = (Normal tt, logged busy (u16 "❌ エラー: " ++ message e)))
  /\ (forallb is_white_space answer = false ->
      forall weather, fst (getCurrentWeather net (trim answer) st) = Normal weather ->
      handleCurrentWeather net answer st = displayCurrentWeather weather busy).
Proof.
  intros listed busy.
  assert (Efetch : forall c, fst (getCurrentWeather net (trim answer) st) = c ->
            getCurrentWeather net (trim answer) busy = (c, busy)).
  { intros c Ec. rewrite getCurrentWeather_run in *. subst busy listed.
    rewrite weather_request_logged.
    destruct (axios_get _) as [r|er]; [now subst c|].
    destruct (response_status_is er 404); [now subst c|].
    destruct (response_status_is er 401); now subst c. }
  split; [|split].
  - intros Hw. rewrite handleCurrentWeather_run. cbv zeta.
    now rewrite (blank_falsy _ Hw).
  - intros Hw e Ee.
    assert (Eh : handleCurrentWeather net answer st = (Throw e, busy)).
    { rewrite handleCurrentWeather_run. cbv zeta. rewrite (nonblank_truthy _ Hw).
      fold listed. fold busy. now rewrite (Efetch _ Ee). }
    split; [exact Eh|]. unfold reporting, try_catch. now rewrite Eh.
  - intros Hw weather Ew. rewrite handleCurrentWeather_run. cbv zeta.
    rewrite (nonblank_truthy _ Hw). fold listed. fold busy.
    now rewrite (Efetch _ Ew).
Qed.

(** X11: [handleForecast] has the same shape: a blank answer requests
    nothing; a failed request is thrown after the listing and the progress
    line, and is reported by the menu with the one message that
    [getForecast] has; a successful one is displayed. *)
Theorem handleForecast_outcomes (net : Request -> Upstream Forecast)
    (answer : jsstring) (st : Session) :
  let listed := logged_all st (listing (favoriteCities st)) in
  let busy := logged listed (u16 "🔄 天気予報を取得中...") in
  (forallb is_white_space answer = true ->
   handleForecast net answer st = (Normal tt, listed))
  /\ (forallb is_white_space answer = false ->
      forall e, fst (getForecast net (trim answer) st) = Throw e ->
      e = FetchFailed_forecast
      /\ handleForecast net answer st = (Throw e, busy)
      /\ reporting (handleForecast net answer) st
         = (Normal tt, logged busy (u16 "❌ エラー: " ++ msg_forecast_failed)))
  /\ (forallb is_white_space answer = false ->
      forall forecast, fst (getForecast net (trim answer) st) = Normal forecast ->
      handleForecast net answer st = displayForecast forecast busy).
Proof.
  intros listed busy.
  assert (Efetch : forall c, fst (getForecast net (trim answer) st) = c ->
            getForecast net (trim answer) busy = (c, busy)).
  { intros c Ec. rewrite getForecast_run in *. subst busy listed.
    rewrite forecast_request_logged.
    destruct (axios_get _) as [r|er]; now subst c. }
  split; [|split].
  - intros Hw. rewrite handleForecast_run. cbv zeta.
    now rewrite (blank_falsy _ Hw).
  - intros Hw e Ee.
    assert (Eh : handleForecast net answer st = (Throw e, busy)).
    { rewrite handleForecast_run. cbv zeta. rewrite (nonblank_truthy _ Hw).
      fold listed. fold busy. now rewrite (Efetch _ Ee). }
    assert (Ef : e = FetchFailed_forecast).
    { rewrite getForecast_run in Ee.
      destruct (axios_get _) as [r|er]; simpl in Ee; congruence. }
    split; [exact Ef|]. split; [exact Eh|].
    unfold reporting, try_catch. rewrite Eh. subst e. reflexivity.
  - intros Hw forecast Ew. rewrite handleForecast_run. cbv zeta.
    rewrite (nonblank_truthy _ Hw). fold listed. fold busy.
    now rewrite (Efetch _ Ew).
Qed.

End Handlers.

(* ===================================================================== *)
(** * Further properties: the menu *)
(* ===================================================================== *)

Lemma bind_run {A B} (c : M A) (k : A -> M B) (st : Session) :
  bind c k st
  = match c st with
    | (Normal a, st') => k a st'
    | (Throw e, st') => (Throw e, st')
    end.
Proof. reflexivity. Qed.

Lemma bind_normal {A B} (c : M A) (k : A -> M B) (st st' : Session) (a : A) :
  c st = (Normal a, st') -> bind c k st = k a st'.
Proof. intros E. unfold bind. now rewrite E. Qed.

Lemma duplicate_free_logged (st : Session) (line : jsstring) :
  duplicate_free st -> duplicate_free (logged st line).
Proof. exact (fun P => P). Qed.

Lemma duplicate_free_logged_all (st : Session) (lines : list jsstring) :
  duplicate_free st -> duplicate_free (logged_all st lines).
Proof.
  unfold duplicate_free.
  now rewrite (proj1 (proj2 (logged_all_fields st lines))).
Qed.

Section Safe.
Context `{JSON} `{NumberToString} `{DateFormat} `{EngineMessages}.

Lemma keeps_displayFavoriteCities : keeps duplicate_free displayFavoriteCities.
Proof.
  intros st S. rewrite displayFavoriteCities_run. now apply duplicate_free_logged_all.
Qed.

Lemma keeps_handleCurrentWeather (net : Request -> Upstream CurrentWeather)
    (answer : jsstring) :
  keeps duplicate_free (handleCurrentWeather net answer).
Proof.
  intros st S. rewrite handleCurrentWeather_run. cbv zeta.
  assert (S1 : duplicate_free (logged_all st (listing (favoriteCities st))))
    by now apply duplicate_free_logged_all.
  destruct (string_truthy (trim answer)); [|exact S1].
  rewrite getCurrentWeather_run.
  destruct (axios_get _) as [r|er].
  - destruct (displayCurrentWeather_lines (data r)
                (logged (logged_all st (listing (favoriteCities st)))
                   (u16 "🔄 天気情報を取得中..."))) as [lines [E _]].
    rewrite E. now apply duplicate_free_logged_all.
  - destruct (response_status_is er 404); [exact S1|].
    destruct (response_status_is er 401); exact S1.
Qed.

Lemma keeps_handleForecast (net : Request -> Upstream Forecast) (answer : jsstring) :
  keeps duplicate_free (handleForecast net answer).
Proof.
  intros st S. rewrite handleForecast_run. cbv zeta.
  assert (S1 : duplicate_free (logged_all st (listing (favoriteCities st))))
    by now apply duplicate_free_logged_all.
  destruct (string_truthy (trim answer)); [|exact S1].
  rewrite getForecast_run.
  destruct (axios_get _) as [r|er]; [|exact S1].
  destruct (data r) as [items]. rewrite displayForecast_run.
  destruct (group_by_day items); now apply duplicate_free_logged_all.
Qed.

Lemma keeps_addFavoriteCity (city : jsstring) :
  keeps duplicate_free (addFavoriteCity city).
Proof.
  intros st N. unfold duplicate_free in *. rewrite favorites_after_add.
  destruct (includes (favoriteCities st) city) eqn:E; [assumption|].
  apply includes_not_In in E. now apply NoDup_push.
Qed.

Lemma keeps_removeFavoriteCity (city : jsstring) :
  keeps duplicate_free (removeFavoriteCity city).
Proof.
  intros st N. unfold duplicate_free in *.
  destruct (in_dec (list_eq_dec N.eq_dec) city (favoriteCities st)) as [Hin|Hn].
  - destruct (favorites_after_remove st city Hin) as [l1 [l2 [El [_ Er]]]].
    rewrite Er. rewrite El in N. now apply NoDup_remove_1 in N.
  - now rewrite remove_absent.
Qed.

Lemma keeps_handleAddFavorite (answer : jsstring) :
  keeps duplicate_free (handleAddFavorite answer).
Proof.
  intros st S. unfold handleAddFavorite. cbv zeta.
  destruct (string_truthy (trim answer)); [|exact S].
  now apply keeps_addFavoriteCity.
Qed.

Lemma keeps_handleRemoveFavorite (answer : jsstring) :
  keeps duplicate_free (handleRemoveFavorite answer).
Proof.
  intros st S. rewrite handleRemoveFavorite_run. cbv zeta.
  assert (S1 : duplicate_free (logged_all st (listing (favoriteCities st))))
    by now apply duplicate_free_logged_all.
  destruct (favoriteCities st) as [|c l]; [exact S1|].
  destruct (string_truthy (trim answer)); [|exact S1].
  now apply keeps_removeFavoriteCity.
Qed.

Lemma keeps_setupApiKey (answer now : jsstring) :
  keeps duplicate_free (setupApiKey answer now).
Proof.
  intros st S. rewrite setupApiKey_run. cbv zeta.
  assert (S1 : duplicate_free (logged_all st setup_intro))
    by now apply duplicate_free_logged_all.
  revert S1. generalize (logged_all st setup_intro). intros shown S1.
  destruct (fs_writeFileSync _ _ _); exact S1.
Qed.

Lemma keeps_reporting (c : M unit) : keeps duplicate_free c -> keeps duplicate_free (reporting c).
Proof.
  intros K st S. unfold reporting, try_catch. specialize (K st S).
  destruct (c st) as [[[]|e] st']; exact K.
Qed.

Lemma reporting_completes (c : M unit) (st : Session) :
  reporting c st = (Normal tt, snd (reporting c st)).
Proof.
  unfold reporting, try_catch. destruct (c st) as [[[]|e] st']; reflexivity.
Qed.

End Safe.

Section LoopFacts.
Context `{JSON} `{NumberToString} `{DateFormat} `{EngineMessages}.
Variable net_weather : Request -> Upstream CurrentWeather.
Variable net_forecast : Request -> Upstream Forecast.

Lemma loop_outcome_awaiting (script : list Answer) (st st' : Session) :
  (duplicate_free st -> duplicate_free st') ->
  loop_outcome script st (Normal AwaitingInput, st').
Proof.
  intros S. exists AwaitingInput, st'. split; [reflexivity|].
  split; [now right|]. split; [discriminate | exact S].
Qed.

Lemma loop_outcome_step (c : M unit) (k : M ending)
    (script rest : list Answer) (st st0 : Session) :
  keeps duplicate_free c ->
  (duplicate_free st -> duplicate_free st0) ->
  incl rest script ->
  loop_outcome rest (snd (reporting c st0)) (k (snd (reporting c st0))) ->
  loop_outcome script st ((reporting c ;; k) st0).
Proof.
  intros K S0 Hi [e [st' [E [He [Hr Hs]]]]].
  rewrite (bind_normal _ _ _ _ _ (reporting_completes c st0)).
  exists e, st'. split; [exact E|]. split; [exact He|]. split.
  - intros Er. destruct (Hr Er) as [[a [Hin Ht]] Hc].
    split; [|exact Hc]. exists a. split; [now apply Hi | exact Ht].
  - intros S. apply Hs. apply keeps_reporting; [exact K | now apply S0].
Qed.

Lemma loop_outcome_display (script : list Answer) (st st0 : Session) :
  (duplicate_free st -> duplicate_free st0) ->
  loop_outcome script st ((displayFavoriteCities ;; ret AwaitingInput) st0).
Proof.
  intros S0. rewrite (bind_normal _ _ _ _ _ (displayFavoriteCities_run st0)).
  apply loop_outcome_awaiting. intros S. apply duplicate_free_logged_all. now apply S0.
Qed.

Lemma menu_loop_outcome (n : nat) :
  forall script, (List.length script <= n)%nat ->
  forall st, loop_outcome script st (menu_loop net_weather net_forecast script st).
Proof.
  induction n as [|n IH]; intros script Hl st; destruct script as [|choice rest].
  1, 3: cbn [menu_loop]; rewrite (bind_normal _ _ _ _ _ (log_all_run menu st));
        apply loop_outcome_awaiting; apply duplicate_free_logged_all.
  - simpl in Hl. lia.
  - assert (S0 : duplicate_free st -> duplicate_free (logged_all st menu))
      by apply duplicate_free_logged_all.
    cbn [menu_loop]. rewrite (bind_normal _ _ _ _ _ (log_all_run menu st)).
    revert S0. generalize (logged_all st menu). intros st0 S0.
    simpl in Hl.
    assert (Hrest : incl rest (choice :: rest)) by (intros a Ha; now right).
    destruct (str_eqb (text choice) (u16 "1")).
    { destruct rest as [|a rest']; [now apply loop_outcome_display|].
      apply (loop_outcome_step _ _ _ rest');
        [apply keeps_handleCurrentWeather | exact S0
        | intros b Hb; right; now right | apply IH; simpl in *; lia]. }
    destruct (str_eqb (text choice) (u16 "2")).
    { destruct rest as [|a rest']; [now apply loop_outcome_display|].
      apply (loop_outcome_step _ _ _ rest');
        [apply keeps_handleForecast | exact S0
        | intros b Hb; right; now right | apply IH; simpl in *; lia]. }
    destruct (str_eqb (text choice) (u16 "3")).
    { apply (loop_outcome_step _ _ _ rest);
        [apply keeps_displayFavoriteCities | exact S0 | exact Hrest
        | apply IH; lia]. }
    destruct (str_eqb (text choice) (u16 "4")).
    { destruct rest as [|a rest']; [now apply loop_outcome_awaiting|].
      apply (loop_outcome_step _ _ _ rest');
        [apply keeps_handleAddFavorite | exact S0
        | intros b Hb; right; now right | apply IH; simpl in *; lia]. }
    destruct (str_eqb (text choice) (u16 "5")).
    { unfold bind at 1, get_favoriteCities at 1.
      destruct (favoriteCities st0) as [|c l].
      - apply (loop_outcome_step _ _ _ rest);
          [apply keeps_handleRemoveFavorite | exact S0 | exact Hrest
          | apply IH; lia].
      - destruct rest as [|a rest']; [now apply loop_outcome_display|].
        apply (loop_outcome_step _ _ _ rest');
          [apply keeps_handleRemoveFavorite | exact S0
          | intros b Hb; right; now right | apply IH; simpl in *; lia]. }
    destruct (str_eqb (text choice) (u16 "6")).
    { destruct rest as [|a rest'].
      - rewrite (bind_normal _ _ _ _ _ (log_all_run setup_intro st0)).
        apply loop_outcome_awaiting. intros S. apply duplicate_free_logged_all.
        now apply S0.
      - apply (loop_outcome_step _ _ _ rest');
          [apply keeps_setupApiKey | exact S0
          | intros b Hb; right; now right | apply IH; simpl in *; lia]. }
    destruct (str_eqb (text choice) (u16 "7")) eqn:E7.
    { apply str_eqb_eq in E7. unfold bind, console_log, ret.
      exists Returned, (logged st0 farewell). split; [reflexivity|].
      split; [now left|]. split.
      - intros _. split; [exists choice; split; [now left | exact E7]|].
        exists (console st0). reflexivity.
      - intros S. apply duplicate_free_logged. now apply S0. }
    unfold bind at 1, console_log at 1.
    destruct (IH rest ltac:(lia) (logged st0 notice_invalid_choice))
      as [e [st' [E [He [Hr Hs]]]]].
    exists e, st'. split; [exact E|]. split; [exact He|]. split.
    + intros Er. destruct (Hr Er) as [[a [Hin Ht]] Hc].
      split; [|exact Hc]. exists a. split; [now right | exact Ht].
    + intros S. apply Hs. apply duplicate_free_logged. now apply S0.
Qed.

End LoopFacts.

Section RunFacts.
Context `{JSON} `{NumberToString} `{DateFormat} `{EngineMessages}.
Variable net_weather : Request -> Upstream CurrentWeather.
Variable net_forecast : Request -> Upstream Forecast.

Lemma start_run (script : list Answer) (st : Session) :
  start script st
  = let greeted := logged st welcome in
    if value_truthy (apiKey st) then (Normal (inr script), greeted)
    else
      match script with
      | [] => (Normal (inl AwaitingInput), logged_all greeted setup_intro)
      | a :: rest =>
        match setupApiKey (text a) (instant a) greeted with
        | (Normal _, st') => (Normal (inr rest), st')
        | (Throw e, st') => (Normal (inl (Rejected (Thrown e))), st')
        end
      end.
Proof.
  unfold start, bind at 1, console_log at 1, bind at 1, get_apiKey at 1.
  cbn [apiKey logged]. cbv zeta.
  destruct (value_truthy (apiKey st)); [reflexivity|]. cbn [negb].
  destruct script as [|a rest].
  - now rewrite (bind_normal _ _ _ _ _ (log_all_run setup_intro (logged st welcome))).
  - unfold try_catch, bind, ret.
    destruct (setupApiKey _ _ _) as [[[]|e] st']; reflexivity.
Qed.

(** X12: the loop of the menu never throws and is never rejected: from any
    session, on any answers and with any upstream, it completes, either by
    command 7 or because the answers have run out.  It returns only when
    some answer was "7", and the farewell is then the last line logged. *)
Theorem menu_loop_never_rejects (script : list Answer) (st : Session) :
  exists e st',
    menu_loop net_weather net_forecast script st = (Normal e, st')
    /\ (e = Returned \/ e = AwaitingInput)
    /\ (e = Returned ->
        (exists a, In a script /\ text a = u16 "7")
        /\ exists before, console st' = before ++ [farewell]).
Proof.
  destruct (menu_loop_outcome net_weather net_forecast (List.length script) script (le_n _) st)
    as [e [st' [E [He [Hr _]]]]].
  exists e, st'. split; [exact E|]. split; [exact He | exact Hr].
Qed.

(** X13: the menu keeps the list of favorites free of duplicates.  From a
    session whose list has no city twice, the list in the session in which
    the loop ends has no city twice, whatever was typed, whatever the
    upstream answered, and whether or not the writes went through. *)
Theorem menu_loop_duplicate_free (script : list Answer) (st : Session) :
  NoDup (favoriteCities st) ->
  NoDup (favoriteCities (snd (menu_loop net_weather net_forecast script st))).
Proof.
  intros S.
  destruct (menu_loop_outcome net_weather net_forecast (List.length script) script
              (le_n _) st)
    as [e [st' [E [_ [_ Hs]]]]].
  rewrite E. now apply Hs.
Qed.

(** X14: [run] as documented (the copy of the file without the stray
    identifier) completes on every script.  It is rejected only when
    [this.apiKey] was falsy and the write of the first [setupApiKey] threw,
    the session being then the one after the welcome line and the three
    introductory lines; and it returns only on an answer "7". *)
Theorem run_documented_outcome (script : list Answer) (st : Session) :
  exists e st',
    run_documented net_weather net_forecast script st = (Normal e, st')
    /\ (forall reason, e = Rejected reason ->
          value_truthy (apiKey st) = false
          /\ fs st configFile = Some Directory
          /\ reason = Thrown SystemError
          /\ st' = logged_all (logged st welcome) setup_intro)
    /\ (e = Returned -> exists a, In a script /\ text a = u16 "7").
Proof.
  unfold run_documented, bind at 1. rewrite start_run. cbv zeta.
  assert (Loop : forall rest st0,
            incl rest script ->
            exists e st',
              menu_loop net_weather net_forecast rest st0 = (Normal e, st')
              /\ (forall reason, e = Rejected reason ->
                    value_truthy (apiKey st) = false
                    /\ fs st configFile = Some Directory
                    /\ reason = Thrown SystemError
                    /\ st' = logged_all (logged st welcome) setup_intro)
              /\ (e = Returned -> exists a, In a script /\ text a = u16 "7")).
  { intros rest st0 Hi.
    destruct (menu_loop_outcome net_weather net_forecast (List.length rest) rest
                (le_n _) st0)
      as [e [st' [E [He [Hr _]]]]].
    exists e, st'. split; [exact E|]. split.
    - intros reason Er. destruct He; congruence.
    - intros Er. destruct (Hr Er) as [[a [Hin Ht]] _]. exists a.
      split; [now apply Hi | exact Ht]. }
  destruct (value_truthy (apiKey st)) eqn:Ek.
  { apply Loop. apply incl_refl. }
  destruct script as [|a rest].
  { exists AwaitingInput, (logged_all (logged st welcome) setup_intro).
    split; [reflexivity|]. split; discriminate. }
  rewrite setupApiKey_run. cbv zeta. unfold fs_writeFileSync.
  cbn [fs logged].
  destruct (fs st configFile) as [[old|]|] eqn:Ef.
  1, 3: apply Loop; intros b Hb; now right.
  exists (Rejected (Thrown SystemError)), (logged_all (logged st welcome) setup_intro).
  split; [reflexivity|]. split.
  - intros reason Er. inversion Er. now repeat split.
  - discriminate.
Qed.

(** X15: [run] of [src/app.js] never reaches the prompt of the menu.  After
    the eighth line of the menu the identifier [x] is evaluated, which is not
    defined, so a run that gets there is rejected with that reference error.
    Hence [run] never returns; no command is read, so the answers after the
    one [setupApiKey] may take are of no account; and with a key in place it
    logs the welcome and the menu once and changes nothing else. *)
Theorem run_stops_at_stray_identifier (script : list Answer) (st : Session) :
  fst (run script st) <> Normal Returned
  /\ (forall a rest rest', run (a :: rest) st = run (a :: rest') st)
  /\ (value_truthy (apiKey st) = true ->
      run script st
      = (Normal (Rejected (ReferenceError (u16 "x"))),
         logged_all (logged st welcome) menu)
      /\ apiKey (logged_all (logged st welcome) menu) = apiKey st
      /\ favoriteCities (logged_all (logged st welcome) menu) = favoriteCities st
      /\ fs (logged_all (logged st welcome) menu) = fs st)
  /\ (value_truthy (apiKey st) = false ->
      forall a rest, script = a :: rest ->
      fs st configFile <> Some Directory ->
      fst (run script st) = Normal (Rejected (ReferenceError (u16 "x")))).
Proof.
  assert (Erun : forall s,
            run s st
            = match start s st with
              | (Normal (inl ended), st') => (Normal ended, st')
              | (Normal (inr _), st') =>
                (Normal (Rejected (ReferenceError (u16 "x"))), logged_all st' menu)
              | (Throw e, st') => (Throw e, st')
              end).
  { intros s. unfold run, bind at 1.
    destruct (start s st) as [[[ended|left]|e] st']; [reflexivity| |reflexivity].
    now rewrite (bind_normal _ _ _ _ _ (log_all_run menu st')). }
  split; [|split; [|split]].
  - rewrite Erun, start_run. cbv zeta.
    destruct (value_truthy (apiKey st)); [discriminate|].
    destruct script as [|a rest]; [discriminate|].
    destruct (setupApiKey _ _ _) as [[[]|e] st']; discriminate.
  - intros a rest rest'. rewrite !Erun, !start_run. cbv zeta.
    destruct (value_truthy (apiKey st)); [reflexivity|].
    destruct (setupApiKey _ _ _) as [[[]|e] st']; reflexivity.
  - intros Ek. split.
    + rewrite Erun, start_run. cbv zeta. now rewrite Ek.
    + apply (logged_all_fields (logged st welcome) menu).
  - intros Ek a rest -> Hd. rewrite Erun, start_run. cbv zeta. rewrite Ek.
    rewrite setupApiKey_run. cbv zeta. cbn [fs logged].
    now rewrite (fs_writeFileSync_ok _ _ _ Hd).
Qed.

End RunFacts.

(* ===================================================================== *)
(** * Further properties: the constructor *)
(* ===================================================================== *)

Lemma as_strings_strings (l : list jsstring) : as_strings (strings l) = Some l.
Proof.
  unfold as_strings, strings. induction l as [|c l IH]; [reflexivity|].
  cbn [map as_strings_items]. now rewrite IH.
Qed.

Lemma constructor_run `{JSON} (files : filesystem) (out : list jsstring) :
  constructor files out
  = match loadApiKey (blank files out) with
    | (Normal key, st1) =>
      match loadFavoriteCities (with_apiKey st1 key) with
      | (Normal loaded, st2) =>
        match as_strings loaded with
        | Some l => Some (with_favoriteCities st2 l)
        | None => None
        end
      | (Throw _, _) => None
      end
    | (Throw _, _) => None
    end.
Proof. reflexivity. Qed.

(** X16: a new process finds what the last one left.  On the files of a
    session whose favorites file holds its list, and whose configuration file
    is the one [setupApiKey] wrote for a key, and for a JSON implementation
    that reads these two texts back, the constructor ends with that key and
    that list, writes nothing and logs nothing. *)
Theorem constructor_restores `{JSON} (st : Session) (key now : jsstring)
    (out : list jsstring) :
  JSON_parse (JSON_stringify2 (config_of key now)) = Some (config_of key now) ->
  JSON_parse (JSON_stringify2 (strings (favoriteCities st)))
    = Some (strings (favoriteCities st)) ->
  fs st configFile = Some (File (JSON_stringify2 (config_of key now))) ->
  persisted st ->
  constructor (fs st) out
  = Some {| apiKey := J (JString key); favoriteCities := favoriteCities st;
            fs := fs st; console := out |}.
Proof.
  intros Hc Hf Ec P. unfold persisted in P. rewrite constructor_run.
  generalize dependent (fs st). intros files Ec P.
  generalize dependent (favoriteCities st). intros l Hf P.
  rewrite loadApiKey_run. unfold blank at 1. cbn [fs].
  rewrite configPath_is_configFile, Ec, Hc. unfold config_of at 1.
  rewrite config_of_apiKey, loadFavoriteCities_run.
  unfold blank, with_apiKey. cbn [fs apiKey favoriteCities console].
  rewrite P, Hf, as_strings_strings. reflexivity.
Qed.

(** X17: the first start.  With neither file there, the constructor ends
    with [null] for the key and no favorites, and logs nothing; the key being
    falsy, [run] begins with [setupApiKey]: on an answer, the session after
    the welcome line is the one [setupApiKey] is run from. *)
Theorem constructor_first_run `{JSON} (files : filesystem) (out : list jsstring)
    (a : Answer) (rest : list Answer) :
  files configFile = None ->
  files favoritesFile = None ->
  exists st,
    constructor files out = Some st
    /\ st = {| apiKey := J JNull; favoriteCities := []; fs := files; console := out |}
    /\ start (a :: rest) st
       = match setupApiKey (text a) (instant a) (logged st welcome) with
         | (Normal _, st') => (Normal (inr rest), st')
         | (Throw e, st') => (Normal (inl (Rejected (Thrown e))), st')
         end.
Proof.
  intros Ec Ef. eexists. split; [|split; [reflexivity|]].
  - rewrite constructor_run, loadApiKey_run. unfold blank at 1. cbn [fs].
    rewrite configPath_is_configFile, Ec, loadFavoriteCities_run.
    unfold blank, with_apiKey. cbn [fs apiKey favoriteCities console].
    rewrite Ef. reflexivity.
  - rewrite start_run. reflexivity.
Qed.

(* ===================================================================== *)
(** * Further properties: the forecast aggregator *)
(* ===================================================================== *)

Section ObjectFacts3.
Variable V : Type.
Implicit Types (o : object V) (k : jsstring).

Lemma own_insert_index o (i : N) k (v : V) :
  own o k = None -> own (insert_index i k v o) k = Some v.
Proof.
  induction o as [|[k0 v0] o IH]; simpl.
  - intros _. now rewrite str_eqb_refl.
  - destruct (str_eqb k0 k) eqn:E; [discriminate|]. intros Ho.
    destruct (array_index k0) as [j|]; [destruct (j <? i)%N|]; simpl;
      rewrite ?E, ?str_eqb_refl; auto.
Qed.

Lemma own_create o k (v : V) : own o k = None -> own (create o k v) k = Some v.
Proof.
  intros Ho. unfold create. destruct (array_index k) as [i|].
  - now apply own_insert_index.
  - now rewrite own_app, Ho, str_eqb_refl.
Qed.

Variable size : V -> nat.

Lemma total_insert_index o (i : N) k (v : V) :
  list_sum (map size (values (insert_index i k v o)))
  = (size v + list_sum (map size (values o)))%nat.
Proof.
  unfold values. induction o as [|[k0 v0] o IH]; simpl; [reflexivity|].
  destruct (array_index k0) as [j|]; [destruct (j <? i)%N|]; simpl;
    rewrite ?IH; lia.
Qed.

Lemma total_create o k (v : V) :
  list_sum (map size (values (create o k v)))
  = (size v + list_sum (map size (values o)))%nat.
Proof.
  unfold create. destruct (array_index k) as [i|]; [apply total_insert_index|].
  unfold values. rewrite !map_app, list_sum_app. simpl. lia.
Qed.

Lemma total_mutate o k (f : V -> V) (b : V) :
  own o k = Some b ->
  (forall v, size (f v) = S (size v)) ->
  list_sum (map size (values (mutate o k f))) = S (list_sum (map size (values o))).
Proof.
  intros Ho Hf. unfold values. revert Ho.
  induction o as [|[k0 v0] o IH]; simpl; [discriminate|].
  destruct (str_eqb k0 k); simpl.
  - intros _. rewrite Hf. reflexivity.
  - intros Ho. rewrite (IH Ho). lia.
Qed.

End ObjectFacts3.

Section Aggregator.
Context `{DateFormat}.

Lemma group_item_total (daily daily' : object DailyForecast) (item : ForecastItem) :
  group_item daily item = Normal daily' ->
  sample_count daily' = S (sample_count daily).
Proof.
  unfold group_item, sample_count, Get. cbv zeta.
  assert (Hpush : forall t d, List.length (temps (push_temp t d)) = S (List.length (temps d))).
  { intros t d. unfold push_temp, push. cbn [temps]. rewrite length_app. simpl. lia. }
  destruct (own daily (dateKey_of item)) as [b|] eqn:Eo.
  - intros [= <-]. now apply (total_mutate _ _ _ _ _ b).
  - destruct (inherited (dateKey_of item)); [discriminate|]. intros [= <-].
    erewrite total_mutate; [|now apply own_create | exact (Hpush _)].
    rewrite total_create. reflexivity.
Qed.

Lemma forEach_total (items : list ForecastItem) :
  forall daily daily',
    forEach group_item daily items = Normal daily' ->
    sample_count daily' = (sample_count daily + List.length items)%nat.
Proof.
  induction items as [|x items IH]; intros daily daily'; simpl.
  - intros [= <-]. lia.
  - destruct (group_item daily x) as [d1|e] eqn:E1; [|discriminate].
    intros E. rewrite (IH _ _ E), (group_item_total _ _ _ E1). lia.
Qed.

(** X18: the grouping loses no sample and counts none twice.  Whenever the
    loop of [displayForecast] completes, the temperatures held by all the
    buckets together are as many as the items of [data.list], whatever the
    date keys are. *)
Theorem grouping_conserves_samples (items : list ForecastItem)
    (daily : object DailyForecast) :
  group_by_day items = Normal daily ->
  sample_count daily = List.length items.
Proof.
  intros E. apply forEach_total in E. exact E.
Qed.

End Aggregator.

(* ===================================================================== *)
(** * Facts about the reference host *)
(* ===================================================================== *)

Module ReferenceFacts.
Import Reference.

Lemma hex_digit_value (d : N) : (d < 16)%N -> hex_value (hex_digit d) = Some d.
Proof.
  intros Hd.
  assert (E : (d = 0 \/ d = 1 \/ d = 2 \/ d = 3 \/ d = 4 \/ d = 5 \/ d = 6 \/ d = 7
               \/ d = 8 \/ d = 9 \/ d = 10 \/ d = 11 \/ d = 12 \/ d = 13 \/ d = 14
               \/ d = 15)%N) by lia.
  repeat destruct E as [E|E]; subst; reflexivity.
Qed.

Lemma hex4_value_escape (u : N) :
  (u < 65536)%N ->
  hex4_value (hex_digit (u / 4096)) (hex_digit ((u / 256) mod 16))
    (hex_digit ((u / 16) mod 16)) (hex_digit (u mod 16)) = Some u.
Proof.
  intros Hu. unfold hex4_value.
  rewrite !hex_digit_value.
  - f_equal.
    pose proof (N.div_mod u 16 ltac:(discriminate)) as E0.
    pose proof (N.div_mod (u / 16) 16 ltac:(discriminate)) as E1.
    pose proof (N.div_mod (u / 256) 16 ltac:(discriminate)) as E2.
    rewrite N.Div0.div_div in E1. change (16 * 16)%N with 256%N in E1.
    rewrite N.Div0.div_div in E2. change (256 * 16)%N with 4096%N in E2.
    assert (H4 : (u / 4096 < 16)%N) by (apply N.Div0.div_lt_upper_bound; lia).
    assert (E3 : ((u / 4096) mod 16 = u / 4096)%N) by now apply N.mod_small.
    lia.
  - apply N.mod_lt. discriminate.
  - apply N.mod_lt. discriminate.
  - apply N.mod_lt. discriminate.
  - apply N.Div0.div_lt_upper_bound. lia.
Qed.

Lemma read_unicode_escape (u : N) (t acc : jsstring) :
  (u < 65536)%N ->
  read_chars (unicode_escape u ++ t) acc = read_chars t (u :: acc).
Proof.
  intros Hu. unfold unicode_escape. cbn [app read_chars].
  change (92 =? 34)%N with false. change (92 =? 92)%N with true.
  change (117 =? 117)%N with true. cbv iota.
  now rewrite hex4_value_escape.
Qed.

Lemma read_literal (u : N) (t acc : jsstring) :
  u <> 34%N -> u <> 92%N -> (32 <= u)%N ->
  read_chars (u :: t) acc = read_chars t (u :: acc).
Proof.
  intros H1 H2 H3. cbn [read_chars].
  apply N.eqb_neq in H1, H2. rewrite H1, H2.
  replace (u <? 32)%N with false by (symmetry; apply N.ltb_ge; assumption).
  reflexivity.
Qed.

Lemma read_escape_unit (u : N) (t acc : jsstring) :
  (u < 55296)%N \/ (57343 < u)%N ->
  read_chars (escape_unit u ++ t) acc = read_chars t (u :: acc).
Proof.
  intros Hu. unfold escape_unit.
  destruct (N.eqb_spec u 8) as [->|N8]; [reflexivity|].
  destruct (N.eqb_spec u 9) as [->|N9]; [reflexivity|].
  destruct (N.eqb_spec u 10) as [->|N10]; [reflexivity|].
  destruct (N.eqb_spec u 12) as [->|N12]; [reflexivity|].
  destruct (N.eqb_spec u 13) as [->|N13]; [reflexivity|].
  destruct (N.eqb_spec u 34) as [->|N34]; [reflexivity|].
  destruct (N.eqb_spec u 92) as [->|N92]; [reflexivity|].
  destruct (N.ltb_spec u 32) as [L|L].
  - apply read_unicode_escape. lia.
  - now apply read_literal.
Qed.

Lemma surrogate_range (u : N) :
  (is_high_surrogate u = true -> (55296 <= u <= 56319)%N)
  /\ (is_low_surrogate u = true -> (56320 <= u <= 57343)%N)
  /\ (is_high_surrogate u = false -> is_low_surrogate u = false ->
      (u < 55296)%N \/ (57343 < u)%N).
Proof.
  unfold is_high_surrogate, is_low_surrogate.
  destruct (N.leb_spec 55296 u), (N.leb_spec u 56319), (N.leb_spec 56320 u),
    (N.leb_spec u 57343); cbn [andb]; repeat split; try discriminate; lia.
Qed.

(** Reading back what [quote_units] wrote. *)
Lemma read_quote_units (s : jsstring) :
  forall acc rest,
    read_chars (quote_units s ++ 34%N :: rest) acc = Some (rev acc ++ s, rest).
Proof.
  remember (List.length s) as n eqn:En.
  revert s En. induction n as [n IH] using lt_wf_ind. intros s En acc rest.
  destruct s as [|u r].
  - cbn [quote_units app read_chars]. change (34 =? 34)%N with true. cbv iota.
    now rewrite app_nil_r.
  - assert (Hr : forall acc', read_chars (quote_units r ++ 34%N :: rest) acc'
                              = Some (rev acc' ++ r, rest)).
    { intros acc'. apply (IH (List.length r)); [subst n; simpl; lia | reflexivity]. }
    assert (Hstep : rev (u :: acc) ++ r = rev acc ++ u :: r).
    { cbn [rev]. now rewrite <- app_assoc. }
    destruct (surrogate_range u) as [Hhi [Hlo Hno]].
    cbn [quote_units].
    destruct (is_high_surrogate u) eqn:Eh.
    + specialize (Hhi eq_refl).
      destruct r as [|v r'].
      * rewrite read_unicode_escape by lia. cbn [read_chars].
        change (34 =? 34)%N with true. cbv iota. reflexivity.
      * destruct (is_low_surrogate v) eqn:El.
        -- destruct (surrogate_range v) as [_ [Hlov _]]. specialize (Hlov El).
           cbn [app]. rewrite read_literal by lia. rewrite read_literal by lia.
           rewrite (IH (List.length r')); [|subst n; simpl; lia | reflexivity].
           cbn [rev]. now rewrite <- !app_assoc.
        -- rewrite <- app_assoc, read_unicode_escape by lia.
           now rewrite Hr, Hstep.
    + destruct (is_low_surrogate u) eqn:El.
      * specialize (Hlo eq_refl).
        rewrite <- app_assoc, read_unicode_escape by lia. now rewrite Hr, Hstep.
      * rewrite <- app_assoc, read_escape_unit by now apply Hno.
        now rewrite Hr, Hstep.
Qed.

Lemma read_value_string (fuel : nat) (x more : jsstring) :
  read_value (S fuel) ((10 :: 32 :: 32 :: quote x)%N ++ more) = Some (JString x, more).
Proof.
  unfold quote. cbn [read_value app].
  change (skip_space (10 :: 32 :: 32 :: 34 :: (quote_units x ++ [34]) ++ more)%N)
    with (34 :: (quote_units x ++ [34]) ++ more)%N.
  change (34 =? 34)%N with true. cbv iota.
  rewrite <- app_assoc. cbn [app]. now rewrite read_quote_units.
Qed.

Lemma read_elements_last (fuel : nat) (t more rest : jsstring) (v : json)
  (acc : list json) :
  read_value fuel t = Some (v, more) -> skip_space more = 93%N :: rest ->
  read_elements (S fuel) t acc = Some (JArray (rev (v :: acc)), rest).
Proof. intros Ev Es. cbn [read_elements]. now rewrite Ev, Es. Qed.

Lemma read_elements_next (fuel : nat) (t more rest : jsstring) (v : json)
  (acc : list json) :
  read_value fuel t = Some (v, more) -> skip_space more = 44%N :: rest ->
  read_elements (S fuel) t acc = read_elements fuel rest (v :: acc).
Proof. intros Ev Es. cbn [read_elements]. now rewrite Ev, Es. Qed.

Lemma read_elements_strings (l : list jsstring) :
  forall x acc fuel rest,
    (List.length l + 2 <= fuel)%nat ->
    read_elements fuel
      ((10 :: 32 :: 32 :: quote x)%N ++ element_tail l ++ (10 :: 93 :: rest)%N) acc
    = Some (JArray (rev acc ++ JString x :: map JString l), rest).
Proof.
  induction l as [|y l IH]; intros x acc fuel rest Hf.
  - destruct fuel as [|[|f]]; try (simpl in Hf; lia).
    erewrite read_elements_last;
      [reflexivity | apply read_value_string | reflexivity].
  - destruct fuel as [|[|f]]; try (simpl in Hf; lia).
    rewrite (read_elements_next (S f) _
               (element_tail (y :: l) ++ (10 :: 93 :: rest)%N)
               ((10 :: 32 :: 32 :: quote y)%N ++ element_tail l
                  ++ (10 :: 93 :: rest)%N) (JString x)).
    2: apply read_value_string.
    2: { cbn [element_tail map flat_map]. fold (element_tail l).
         rewrite <- app_assoc. reflexivity. }
    rewrite IH by (simpl in Hf; lia).
    cbn [rev map]. now rewrite <- app_assoc.
Qed.

Lemma element_tail_length (l : list jsstring) :
  (List.length l <= List.length (element_tail l))%nat.
Proof.
  induction l as [|y l IH]; [apply Nat.le_refl|].
  cbn [element_tail map flat_map]. fold (element_tail l).
  rewrite length_app. simpl. lia.
Qed.

Lemma stringify_strings (x : jsstring) (l : list jsstring) :
  stringify [] (strings (x :: l))
  = 91%N :: (10 :: 32 :: 32 :: quote x)%N ++ element_tail l ++ [10; 93]%N.
Proof.
  unfold strings. cbn [map stringify]. unfold join, element_tail.
  rewrite map_map. cbn [stringify app].
  change (u16 "[") with [91%N]. change nl with [10%N]. change gap with [32; 32]%N.
  change (u16 "]") with [93%N]. change (u16 ",") with [44%N].
  cbn [app]. rewrite <- app_assoc. reflexivity.
Qed.

(** The reference JSON reads back the arrays of strings it writes. *)
Lemma parse_stringify_strings (l : list jsstring) :
  JSON_parse (JSON_stringify2 (strings l)) = Some (strings l).
Proof.
  cbn [JSON_parse JSON_stringify2 reference_JSON]. unfold parse_text.
  destruct l as [|x l]; [reflexivity|].
  rewrite stringify_strings.
  set (body := (10 :: 32 :: 32 :: quote x)%N ++ element_tail l ++ [10; 93]%N).
  assert (Hlen : (List.length l + 2 <= List.length (91%N :: body))%nat).
  { subst body. pose proof (element_tail_length l).
    cbn [List.length app]. rewrite !length_app. simpl. lia. }
  assert (Hval : read_value (S (List.length (91%N :: body))) (91%N :: body)
                 = read_elements (List.length (91%N :: body)) body []).
  { subst body. unfold quote. reflexivity. }
  rewrite Hval. subst body.
  rewrite read_elements_strings by assumption.
  reflexivity.
Qed.

Lemma slash_not_index (k : jsstring) : In 47%N k -> array_index k = None.
Proof.
  intros Hin. unfold array_index. destruct k as [|d r]; [reflexivity|].
  assert (E : forallb is_digit (d :: r) = false).
  { destruct (forallb is_digit (d :: r)) eqn:E; [|reflexivity].
    rewrite forallb_forall in E. specialize (E _ Hin). discriminate. }
  now rewrite E.
Qed.

Lemma slash_not_inherited (k : jsstring) : In 47%N k -> inherited k = false.
Proof.
  intros Hin. unfold inherited.
  destruct (existsb (str_eqb k) object_prototype_names) eqn:E; [|reflexivity].
  apply existsb_exists in E. destruct E as [name [Hname Ek]].
  apply str_eqb_eq in Ek. subst name.
  assert (Hno : forallb (fun name => negb (existsb (N.eqb 47) name))
                  object_prototype_names = true) by (vm_compute; reflexivity).
  rewrite forallb_forall in Hno. specialize (Hno _ Hname).
  apply negb_true_iff in Hno.
  assert (Hyes : existsb (N.eqb 47) k = true).
  { apply existsb_exists. exists 47%N. split; [assumption | reflexivity]. }
  congruence.
Qed.

Lemma slash_plain (k : jsstring) : In 47%N k -> plain_key k = true.
Proof.
  intros Hin. unfold plain_key.
  now rewrite slash_not_index, slash_not_inherited.
Qed.

(** Every date string of the reference host is a plain key. *)
Lemma date_string_plain (t : number) : plain_key (toLocaleDateString_jaJP t) = true.
Proof.
  cbn [toLocaleDateString_jaJP reference_DateFormat]. unfold date_string.
  destruct (time_value t) as [ms|]; [|vm_compute; reflexivity].
  destruct (civil_from_days (ms / ms_per_day)) as [[y m] d].
  apply slash_plain. apply in_or_app. right. now left.
Qed.

End ReferenceFacts.

(* ===================================================================== *)
(** * The theorems at concrete inputs *)
(* ===================================================================== *)

Module Witnesses.
Import Reference ReferenceFacts Examples.

Lemma two_cities_NoDup : NoDup (favoriteCities two_cities).
Proof.
  repeat constructor; vm_compute; intuition discriminate.
Qed.

(** "tokyo" is not "Tokyo": it is appended, and the list stays
    duplicate-free. *)
Lemma favorites_duplicate_free_witness :
  NoDup (favoriteCities two_cities)
  /\ favoriteCities (snd (addFavoriteCity (u16 "tokyo") two_cities))
     = [u16 "Tokyo"; u16 "London"; u16 "tokyo"]
  /\ NoDup (favoriteCities (snd (addFavoriteCity (u16 "tokyo") two_cities))).
Proof.
  split; [exact two_cities_NoDup|].
  split; [reflexivity|].
  exact (proj1 (favorites_duplicate_free two_cities (u16 "tokyo")
                  two_cities_NoDup)).
Defined.

(** Scenario B: favorites ["Tokyo", "London"], remove "Paris". *)
Lemma remove_not_found_or_removed_witness :
  ~ In (u16 "Paris") (favoriteCities two_cities)
  /\ removeFavoriteCity (u16 "Paris") two_cities
     = (Normal tt,
        logged two_cities (notice_not_found (u16 "Paris"))).
Proof.
  assert (Hn : ~ In (u16 "Paris") (favoriteCities two_cities))
    by (vm_compute; intuition discriminate).
  split; [exact Hn|].
  exact (proj1 (proj1 (remove_not_found_or_removed two_cities (u16 "Paris"))
                  Hn)).
Defined.

Lemma handleAddFavorite_trims_witness :
  forallb is_white_space (u16 "  Osaka ") = false
  /\ handleAddFavorite (u16 "  Osaka ") two_cities
     = addFavoriteCity (u16 "Osaka") two_cities.
Proof.
  split; [reflexivity|].
  exact (proj1 (proj2 (handleAddFavorite_trims two_cities (u16 "  Osaka ")))
           eq_refl).
Defined.


(** A configuration file that is not JSON: [null], and the diagnostic. *)
Lemma loadApiKey_never_raises_witness :
  fs broken_config configPath = Some (File (u16 "{ apiKey: "))
  /\ JSON_parse (u16 "{ apiKey: ") = None
  /\ loadApiKey broken_config = (Normal (J JNull), logged broken_config notice_no_config).
Proof.
  split; [reflexivity|]. split; [reflexivity|].
  exact (proj1 (proj2 (proj2 (loadApiKey_never_raises broken_config)))
           (u16 "{ apiKey: ") eq_refl eq_refl).
Defined.

(** Saving ["Tokyo", "London"], and loading in a new session, which has no
    favorites in memory, on the files that are left. *)
Lemma save_then_load_witness :
  (forall l, JSON_parse (JSON_stringify2 (strings l)) = Some (strings l))
  /\ saveFavoriteCities two_cities = (Normal tt, snd (saveFavoriteCities two_cities))
  /\ let reader := {| apiKey := Undefined; favoriteCities := [];
                      fs := fs (snd (saveFavoriteCities two_cities));
                      console := [] |} in
     loadFavoriteCities reader
     = (Normal (strings [u16 "Tokyo"; u16 "London"]), reader).
Proof.
  split; [exact parse_stringify_strings|]. split; [reflexivity|].
  intros reader.
  exact (proj1 (proj2 (save_then_load two_cities (snd (saveFavoriteCities two_cities))
                         parse_stringify_strings eq_refl))
           reader eq_refl).
Defined.

(** Seven days of samples: the first five days are presented. *)
Lemma forecast_grouped_by_day_witness :
  (forall t, plain_key (toLocaleDateString_jaJP t) = true)
  /\ exists daily,
       group_by_day seven_days = Normal daily
       /\ map date (presented daily)
          = [u16 "2024/1/15"; u16 "2024/1/16"; u16 "2024/1/17"; u16 "2024/1/18";
             u16 "2024/1/19"].
Proof.
  split; [exact date_string_plain|].
  destruct (forecast_grouped_by_day seven_days two_cities date_string_plain)
    as [daily [Erun [_ [_ [_ [Edates _]]]]]].
  exists daily. split; [exact Erun | exact Edates].
Defined.

(** The three samples of the specification, and two samples of one day at
    10.46 and 20.27 degrees, which are shown as 10.5 and 20.3. *)
Lemma temperature_range_of_bucket_witness :
  (forall t, plain_key (toLocaleDateString_jaJP t) = true)
  /\ (exists daily day1 day2,
        group_by_day three_samples = Normal daily
        /\ presented daily = [day1; day2]
        /\ date day1 = u16 "2024/1/15"
        /\ temperature_line day1 = u16 "   🌡️  10.0°C - 20.0°C")
  /\ (exists daily day,
        group_by_day two_fractions = Normal daily
        /\ presented daily = [day]
        /\ temperature_line day = u16 "   🌡️  10.5°C - 20.3°C"
        /\ exists n : Z,
             toFixed1 (Math_min (temps day))
             = decimal (Z.to_N (n / 10)) ++ u16 "." ++ [(48 + Z.to_N (n mod 10))%N]
             /\ n = 105%Z).
Proof.
  split; [exact date_string_plain|]. split.
  - destruct (temperature_range_of_bucket three_samples two_cities date_string_plain)
      as [daily [Erun [_ Hex]]].
    destruct (Hex _ _ _ eq_refl eq_refl ltac:(vm_compute; discriminate)
                eq_refl eq_refl eq_refl)
      as [day1 [day2 [Ep [Ed El]]]].
    exists daily, day1, day2. repeat split; assumption.
  - destruct (temperature_range_of_bucket two_fractions two_cities date_string_plain)
      as [daily [Erun [Hb _]]].
    assert (Ed : group_by_day two_fractions
                 = Normal [(u16 "2024/1/15",
                            bucket (u16 "2024/1/15")
                              (hundredths 1705276800 1046)
                              [hundredths 1705287600 2027])])
      by (vm_compute; reflexivity).
    rewrite Ed in Erun. injection Erun as <-.
    eexists _, _. split; [exact Ed|]. split; [reflexivity|].
    split; [vm_compute; reflexivity|].
    destruct (Hb _ (or_introl eq_refl)) as [_ [_ [_ [_ [_ Hfmt]]]]].
    destruct (Hfmt _ (or_introl eq_refl) eq_refl ltac:(vm_compute; reflexivity))
      as [n [Etext [Hn [Hlo Hhi]]]].
    exists n. split.
    + rewrite Etext. reflexivity.
    + clear Etext Hb Hfmt Ed.
      match type of Hhi with
      | _ <= ?a + _ =>
        let v := eval vm_compute in a in
        change a with v in Hlo, Hhi
      end.
      unfold Qdiv in Hlo, Hhi. change (/ (10 # 1)) with (1 # 10) in Hlo, Hhi.
      unfold Qlt, Qle, Qminus, Qplus, Qmult, Qopp in Hlo, Hhi.
      cbn [Qnum Qden inject_Z] in Hlo, Hhi. lia.
Defined.

(** Statuses 404, 401 and 500 on the current-weather fetch, 404 on the
    forecast fetch. *)
Example status_404 :
  fst (getCurrentWeather (answers 404) (u16 "Atlantis") two_cities) = Throw CityNotFound.
Proof. reflexivity. Qed.

Example status_401 :
  fst (getCurrentWeather (answers 401) (u16 "Tokyo") two_cities) = Throw InvalidCredential.
Proof. reflexivity. Qed.

Example status_500 :
  fst (getCurrentWeather (answers 500) (u16 "Tokyo") two_cities) = Throw FetchFailed_weather.
Proof. reflexivity. Qed.

Example forecast_status_404 :
  fst (getForecast (answers 404) (u16 "Atlantis") two_cities) = Throw FetchFailed_forecast.
Proof. reflexivity. Qed.

(** Visibility 10000 m is shown as 10.0 km; visibility 0 is not shown. *)
Example visibility_10000 :
  filter is_visibility_line
    (console (snd (displayCurrentWeather (report (Some (num 10000))) two_cities)))
  = [u16 "👁️  視界: 10.0 km"].
Proof. vm_compute. reflexivity. Qed.

(** 150 / 1000 is the binary64 value just below 0.15, shown as 0.1; 250 / 1000
    is 0.25 exactly, shown as 0.3. *)
Example visibility_150 :
  filter is_visibility_line
    (console (snd (displayCurrentWeather (report (Some (num 150))) two_cities)))
  = [u16 "👁️  視界: 0.1 km"].
Proof. vm_compute. reflexivity. Qed.

Example visibility_250 :
  filter is_visibility_line
    (console (snd (displayCurrentWeather (report (Some (num 250))) two_cities)))
  = [u16 "👁️  視界: 0.3 km"].
Proof. vm_compute. reflexivity. Qed.

Example visibility_0 :
  filter is_visibility_line
    (console (snd (displayCurrentWeather (report (Some (num 0))) two_cities)))
  = [].
Proof. vm_compute. reflexivity. Qed.

(** Scenario A: an empty list, add "Tokyo". *)
Example add_to_empty :
  favoriteCities
    (snd (addFavoriteCity (u16 "Tokyo") (with_favoriteCities two_cities [])))
  = [u16 "Tokyo"].
Proof. reflexivity. Qed.

(** A visibility of 1234 m is shown as 1.2 km, on one line. *)
Lemma visibility_line_emitted_witness :
  exists lines,
    displayCurrentWeather (report (Some (num 1234))) two_cities
    = (Normal tt, logged_all two_cities lines)
    /\ filter is_visibility_line lines = [u16 "👁️  視界: 1.2 km"]
    /\ exists n : Z,
         toFixed1 (Number_divide (num 1234) (num 1000))
         = decimal (Z.to_N (n / 10)) ++ u16 "." ++ [(48 + Z.to_N (n mod 10))%N]
         /\ Qabs (inject_Z n / (10 # 1) - (1234 # 1000)) <= 51 # 1000.
Proof.
  destruct (visibility_line_emitted (report (Some (num 1234))) two_cities)
    as [lines [Erun [_ [_ Hv]]]].
  destruct (Hv (num 1234) eq_refl eq_refl) as [Eline Hfmt].
  exists lines. split; [exact Erun|]. split.
  - rewrite Eline. vm_compute. reflexivity.
  - destruct (Hfmt eq_refl ltac:(vm_compute; reflexivity))
      as [n [Etext [_ [_ [_ Hnear]]]]].
    exists n. split; [rewrite Etext; reflexivity|].
    assert (Ev : Qabs (R_ (num 1234) / (1000 # 1)) == 1234 # 1000)
      by (vm_compute; reflexivity).
    rewrite Ev in Hnear.
    assert (Ht : (1 # 2) ^ 1075 <= 1 # 2000).
    { change (1 # 2) with (/ (2 # 1)). rewrite Qinv_power.
      assert (Hp : (2000 # 1) <= (2 # 1) ^ 1075).
      { change 1075%Z with (11 + 1064)%Z.
        rewrite Qpower_plus by discriminate.
        assert (H1 : 1 <= (2 # 1) ^ 1064) by (apply Qpower_1_le; [discriminate | lia]).
        assert (H2 : (2 # 1) ^ 11 == 2048 # 1) by reflexivity.
        rewrite H2. generalize dependent ((2 # 1) ^ 1064). intros t H1. nra. }
      generalize dependent ((2 # 1) ^ 1075). intros t Hp.
      apply Qle_shift_inv_r; lra. }
    revert Hnear Ht. generalize ((1 # 2) ^ 1075). generalize (inject_Z n / (10 # 1)).
    intros t tiny Hnear Ht.
    apply Qabs_Qle_condition in Hnear. apply Qabs_Qle_condition.
    destruct Hnear as [H1 H2].
    assert (Hc : (1234 # 1000) * (1 # 9007199254740992) <= 1 # 2000)
      by (vm_compute; discriminate).
    split; lra.
Defined.


(** ** Further properties at concrete inputs *)

Import Scenarios.

Lemma osaka_is_new : ~ In (u16 "Osaka") (favoriteCities two_cities).
Proof. vm_compute. intuition discriminate. Qed.

Lemma tokyo_is_there : In (u16 "Tokyo") (favoriteCities two_cities).
Proof. now left. Qed.

Lemma synced_persisted : persisted synced.
Proof. reflexivity. Qed.

Lemma config_read_back :
  JSON_parse (JSON_stringify2 (config_of some_key some_instant))
  = Some (config_of some_key some_instant).
Proof. vm_compute. reflexivity. Qed.

(** Adding "Osaka" to ["Tokyo", "London"] and removing it again. *)
Lemma add_then_remove_witness :
  ~ In (u16 "Osaka") (favoriteCities two_cities)
  /\ favoriteCities
       (snd (removeFavoriteCity (u16 "Osaka")
               (snd (addFavoriteCity (u16 "Osaka") two_cities))))
     = [u16 "Tokyo"; u16 "London"].
Proof.
  split; [exact osaka_is_new|].
  exact (add_then_remove two_cities (u16 "Osaka") osaka_is_new).
Defined.

(** Removing "Tokyo" from ["Tokyo", "London"]. *)
Lemma remove_takes_one_witness :
  In (u16 "Tokyo") (favoriteCities two_cities)
  /\ S (count_occ (list_eq_dec N.eq_dec)
          (favoriteCities (snd (removeFavoriteCity (u16 "Tokyo") two_cities)))
          (u16 "Tokyo"))
     = count_occ (list_eq_dec N.eq_dec) (favoriteCities two_cities) (u16 "Tokyo").
Proof.
  split; [exact tokyo_is_there|].
  exact (proj1 (remove_takes_one two_cities (u16 "Tokyo") tokyo_is_there)).
Defined.

(** A session whose file holds ["Tokyo", "London"]: adding "Osaka". *)
Lemma persisted_kept_witness :
  persisted synced
  /\ addFavoriteCity (u16 "Osaka") synced
     = (Normal tt, snd (addFavoriteCity (u16 "Osaka") synced))
  /\ persisted (snd (addFavoriteCity (u16 "Osaka") synced))
  /\ favoriteCities (snd (addFavoriteCity (u16 "Osaka") synced))
     = [u16 "Tokyo"; u16 "London"; u16 "Osaka"].
Proof.
  split; [exact synced_persisted|]. split; [reflexivity|].
  split; [|reflexivity].
  exact (proj1 (persisted_kept synced (snd (addFavoriteCity (u16 "Osaka") synced))
                  (u16 "Osaka") synced_persisted)
           eq_refl).
Defined.

(** Setting the key up in a session without a configuration file, and
    reading it in a new session, which holds no key, on the files left. *)
Lemma setup_then_load_witness :
  JSON_parse (JSON_stringify2 (config_of some_key some_instant))
  = Some (config_of some_key some_instant)
  /\ fs synced configFile <> Some Directory
  /\ exists st',
       setupApiKey some_key some_instant synced = (Normal tt, st')
       /\ let reader := {| apiKey := Undefined; favoriteCities := [];
                           fs := fs st'; console := [] |} in
          loadApiKey reader = (Normal (J (JString some_key)), reader).
Proof.
  assert (Hd : fs synced configFile <> Some Directory)
    by (vm_compute; discriminate).
  split; [exact config_read_back|]. split; [exact Hd|].
  destruct (setup_then_load some_key some_instant synced config_read_back Hd)
    as [st' [Es [_ [_ [_ [_ El]]]]]].
  exists st'. split; [exact Es|]. intros reader. exact (El reader eq_refl).
Defined.

(** No file can be written: the key stays [null]. *)
Lemma setupApiKey_write_fails_witness :
  fs read_only configFile = Some Directory
  /\ setupApiKey some_key some_instant read_only
     = (Throw SystemError, logged_all read_only setup_intro)
  /\ apiKey (logged_all read_only setup_intro) = J JNull.
Proof.
  split; [reflexivity|].
  destruct (setupApiKey_write_fails read_only some_key some_instant eq_refl)
    as [E [K _]].
  split; [exact E | exact K].
Defined.

(** No file can be written: "Osaka" is in the list all the same. *)
Lemma favorites_write_fails_witness :
  fs read_only favoritesFile = Some Directory
  /\ ~ In (u16 "Osaka") (favoriteCities read_only)
  /\ addFavoriteCity (u16 "Osaka") read_only
     = (Throw SystemError,
        with_favoriteCities read_only [u16 "Tokyo"; u16 "London"; u16 "Osaka"]).
Proof.
  split; [reflexivity|]. split; [exact osaka_is_new|].
  exact (proj1 (proj1 (favorites_write_fails read_only (u16 "Osaka") eq_refl)
                  osaka_is_new)).
Defined.

(** A whole session at the menu, with no network, on files of which none
    can be written. *)
Lemma menu_loop_duplicate_free_witness :
  NoDup (favoriteCities read_only)
  /\ NoDup (favoriteCities
              (snd (menu_loop (@offline CurrentWeather) (@offline Forecast)
                      session_script read_only)))
  /\ favoriteCities
       (snd (menu_loop (@offline CurrentWeather) (@offline Forecast)
               session_script read_only))
     = [u16 "London"; u16 "Osaka"].
Proof.
  assert (N : NoDup (favoriteCities read_only))
    by (repeat constructor; vm_compute; intuition discriminate).
  split; [exact N|]. split; [|vm_compute; reflexivity].
  exact (menu_loop_duplicate_free offline offline session_script read_only N).
Defined.

(** A new process on the files of [configured]. *)
Lemma constructor_restores_witness :
  JSON_parse (JSON_stringify2 (config_of some_key some_instant))
  = Some (config_of some_key some_instant)
  /\ JSON_parse (JSON_stringify2 (strings (favoriteCities configured)))
     = Some (strings (favoriteCities configured))
  /\ fs configured configFile
     = Some (File (JSON_stringify2 (config_of some_key some_instant)))
  /\ persisted configured
  /\ constructor (fs configured) [] = Some configured.
Proof.
  split; [exact config_read_back|].
  split; [exact (parse_stringify_strings (favoriteCities configured))|].
  split; [reflexivity|]. split; [reflexivity|].
  exact (constructor_restores configured some_key some_instant []
           config_read_back (parse_stringify_strings (favoriteCities configured))
           eq_refl eq_refl).
Defined.

(** The first start, in an empty directory. *)
Lemma constructor_first_run_witness :
  no_files configFile = None
  /\ no_files favoritesFile = None
  /\ exists st,
       constructor no_files [] = Some st
       /\ st = {| apiKey := J JNull; favoriteCities := []; fs := no_files;
                  console := [] |}.
Proof.
  split; [reflexivity|]. split; [reflexivity|].
  destruct (constructor_first_run no_files [] (typed "k") [] eq_refl eq_refl)
    as [st [Ec [Es _]]].
  exists st. split; [exact Ec | exact Es].
Defined.

(** The three samples of two days. *)
Lemma grouping_conserves_samples_witness :
  exists daily,
    group_by_day three_samples = Normal daily /\ sample_count daily = 3%nat.
Proof.
  destruct (group_by_day_buckets three_samples date_string_plain)
    as [daily [Erun _]].
  exists daily. split; [exact Erun|].
  exact (grouping_conserves_samples three_samples daily Erun).
Defined.

(** The script at the menu, with no network: "Osaka" is added trimmed,
    "Tokyo" is removed, the fetch fails and is reported, and command 7
    returns. *)
Example session_at_the_menu :
  let r := run_documented (@offline CurrentWeather) (@offline Forecast)
             session_script synced in
  fst r = Normal Returned
  /\ favoriteCities (snd r) = [u16 "London"; u16 "Osaka"]
  /\ fs (snd r) favoritesFile
     = Some (File (JSON_stringify2 (strings [u16 "London"; u16 "Osaka"])))
  /\ In (u16 "❌ エラー: " ++ msg_weather_failed) (console (snd r)).
Proof.
  vm_compute. split; [reflexivity|]. split; [reflexivity|]. split; [reflexivity|].
  repeat (first [left; reflexivity | right]).
Qed.

End Witnesses.
